(** * Station access: bus stops serving train stations

    A shallow embedding of [gtfs/bus2train/station_access.py]: the seven
    stages of [StationAccessFinder], the exporter and the stand-alone
    [filter_station_access_results], with the properties of its
    specification stated and proved over the embedding.

    Conventions.
    - Python dictionaries that the program only looks keys up in are [gmap]s;
      dictionaries that it iterates are insertion-ordered association lists
      ([odict]), because the order of iteration reaches the output.
    - A Python exception is a value of [fault]; code that may raise lives in
      the [result] monad.
    - A [datetime.date] is its proleptic Gregorian ordinal ([date.toordinal]).
    - Floating-point values (distances, averaged travel times) are the
      rationals they stand for. *)

From Stdlib Require Import ZArith QArith Qround Lqa Ascii DecimalString DecimalPos.
From stdpp Require Import base decidable option numbers list gmap strings sorting.

Local Open Scope Z_scope.

(** ** Exceptions *)

Inductive fault : Set :=
| StopIteration
| AssertionError
| KeyError
| AttributeError
| ZeroDivisionError
| ValueError.

Inductive result (A : Type) : Type :=
| Ok (a : A)
| Raise (e : fault).
Arguments Ok {A} a.
Arguments Raise {A} e.

Definition rbind {A B} (m : result A) (k : A → result B) : result B :=
  match m with
  | Ok a => k a
  | Raise e => Raise e
  end.

Notation "'let!' x ':=' m 'in' k" := (rbind m (λ x, k))
  (at level 10, x pattern, m at level 100, k at level 200).

(** Looking a key up with [d[k]]. *)
Definition getitem {A} (o : option A) : result A :=
  match o with
  | Some a => Ok a
  | None => Raise KeyError
  end.

(** A [for] loop whose body may raise and that threads a state. *)
Fixpoint for_each {A S} (body : S → A → result S) (l : list A) (s : S) : result S :=
  match l with
  | [] => Ok s
  | a :: l' => let! s' := body s a in for_each body l' s'
  end.

(** A generator expression with a condition that may raise. *)
Fixpoint keep_if {A} (p : A → result bool) (l : list A) : result (list A) :=
  match l with
  | [] => Ok []
  | a :: l' =>
      let! b := p a in
      let! r := keep_if p l' in
      Ok (if b then a :: r else r)
  end.

(** ** Insertion-ordered dictionaries *)

Module Dict.
Section odict.
Context {K V : Type} `{EqDecision K}.

Definition odict := list (K * V).

Fixpoint get (k : K) (d : list (K * V)) : option V :=
  match d with
  | [] => None
  | (k', v) :: d' => if decide (k = k') then Some v else get k d'
  end.

(** [d[k] = v]: an existing key keeps its place, a new one goes last. *)
Fixpoint set (k : K) (v : V) (d : list (K * V)) : list (K * V) :=
  match d with
  | [] => [(k, v)]
  | (k', v') :: d' =>
      if decide (k = k') then (k', v) :: d' else (k', v') :: set k v d'
  end.

Definition keys (d : list (K * V)) : list K := d.*1.
Definition values (d : list (K * V)) : list V := d.*2.

(** [d.setdefault(k, v)], returning the value now bound and the dictionary. *)
Definition setdefault (k : K) (v : V) (d : list (K * V)) : V * list (K * V) :=
  match get k d with
  | Some v' => (v', d)
  | None => (v, set k v d)
  end.
End odict.
Arguments odict : clear implicits.
End Dict.

Abbreviation odict := Dict.odict.

(** ** Data model *)

(** [StationAndDistance], the value type of the distance table. *)
Record StationAndDistance := {
  station_id : Z;
  distance : Q;
}.

(** One stop of a route story. *)
Record RouteStoryStop := {
  stop_id : Z;
  stop_sequence : Z;
  arrival_offset : Z;
}.

Record RouteStory := {
  route_story_id : Z;
  stops : list RouteStoryStop;
}.

Record Route := {
  route_id : Z;
  line_number : string;
}.

Record Service := {
  start_date : Z;
  end_date : Z;
}.

Record Trip := {
  trip_id : Z;
  trip_route : Route;
  service : Service;
}.

(** [HasFrequency]: the pair of counters the three derived classes inherit. *)
Record HasFrequency := {
  weekday_trips : Z;
  weekend_trips : Z;
}.

Definition HasFrequency_init : HasFrequency :=
  {| weekday_trips := 0; weekend_trips := 0 |}.

Definition total_trips (self : HasFrequency) : Z :=
  weekday_trips self + weekend_trips self.

Definition add_trip_counts (self other : HasFrequency) : HasFrequency :=
  {| weekday_trips := weekday_trips self + weekday_trips other;
     weekend_trips := weekend_trips self + weekend_trips other |}.

Record ExtendedRouteStory := {
  ers_frequency : HasFrequency;
  route_story : RouteStory;
  station_stops : list RouteStoryStop;
  stop_and_station : list (RouteStoryStop * RouteStoryStop);
  route : option Route;
}.

Definition ExtendedRouteStory_init (rs : RouteStory) (st : list RouteStoryStop)
  : ExtendedRouteStory :=
  {| ers_frequency := HasFrequency_init; route_story := rs; station_stops := st;
     stop_and_station := []; route := None |}.

Record ExtendedRoute := {
  er_frequency : HasFrequency;
  er_route : Route;
  stops_to_station_to_travel_time : odict (Z * Z) Q;
}.

Definition ExtendedRoute_init (r : Route) : ExtendedRoute :=
  {| er_frequency := HasFrequency_init; er_route := r;
     stops_to_station_to_travel_time := [] |}.

Record StopAndStation := {
  sas_frequency : HasFrequency;
  sas_stop_id : Z;
  sas_station_id : Z;
  routes : list Route;
  travel_time : Q;
}.

Definition StopAndStation_init (stop station : Z) : StopAndStation :=
  {| sas_frequency := HasFrequency_init; sas_stop_id := stop;
     sas_station_id := station; routes := []; travel_time := 0%Q |}.

(** ** Stage 1: stops near stations *)

Global Instance Qlt_decision (x y : Q) : Decision (x < y)%Q.
Proof. unfold Qlt. apply _. Defined.

Definition find_station_stops (station_stop_distance : Q) (include_trains : bool)
    (station_distance : gmap Z StationAndDistance) : gmap Z StationAndDistance :=
  let near_stations :=
    filter (λ kv, (distance kv.2 < station_stop_distance)%Q) station_distance in
  if negb include_trains
  then filter (λ kv, kv.1 ≠ station_id kv.2) near_stations
  else near_stations.

(** ** Stage 2: the station stops of every route story *)

Definition station_stops_of (stops_near_stations : gmap Z StationAndDistance)
    (rs : RouteStory) : list RouteStoryStop :=
  filter (λ stop, is_Some (stops_near_stations !! stop_id stop)) (stops rs).

Definition route_story_train_station_stops
    (stops_near_stations : gmap Z StationAndDistance)
    (route_stories : list RouteStory) : odict Z ExtendedRouteStory :=
  let route_story_and_stations :=
    (λ rs, (rs, station_stops_of stops_near_stations rs)) <$> route_stories in
  let extended_route_stories :=
    (λ p, ExtendedRouteStory_init p.1 p.2) <$>
      filter (λ p, (0 < length p.2)%nat) route_story_and_stations in
  foldl (λ d e, Dict.set (route_story_id (route_story e)) e d) []
    extended_route_stories.

(** ** Stage 3: from each stop to the next station, or from the previous one *)

Definition with_stop_and_station (e : ExtendedRouteStory)
    (l : list (RouteStoryStop * RouteStoryStop)) : ExtendedRouteStory :=
  {| ers_frequency := ers_frequency e; route_story := route_story e;
     station_stops := station_stops e; stop_and_station := l; route := route e |}.

(** The body of the inner loop of [route_story_stops_to_stations]:
    [next_station] is the cursor, [station_stops_iter] what the iterator has
    left.  The pairs are returned in the order they are appended. *)
Fixpoint stops_to_stations_loop (next_station : RouteStoryStop)
    (station_stops_iter stops : list RouteStoryStop)
  : result (list (RouteStoryStop * RouteStoryStop)) :=
  match stops with
  | [] => Ok []
  | route_story_stop :: stops' =>
      let cursor :=
        if bool_decide (stop_sequence route_story_stop > stop_sequence next_station)
        then match station_stops_iter with
             | [] => None
             | n :: it => Some (n, it)
             end
        else Some (next_station, station_stops_iter) in
      match cursor with
      | None => Ok []
      | Some (next_station, station_stops_iter) =>
          if bool_decide (arrival_offset next_station >= arrival_offset route_story_stop)
          then let! rest := stops_to_stations_loop next_station station_stops_iter stops' in
               Ok ((route_story_stop, next_station) :: rest)
          else Raise AssertionError
      end
  end.

(** The same loop of [stations_to_route_story_stop], over the reversed lists. *)
Fixpoint stations_to_stop_loop (next_station : RouteStoryStop)
    (station_stops_iter stops : list RouteStoryStop)
  : result (list (RouteStoryStop * RouteStoryStop)) :=
  match stops with
  | [] => Ok []
  | route_story_stop :: stops' =>
      let cursor :=
        if bool_decide (stop_sequence route_story_stop < stop_sequence next_station)
        then match station_stops_iter with
             | [] => None
             | n :: it => Some (n, it)
             end
        else Some (next_station, station_stops_iter) in
      match cursor with
      | None => Ok []
      | Some (next_station, station_stops_iter) =>
          if bool_decide (arrival_offset next_station <= arrival_offset route_story_stop)
          then let! rest := stations_to_stop_loop next_station station_stops_iter stops' in
               Ok ((route_story_stop, next_station) :: rest)
          else Raise AssertionError
      end
  end.

(** One iteration of the outer loop: [next(station_stops_iter)] has no
    default, so an empty list of station stops raises [StopIteration]. *)
Definition stops_to_stations_story (e : ExtendedRouteStory) : result ExtendedRouteStory :=
  match station_stops e with
  | [] => Raise StopIteration
  | next_station :: station_stops_iter =>
      let! l := stops_to_stations_loop next_station station_stops_iter
                  (stops (route_story e)) in
      Ok (with_stop_and_station e (stop_and_station e ++ l))
  end.

Definition stations_to_stop_story (e : ExtendedRouteStory) : result ExtendedRouteStory :=
  match reverse (station_stops e) with
  | [] => Raise StopIteration
  | next_station :: station_stops_iter =>
      let! l := stations_to_stop_loop next_station station_stops_iter
                  (reverse (stops (route_story e))) in
      Ok (with_stop_and_station e (stop_and_station e ++ l))
  end.

(** Running a body that may raise over the values of a dictionary, each
    value updated in place. *)
Fixpoint for_values {K V} (body : V → result V) (d : odict K V) : result (odict K V) :=
  match d with
  | [] => Ok []
  | (k, v) :: d' =>
      let! v' := body v in
      let! r := for_values body d' in
      Ok ((k, v') :: r)
  end.

Definition route_story_stops_to_stations (extended_route_stories : odict Z ExtendedRouteStory)
  : result (odict Z ExtendedRouteStory) :=
  for_values stops_to_stations_story extended_route_stories.

Definition stations_to_route_story_stop (extended_route_stories : odict Z ExtendedRouteStory)
  : result (odict Z ExtendedRouteStory) :=
  for_values stations_to_stop_story extended_route_stories.

(** The choice [run_station_access] makes for stage 3. *)
Definition stage3 (to_station : bool) (extended_route_stories : odict Z ExtendedRouteStory)
  : result (odict Z ExtendedRouteStory) :=
  if to_station
  then route_story_stops_to_stations extended_route_stories
  else stations_to_route_story_stop extended_route_stories.

(** The travel time stage 6 computes for a pair of stage 3. *)
Definition pair_travel_time (p : RouteStoryStop * RouteStoryStop) : Z :=
  arrival_offset p.2 - arrival_offset p.1.

(** ** Stages 4 to 7 and the exporter *)

Definition with_ers_frequency (e : ExtendedRouteStory) (f : HasFrequency)
  : ExtendedRouteStory :=
  {| ers_frequency := f; route_story := route_story e;
     station_stops := station_stops e; stop_and_station := stop_and_station e;
     route := route e |}.

Definition with_route (e : ExtendedRouteStory) (r : Route) : ExtendedRouteStory :=
  {| ers_frequency := ers_frequency e; route_story := route_story e;
     station_stops := station_stops e; stop_and_station := stop_and_station e;
     route := Some r |}.

Definition with_er_frequency (r : ExtendedRoute) (f : HasFrequency) : ExtendedRoute :=
  {| er_frequency := f; er_route := er_route r;
     stops_to_station_to_travel_time := stops_to_station_to_travel_time r |}.

Definition with_travel_times (r : ExtendedRoute) (m : odict (Z * Z) Q) : ExtendedRoute :=
  {| er_frequency := er_frequency r; er_route := er_route r;
     stops_to_station_to_travel_time := m |}.

(** [date_range]: the [while d <= end_date] generator, unrolled as often as
    there are days from [d] to [end_date]. *)
Fixpoint date_range_loop (fuel : nat) (d end_date : Z) : list Z :=
  match fuel with
  | O => []
  | S fuel' =>
      if bool_decide (d <= end_date)
      then d :: date_range_loop fuel' (d + 1) end_date
      else []
  end.

Definition date_range (start_date end_date : Z) : list Z :=
  date_range_loop (Z.to_nat (end_date - start_date + 1)) start_date end_date.

(** The [end_date] of the constructor: a week after [start_date] by default. *)
Definition default_end_date (start_date : Z) (end_date : option Z) : Z :=
  match end_date with
  | Some d => d
  | None => start_date + 7
  end.

(** [date.weekday()]: Monday is 0, and ordinal 1 is a Monday. *)
Definition weekday (d : Z) : Z := (d + 6) `mod` 7.

Section pipeline.

(** [weekdays], imported from [gtfs.bus2train.utilities]: the day numbers that
    count as weekdays. *)
Variable weekdays : list Z.

(** The configuration of a [StationAccessFinder]. *)
Variable start_date_ end_date_ : Z.

(** What the reader and the route story loader provide. *)
Variable trips : list Trip.
Variable trips_to_route_stories : gmap Z RouteStory.

Definition count_day (f : HasFrequency) (d : Z) : HasFrequency :=
  if bool_decide (weekday d ∈ weekdays)
  then {| weekday_trips := weekday_trips f + 1; weekend_trips := weekend_trips f |}
  else {| weekday_trips := weekday_trips f; weekend_trips := weekend_trips f + 1 |}.

(** The condition of the generator that stage 4 draws its trips from. *)
Definition trip_selected (trip : Trip) : bool :=
  bool_decide (end_date (service trip) >= start_date_)
  || bool_decide (start_date (service trip) <= end_date_).

Definition route_story_frequency (extended_route_stories : odict Z ExtendedRouteStory)
  : result (odict Z ExtendedRouteStory) :=
  let trips' := filter (λ trip, trip_selected trip = true) trips in
  for_each (λ extended_route_stories trip,
      let! entry := getitem (trips_to_route_stories !! trip_id trip) in
      let route_story_id := route_story_id entry in
      match Dict.get route_story_id extended_route_stories with
      | Some extended_route_story =>
          let f := foldl count_day (ers_frequency extended_route_story)
                     (date_range start_date_ end_date_) in
          Ok (Dict.set route_story_id (with_ers_frequency extended_route_story f)
                extended_route_stories)
      | None => Ok extended_route_stories
      end)
    trips' extended_route_stories.

Definition route_story_to_route (extended_route_stories : odict Z ExtendedRouteStory)
  : result (odict Z ExtendedRouteStory) :=
  for_each (λ extended_route_stories trip,
      let! entry := getitem (trips_to_route_stories !! trip_id trip) in
      let route_story_id := route_story_id entry in
      match Dict.get route_story_id extended_route_stories with
      | Some extended_route_story =>
          Ok (Dict.set route_story_id (with_route extended_route_story (trip_route trip))
                extended_route_stories)
      | None => Ok extended_route_stories
      end)
    trips extended_route_stories.

(** [d[key] += x] on a [defaultdict(lambda: 0)]. *)
Definition add_to (key : Z * Z) (x : Q) (d : odict (Z * Z) Q) : odict (Z * Z) Q :=
  Dict.set key (default 0%Q (Dict.get key d) + x)%Q d.

(** The first loop of stage 6, before any division. *)
Definition route_stops_and_stations_sum (stops_near_stations : gmap Z StationAndDistance)
    (extended_route_stories : odict Z ExtendedRouteStory)
  : result (odict Z ExtendedRoute) :=
  for_each (λ extended_routes route_story,
      let! r := match route route_story with
                | Some r => Ok r
                | None => Raise AttributeError
                end in
      let '(extended_route, extended_routes) :=
        Dict.setdefault (route_id r) (ExtendedRoute_init r) extended_routes in
      let extended_route :=
        with_er_frequency extended_route
          (add_trip_counts (er_frequency extended_route) (ers_frequency route_story)) in
      let! extended_route :=
        for_each (λ extended_route p,
            let! sd := getitem (stops_near_stations !! stop_id p.2) in
            let key := (stop_id p.1, station_id sd) in
            let travel_time := pair_travel_time p in
            Ok (with_travel_times extended_route
                  (add_to key
                     (inject_Z (total_trips (ers_frequency route_story) * travel_time))
                     (stops_to_station_to_travel_time extended_route))))
          (stop_and_station route_story) extended_route in
      Ok (Dict.set (route_id r) extended_route extended_routes))
    (Dict.values extended_route_stories) [].

(** [x /= n] for an integer [n]: the exact quotient, where the float of the
    code is the double nearest to it. *)
Definition divide (x : Q) (n : Z) : result Q :=
  if bool_decide (n = 0) then Raise ZeroDivisionError else Ok (x / inject_Z n)%Q.

(** The second loop of stage 6. *)
Definition route_stops_and_stations_divide (extended_routes : odict Z ExtendedRoute)
  : result (odict Z ExtendedRoute) :=
  for_values (λ route,
      let! m := for_values (λ x, divide x (total_trips (er_frequency route)))
                  (stops_to_station_to_travel_time route) in
      Ok (with_travel_times route m))
    extended_routes.

Definition route_stops_and_stations (stops_near_stations : gmap Z StationAndDistance)
    (extended_route_stories : odict Z ExtendedRouteStory)
  : result (odict Z ExtendedRoute) :=
  let! extended_routes :=
    route_stops_and_stations_sum stops_near_stations extended_route_stories in
  route_stops_and_stations_divide extended_routes.

(** The first loop of stage 7. *)
Definition aggregate_by_stop_sum (extended_routes : odict Z ExtendedRoute)
  : odict (Z * Z) StopAndStation :=
  foldl (λ stop_and_stations extended_route,
      foldl (λ stop_and_stations kv,
          let '((stop_id, station_id), t) := kv in
          let '(stop_and_station, stop_and_stations) :=
            Dict.setdefault (stop_id, station_id)
              (StopAndStation_init stop_id station_id) stop_and_stations in
          Dict.set (stop_id, station_id)
            {| sas_frequency :=
                 add_trip_counts (sas_frequency stop_and_station)
                   (er_frequency extended_route);
               sas_stop_id := sas_stop_id stop_and_station;
               sas_station_id := sas_station_id stop_and_station;
               routes := routes stop_and_station ++ [er_route extended_route];
               travel_time :=
                 (travel_time stop_and_station
                  + t * inject_Z (total_trips (er_frequency extended_route)))%Q |}
            stop_and_stations)
        stop_and_stations (stops_to_station_to_travel_time extended_route))
    [] (Dict.values extended_routes).

(** The second loop of stage 7. *)
Definition aggregate_by_stop_divide (stop_and_stations : odict (Z * Z) StopAndStation)
  : result (odict (Z * Z) StopAndStation) :=
  for_values (λ stop_and_station,
      let! t := divide (travel_time stop_and_station)
                  (total_trips (sas_frequency stop_and_station)) in
      Ok {| sas_frequency := sas_frequency stop_and_station;
            sas_stop_id := sas_stop_id stop_and_station;
            sas_station_id := sas_station_id stop_and_station;
            routes := routes stop_and_station;
            travel_time := t |})
    stop_and_stations.

Definition aggregate_by_stop (extended_routes : odict Z ExtendedRoute)
  : result (odict (Z * Z) StopAndStation) :=
  aggregate_by_stop_divide (aggregate_by_stop_sum extended_routes).

End pipeline.

(** A row of [station_access.txt], as [csv.DictWriter] writes it and
    [csv.DictReader] reads it back: one text per column of the header. *)
Module Csv.
Record t := {
  stop_id : string;
  station_id : string;
  stop_code : string;
  station_code : string;
  travel_time : string;
  weekday_trips : string;
  weekend_trips : string;
  latitude : string;
  longitude : string;
  station_name : string;
  line_numbers : string;
  route_ids : string;
  parent_stop : string;
}.
End Csv.

(** A stop of the reader, its attributes as the text the writer emits. *)
Record Stop := {
  stop_code : string;
  stop_lat : string;
  stop_lon : string;
  stop_name : string;
  parent_station : string;
}.

(** [str] of an integer. *)
Definition str (z : Z) : string := NilZero.string_of_int (Z.to_int z).

(** The order of [str] values: by code point, first difference decides. *)
Definition str_le (s1 s2 : string) : Prop := String.leb s1 s2 = true.

Global Instance str_le_decision (s1 s2 : string) : Decision (str_le s1 s2).
Proof. unfold str_le. apply _. Defined.

(** [sorted(set(xs))] for texts [xs]. *)
Definition sorted_set (xs : list string) : list string :=
  merge_sort str_le (elements (list_to_set xs : gset string)).

Fixpoint traverse {A B} (f : A → result B) (l : list A) : result (list B) :=
  match l with
  | [] => Ok []
  | a :: l' =>
      let! b := f a in
      let! r := traverse f l' in
      Ok (b :: r)
  end.

Definition export_row (gtfs_stops : gmap Z Stop) (stop_and_station : StopAndStation)
  : result Csv.t :=
  let! stop := getitem (gtfs_stops !! sas_stop_id stop_and_station) in
  let! station := getitem (gtfs_stops !! sas_station_id stop_and_station) in
  Ok {| Csv.stop_id := str (sas_stop_id stop_and_station);
        Csv.station_id := str (sas_station_id stop_and_station);
        Csv.stop_code := stop_code stop;
        Csv.station_code := stop_code station;
        Csv.travel_time := str (Qfloor (travel_time stop_and_station / 60));
        Csv.weekday_trips := str (weekday_trips (sas_frequency stop_and_station));
        Csv.weekend_trips := str (weekend_trips (sas_frequency stop_and_station));
        Csv.line_numbers :=
          String.concat " " (sorted_set (line_number <$> routes stop_and_station));
        Csv.route_ids :=
          String.concat " " ((λ route, str (route_id route)) <$> routes stop_and_station);
        Csv.latitude := stop_lat stop;
        Csv.longitude := stop_lon stop;
        Csv.station_name := stop_name station;
        Csv.parent_stop := parent_station stop |}.

Definition export_stop_and_station (gtfs_stops : gmap Z Stop)
    (stop_and_stations : odict (Z * Z) StopAndStation) : result (list Csv.t) :=
  traverse (export_row gtfs_stops) (Dict.values stop_and_stations).

(** [run_station_access]: stages 1 to 7 in order, then the export of the
    rows; the readme file is left out. *)
Definition run_station_access (weekdays : list Z) (start_date_ end_date_ : Z)
    (to_station : bool) (trips : list Trip) (trips_to_route_stories : gmap Z RouteStory)
    (gtfs_stops : gmap Z Stop) (station_stop_distance : Q)
    (station_distance : gmap Z StationAndDistance) (route_stories : list RouteStory)
  : result (list Csv.t) :=
  let stops_near_stations :=
    find_station_stops station_stop_distance false station_distance in
  let extended_route_stories :=
    route_story_train_station_stops stops_near_stations route_stories in
  let! extended_route_stories := stage3 to_station extended_route_stories in
  let! extended_route_stories :=
    route_story_frequency weekdays start_date_ end_date_ trips trips_to_route_stories
      extended_route_stories in
  let! extended_route_stories :=
    route_story_to_route trips trips_to_route_stories extended_route_stories in
  let! extended_routes :=
    route_stops_and_stations stops_near_stations extended_route_stories in
  let! stop_and_stations := aggregate_by_stop extended_routes in
  export_stop_and_station gtfs_stops stop_and_stations.

(** ** The result filter *)

Section result_filter.

(** [int] on a text: the integer it denotes, or nothing where Python raises
    [ValueError]. *)
Variable int : string → option Z.

Definition int_of (s : string) : result Z :=
  match int s with
  | Some z => Ok z
  | None => Raise ValueError
  end.

(** The truth value of an optional set: [None] and the empty set are false. *)
Definition truthy (s : option (gset Z)) : bool :=
  match s with
  | Some s => bool_decide (s ≠ ∅)
  | None => false
  end.

Definition member (z : Z) (s : option (gset Z)) : bool :=
  match s with
  | Some s => bool_decide (z ∈ s)
  | None => false
  end.

(** The loop that fills [stop_to_record]. *)
Definition nearest_station_loop (records : list Csv.t) : result (odict string Csv.t) :=
  for_each (λ stop_to_record r,
      let stop_id := Csv.stop_id r in
      let! closer :=
        match Dict.get stop_id stop_to_record with
        | None => Ok true
        | Some r0 =>
            let! a := int_of (Csv.travel_time r) in
            let! b := int_of (Csv.travel_time r0) in
            Ok (bool_decide (a < b))
        end in
      Ok (if closer then Dict.set stop_id r stop_to_record else stop_to_record))
    records [].

Definition nearest_station (records : list Csv.t) : result (list Csv.t) :=
  let! stop_to_record := nearest_station_loop records in
  Ok (Dict.values stop_to_record).

(** [filter_station_access_results], from the records read to the records
    written. *)
Definition filter_station_access_results (records : list Csv.t)
    (max_time_difference_from_station : Z)
    (stations_to_include stations_to_exclude : option (gset Z))
    (only_nearest_station : bool) (min_weekday_trips : Z) : result (list Csv.t) :=
  let! records :=
    if bool_decide (max_time_difference_from_station ≠ -1)
    then keep_if (λ r, let! t := int_of (Csv.travel_time r) in
                       Ok (bool_decide (t <= max_time_difference_from_station)))
           records
    else Ok records in
  let! records :=
    if truthy stations_to_include
    then keep_if (λ r, let! s := int_of (Csv.station_id r) in
                       Ok (member s stations_to_include))
           records
    else Ok records in
  let! records :=
    if truthy stations_to_exclude
    then keep_if (λ r, let! s := int_of (Csv.station_id r) in
                       Ok (negb (member s stations_to_exclude)))
           records
    else Ok records in
  let! records :=
    if only_nearest_station then nearest_station records else Ok records in
  keep_if (λ r, let! w := int_of (Csv.weekday_trips r) in
                Ok (bool_decide (w >= min_weekday_trips)))
    records.

End result_filter.

(** ** Times of day as text *)

(** [int] on a float: the fraction is dropped, towards zero. *)
Definition int_of_float (x : Q) : Z :=
  if Qle_bool 0 x then Qfloor x else Qceiling x.

(** ['%02d' % x]: the integer part of [x] in decimal, a [0] put before a
    single digit. *)
Definition format_02d (x : Q) : string :=
  let s := str (int_of_float x) in
  if bool_decide (String.length s < 2)%nat then String "0"%char s else s.

(** [t % n] for integers. *)
Definition py_mod (t n : Z) : Z := t `mod` n.

Definition format_time (t : Z) : string :=
  format_02d (inject_Z t / 3600)
  +:+ ":" +:+ format_02d (inject_Z (py_mod t 3600) / 60)
  +:+ ":" +:+ format_02d (inject_Z (py_mod t 60)).

(** [s.split(c)] for a separator of one character. *)
Fixpoint split (c : ascii) (s : string) : list string :=
  match s with
  | EmptyString => [EmptyString]
  | String a s' =>
      if Ascii.eqb a c then EmptyString :: split c s'
      else match split c s' with
           | h :: t => String a h :: t
           | [] => [String a EmptyString]
           end
  end.

Section time_text.

(** [int] on a text, as in the result filter. *)
Variable int : string → option Z.

(** [parse_time]: the list of the fields is built first, then unpacked into
    three names; both steps raise [ValueError]. *)
Definition parse_time (t : string) : result Z :=
  let! fields := traverse (int_of int) (split ":"%char t) in
  match fields with
  | [hour; minute; second] => Ok (hour * 3600 + minute * 60 + second)
  | _ => Raise ValueError
  end.

End time_text.

(** ** Auxiliary notions for the statements *)

(** The order stage 3 asserts between the offsets of a stop and of the
    station it is matched with. *)
Definition offsets_ordered (to_station : bool) (p : RouteStoryStop * RouteStoryStop) : Prop :=
  if to_station
  then arrival_offset p.2 >= arrival_offset p.1
  else arrival_offset p.2 <= arrival_offset p.1.

Global Instance offsets_ordered_decision b p : Decision (offsets_ordered b p).
Proof. unfold offsets_ordered. destruct b; apply _. Defined.

(** The pairs a scan of stage 3 forms, the assertion left aside: [after s n]
    tells whether stop [s] lies beyond the cursor [n]. *)
Fixpoint scan_pairs (after : RouteStoryStop → RouteStoryStop → bool)
    (next_station : RouteStoryStop) (station_stops_iter stops : list RouteStoryStop)
  : list (RouteStoryStop * RouteStoryStop) :=
  match stops with
  | [] => []
  | s :: stops' =>
      if after s next_station
      then match station_stops_iter with
           | [] => []
           | n :: it => (s, n) :: scan_pairs after n it stops'
           end
      else (s, next_station) :: scan_pairs after next_station station_stops_iter stops'
  end.

Definition assignments (to_station : bool) (e : ExtendedRouteStory)
  : list (RouteStoryStop * RouteStoryStop) :=
  if to_station
  then match station_stops e with
       | [] => []
       | n :: it =>
           scan_pairs (λ s n, bool_decide (stop_sequence s > stop_sequence n)) n it
             (stops (route_story e))
       end
  else match reverse (station_stops e) with
       | [] => []
       | n :: it =>
           scan_pairs (λ s n, bool_decide (stop_sequence s < stop_sequence n)) n it
             (reverse (stops (route_story e)))
       end.

Definition Zsum (l : list Z) : Z := foldr Z.add 0 l.

(** The trip belongs to the route story with identifier [k]. *)
Definition mapped_to (trips_to_route_stories : gmap Z RouteStory) (k : Z) (trip : Trip)
  : Prop :=
  route_story_id <$> trips_to_route_stories !! trip_id trip = Some k.

Global Instance mapped_to_decision m k trip : Decision (mapped_to m k trip).
Proof. unfold mapped_to. apply _. Defined.

(** The days stage 4 counts for route story [k] over the trips [l]: the whole
    analysis window, once per trip of the story. *)
Definition counted_days (start_date_ end_date_ : Z)
    (trips_to_route_stories : gmap Z RouteStory) (k : Z) (l : list Trip) : list Z :=
  filter (mapped_to trips_to_route_stories k) l ≫= λ _, date_range start_date_ end_date_.

(** The route stories of a route, and the routes of a (stop, station) pair. *)
Definition members (rid : Z) (l : list ExtendedRouteStory) : list ExtendedRouteStory :=
  filter (λ e, route_id <$> route e = Some rid) l.

Definition contributing (key : Z * Z) (l : list ExtendedRoute) : list ExtendedRoute :=
  filter (λ er, key ∈ Dict.keys (stops_to_station_to_travel_time er)) l.

(** The state of the first loop of stage 6 after the route stories [pre]:
    every one of them has a route, and the extended route of [rid] exists
    exactly when [rid] has a member among them, its counters being the sums of
    theirs. *)
Definition stage6_invariant (pre : list ExtendedRouteStory)
    (extended_routes : odict Z ExtendedRoute) : Prop :=
  NoDup (Dict.keys extended_routes)
  ∧ Forall (λ e, is_Some (route e)) pre
  ∧ ∀ rid,
      match Dict.get rid extended_routes with
      | Some er =>
          members rid pre ≠ []
          ∧ weekday_trips (er_frequency er)
            = Zsum ((λ e, weekday_trips (ers_frequency e)) <$> members rid pre)
          ∧ weekend_trips (er_frequency er)
            = Zsum ((λ e, weekend_trips (ers_frequency e)) <$> members rid pre)
          ∧ NoDup (Dict.keys (stops_to_station_to_travel_time er))
      | None => members rid pre = []
      end.

(** What the first loop of stage 7 has built for the pair [key] out of the
    extended routes [l] that contain it. *)
Definition aggregate_of (key : Z * Z) (l : list ExtendedRoute) (s : StopAndStation)
  : Prop :=
  l ≠ []
  ∧ weekday_trips (sas_frequency s)
    = Zsum ((λ er, weekday_trips (er_frequency er)) <$> l)
  ∧ weekend_trips (sas_frequency s)
    = Zsum ((λ er, weekend_trips (er_frequency er)) <$> l)
  ∧ routes s = er_route <$> l
  ∧ sas_stop_id s = key.1
  ∧ sas_station_id s = key.2.

(** The state of that loop after the extended routes [pre]. *)
Definition stage7_invariant (pre : list ExtendedRoute)
    (stop_and_stations : odict (Z * Z) StopAndStation) : Prop :=
  NoDup (Dict.keys stop_and_stations)
  ∧ ∀ key,
      match Dict.get key stop_and_stations with
      | Some s => aggregate_of key (contributing key pre) s
      | None => contributing key pre = []
      end.

(** The station stop a stop is to be matched with in forward mode, the first
    of the station stops whose sequence number is not below the stop's, and in
    backward mode, the last whose sequence number is not above it. *)
Definition next_station (sts : list RouteStoryStop) (s : RouteStoryStop)
  : option RouteStoryStop :=
  head (filter (λ n, stop_sequence s <= stop_sequence n) sts).

Definition previous_station (sts : list RouteStoryStop) (s : RouteStoryStop)
  : option RouteStoryStop :=
  last (filter (λ n, stop_sequence n <= stop_sequence s) sts).

(** A pattern whose sequence numbers increase strictly. *)
Definition sequence_increasing (l : list RouteStoryStop) : Prop :=
  StronglySorted (λ a b, stop_sequence a < stop_sequence b) l.

(** A pattern whose arrival offsets do not decrease with the sequence. *)
Definition offsets_monotone (l : list RouteStoryStop) : Prop :=
  ∀ a b, a ∈ l → b ∈ l → stop_sequence a <= stop_sequence b →
         arrival_offset a <= arrival_offset b.

(** What the exporter is to write for a (stop, station) aggregate: the minutes
    [m] with [60 m <= seconds < 60 (m + 1)]; the line numbers of the routes,
    each once and ascending, joined by spaces; the identifiers of the routes as
    they were appended, joined by spaces. *)
Definition row_format (stop_and_station : StopAndStation) (row : Csv.t) : Prop :=
  (∃ m, Csv.travel_time row = str m
        ∧ m = Qfloor (travel_time stop_and_station / 60)
        ∧ (inject_Z m * 60 <= travel_time stop_and_station)%Q
        ∧ (travel_time stop_and_station < inject_Z (m + 1) * 60)%Q)
  ∧ (∃ l, Csv.line_numbers row = String.concat " " l
          ∧ StronglySorted str_le l
          ∧ NoDup l
          ∧ ∀ x, x ∈ l ↔ ∃ route, route ∈ routes stop_and_station
                                   ∧ line_number route = x)
  ∧ Csv.route_ids row
    = String.concat " " ((λ route, str (route_id route)) <$> routes stop_and_station).

(** The row of a stop that nearest-only selection is to keep, in two readings
    of a tie: among the rows of its stop, [r] has the least travel time and
    is the first, respectively the last, row to have it. *)
Definition rows_before_after (int : string → option Z) (strict_before : bool)
    (records : list Csv.t) (r : Csv.t) : Prop :=
  ∃ pre post t,
    records = pre ++ r :: post
    ∧ int (Csv.travel_time r) = Some t
    ∧ (∀ r', r' ∈ pre → Csv.stop_id r' = Csv.stop_id r →
             ∃ t', int (Csv.travel_time r') = Some t'
                   ∧ if strict_before then t < t' else t <= t')
    ∧ (∀ r', r' ∈ post → Csv.stop_id r' = Csv.stop_id r →
             ∃ t', int (Csv.travel_time r') = Some t'
                   ∧ if strict_before then t <= t' else t < t').

Definition first_nearest (int : string → option Z) := rows_before_after int true.
Definition last_nearest (int : string → option Z) := rows_before_after int false.

(** The row passes the four tests of the result filter that look at one row
    at a time; a column is read as [0] where [int] has no answer. *)
Definition row_kept (int : string → option Z) (max_time_difference_from_station : Z)
    (stations_to_include stations_to_exclude : option (gset Z)) (min_weekday_trips : Z)
    (r : Csv.t) : bool :=
  (bool_decide (max_time_difference_from_station = -1)
   || bool_decide (default 0 (int (Csv.travel_time r)) <= max_time_difference_from_station))
  && (negb (truthy stations_to_include)
      || member (default 0 (int (Csv.station_id r))) stations_to_include)
  && (negb (truthy stations_to_exclude)
      || negb (member (default 0 (int (Csv.station_id r))) stations_to_exclude))
  && bool_decide (default 0 (int (Csv.weekday_trips r)) >= min_weekday_trips).

(** The state of the loop of nearest-only selection after the rows [pre]:
    one entry per stop seen, holding the first row of least travel time. *)
Definition nearest_invariant (int : string → option Z) (pre : list Csv.t)
    (d : odict string Csv.t) : Prop :=
  NoDup (Dict.keys d)
  ∧ (∀ s, s ∈ Dict.keys d ↔ s ∈ Csv.stop_id <$> pre)
  ∧ ∀ s r, Dict.get s d = Some r → Csv.stop_id r = s ∧ first_nearest int pre r.





(** ** Concrete inputs for the examples *)

(** A reading of [int] on plain decimal numerals. *)
Definition decimal (s : string) : option Z := Z.of_int <$> NilZero.int_of_string s.

Definition example_row (stop station minutes weekday : string) : Csv.t :=
  {| Csv.stop_id := stop; Csv.station_id := station; Csv.stop_code := "";
     Csv.station_code := ""; Csv.travel_time := minutes; Csv.weekday_trips := weekday;
     Csv.weekend_trips := "0"; Csv.latitude := ""; Csv.longitude := "";
     Csv.station_name := ""; Csv.line_numbers := ""; Csv.route_ids := "";
     Csv.parent_stop := "" |}.

Definition example_stop : Stop :=
  {| stop_code := "c"; stop_lat := "32.0"; stop_lon := "34.8"; stop_name := "n";
     parent_station := "" |}.

Definition example_stops : gmap Z Stop :=
  {[ 1 := example_stop; 2 := example_stop; 3 := example_stop; 4 := example_stop;
     100 := example_stop ]}.

Definition example_aggregate : StopAndStation :=
  {| sas_frequency := {| weekday_trips := 10; weekend_trips := 4 |};
     sas_stop_id := 1; sas_station_id := 100;
     routes := [ {| route_id := 30; line_number := "9" |};
                 {| route_id := 12; line_number := "10" |};
                 {| route_id := 31; line_number := "9" |} ];
     travel_time := 251 # 2 |}.

Definition example_weekdays : list Z := [6; 0; 1; 2; 3].

Definition example_A : RouteStoryStop :=
  {| stop_id := 1; stop_sequence := 1; arrival_offset := 0 |}.
Definition example_B : RouteStoryStop :=
  {| stop_id := 2; stop_sequence := 2; arrival_offset := 120 |}.
Definition example_S : RouteStoryStop :=
  {| stop_id := 3; stop_sequence := 3; arrival_offset := 300 |}.
Definition example_C : RouteStoryStop :=
  {| stop_id := 4; stop_sequence := 4; arrival_offset := 420 |}.

Definition example_pattern : RouteStory :=
  {| route_story_id := 7; stops := [example_A; example_B; example_S; example_C] |}.

(** Distances to station 100: only stop 3 is within 300 m of it. *)
Definition example_distance : gmap Z StationAndDistance :=
  {[ 1 := {| station_id := 100; distance := 850 |};
     2 := {| station_id := 100; distance := 500 |};
     3 := {| station_id := 100; distance := 50 |};
     4 := {| station_id := 100; distance := 400 |} ]}.

Definition example_route : Route := {| route_id := 5; line_number := "5" |}.

(** A trip of the pattern whose service runs from [first] to [last]. *)
Definition example_trip (first last : Z) : Trip :=
  {| trip_id := 1; trip_route := example_route;
     service := {| start_date := first; end_date := last |} |}.

Definition example_trips_to_route_stories : gmap Z RouteStory :=
  {[ 1 := example_pattern ]}.

(** The pattern as stage 3 leaves it. *)
Definition example_story : ExtendedRouteStory :=
  {| ers_frequency := HasFrequency_init; route_story := example_pattern;
     station_stops := [example_S];
     stop_and_station := [(example_A, example_S); (example_B, example_S);
                          (example_S, example_S)];
     route := None |}.

(** The pattern as stage 5 leaves it after one trip over a window of six
    weekdays and two weekend days. *)
Definition example_story_counted : ExtendedRouteStory :=
  with_route
    (with_ers_frequency example_story {| weekday_trips := 6; weekend_trips := 2 |})
    example_route.

(** * Properties *)

(** ** The result monad and ordered dictionaries *)
Lemma rbind_Ok {A B} (m : result A) (k : A → result B) b :
  rbind m k = Ok b ↔ ∃ a, m = Ok a ∧ k a = Ok b.
Proof.
  destruct m as [a|e]; simpl; split.
  - intros H. by exists a.
  - by intros (a' & [= <-] & H).
  - done.
  - by intros (a' & [=] & _).
Qed.

Ltac inv_bind H :=
  repeat match type of H with
  | rbind _ _ = Ok _ =>
      let x := fresh "x" in
      let Hx := fresh "Hx" in
      apply rbind_Ok in H as (x & Hx & H)
  | Ok _ = Ok _ => injection H as H
  end.

(** Loop invariants: [P pre s] relates the state to the part of the list
    already visited. *)
Lemma for_each_invariant {A S} (P : list A → S → Prop) (body : S → A → result S) l s0 s :
  P [] s0 →
  (∀ pre a s1 s2, P pre s1 → a ∈ l → body s1 a = Ok s2 → P (pre ++ [a]) s2) →
  for_each body l s0 = Ok s → P l s.
Proof.
  intros H0 Hstep.
  assert (∀ pre l' s1, pre ++ l' = l → P pre s1 → for_each body l' s1 = Ok s → P l s) as Hgen.
  { intros pre l'. revert pre. induction l' as [|a l' IH]; intros pre s1 Hl Hpre Hrun.
    - simpl in Hrun. injection Hrun as <-. rewrite app_nil_r in Hl. by subst.
    - simpl in Hrun. apply rbind_Ok in Hrun as (s2 & Hb & Hrun).
      apply (IH (pre ++ [a]) s2); [by rewrite <- app_assoc| |done].
      apply (Hstep pre a s1 s2); [done| |done].
      subst l. apply elem_of_app. right. by left. }
  by apply (Hgen [] l s0).
Qed.

Lemma foldl_invariant {A S} (P : list A → S → Prop) (f : S → A → S) l s0 :
  P [] s0 →
  (∀ pre a s1, P pre s1 → a ∈ l → P (pre ++ [a]) (f s1 a)) →
  P l (foldl f s0 l).
Proof.
  intros H0 Hstep.
  assert (∀ pre l' s1, pre ++ l' = l → P pre s1 → P l (foldl f s1 l')) as Hgen.
  { intros pre l'. revert pre. induction l' as [|a l' IH]; intros pre s1 Hl Hpre; simpl.
    - rewrite app_nil_r in Hl. by subst.
    - apply (IH (pre ++ [a])); [by rewrite <- app_assoc|].
      apply Hstep; [done|]. subst l. apply elem_of_app. right. by left. }
  by apply (Hgen [] l s0).
Qed.

Lemma for_values_Ok_inv {K V} (body : V → result V) (d d' : odict K V) :
  for_values body d = Ok d' →
  Forall2 (λ kv kv', kv'.1 = kv.1 ∧ body kv.2 = Ok kv'.2) d d'.
Proof.
  revert d'. induction d as [|[k v] d IH]; intros d' H; simpl in H.
  - injection H as <-. constructor.
  - inv_bind H. subst d'. constructor; [done|]. by apply IH.
Qed.

Lemma for_values_Ok {K V} (body : V → result V) (d : odict K V) :
  Forall (λ kv, ∃ v', body kv.2 = Ok v') d → ∃ d', for_values body d = Ok d'.
Proof.
  induction 1 as [|[k v] d [v' Hv] _ [d' IH]]; simpl; [by eexists|].
  simpl in Hv. rewrite Hv, IH. simpl. by eexists.
Qed.

Lemma for_values_keys {K V} (body : V → result V) (d d' : odict K V) :
  for_values body d = Ok d' → Dict.keys d' = Dict.keys d.
Proof.
  intros H%for_values_Ok_inv. unfold Dict.keys.
  induction H as [|[k v] [k' v'] d d' [Hk _] _ IH]; csimpl in *; [done|].
  by rewrite Hk, IH.
Qed.

Section dict_facts.
Context {K V : Type} `{EqDecision K}.
Implicit Types (k : K) (v : V) (d : odict K V).

Lemma get_set_eq k v d : Dict.get k (Dict.set k v d) = Some v.
Proof.
  induction d as [|[k' v'] d IH]; simpl.
  - by rewrite decide_True.
  - destruct (decide (k = k')) as [->|Hne]; simpl.
    + by rewrite decide_True.
    + by rewrite decide_False.
Qed.

Lemma get_set_ne k k' v d : k ≠ k' → Dict.get k' (Dict.set k v d) = Dict.get k' d.
Proof.
  intros Hne. induction d as [|[k0 v0] d IH]; simpl.
  - by rewrite decide_False.
  - destruct (decide (k = k0)) as [->|Hne0]; simpl.
    + by rewrite !decide_False.
    + by rewrite IH.
Qed.

Lemma get_set k k' v d :
  Dict.get k' (Dict.set k v d) = if decide (k = k') then Some v else Dict.get k' d.
Proof.
  destruct (decide (k = k')) as [->|Hne]; [apply get_set_eq|by apply get_set_ne].
Qed.

Lemma get_None k d : Dict.get k d = None ↔ k ∉ Dict.keys d.
Proof.
  unfold Dict.keys. induction d as [|[k' v'] d IH]; simpl.
  - split; [intros _; apply not_elem_of_nil|done].
  - rewrite not_elem_of_cons. destruct (decide (k = k')) as [->|Hne].
    + split; [done|]. by intros [? _].
    + rewrite IH. split; [done|]. by intros [_ ?].
Qed.

Lemma get_Some_elem k v d : Dict.get k d = Some v → (k, v) ∈ d.
Proof.
  induction d as [|[k' v'] d IH]; simpl; [done|].
  destruct (decide (k = k')) as [->|Hne].
  - intros [= ->]. by left.
  - intros H. right. by apply IH.
Qed.

Lemma elem_get k v d : NoDup (Dict.keys d) → (k, v) ∈ d → Dict.get k d = Some v.
Proof.
  unfold Dict.keys. induction d as [|[k' v'] d IH]; simpl; intros Hnd Hin.
  - by apply elem_of_nil in Hin.
  - apply NoDup_cons in Hnd as [Hk' Hnd].
    apply elem_of_cons in Hin as [[= -> ->]|Hin].
    + by case_decide.
    + case_decide as Hk; [|by apply IH].
      subst k'. destruct Hk'. apply list_elem_of_fmap. by exists (k, v).
Qed.

Lemma keys_set_in k v d : k ∈ Dict.keys d → Dict.keys (Dict.set k v d) = Dict.keys d.
Proof.
  unfold Dict.keys. induction d as [|[k' v'] d IH]; csimpl; intros Hin.
  - by apply elem_of_nil in Hin.
  - destruct (decide (k = k')) as [->|Hne]; csimpl; [done|].
    apply elem_of_cons in Hin as [?|Hin]; [done|]. by rewrite IH.
Qed.

Lemma keys_set_notin k v d :
  k ∉ Dict.keys d → Dict.keys (Dict.set k v d) = Dict.keys d ++ [k].
Proof.
  unfold Dict.keys. induction d as [|[k' v'] d IH]; csimpl; intros Hin; [done|].
  apply not_elem_of_cons in Hin as [Hne Hin].
  destruct (decide (k = k')) as [->|_]; csimpl; [done|]. by rewrite IH.
Qed.

Lemma NoDup_keys_set k v d : NoDup (Dict.keys d) → NoDup (Dict.keys (Dict.set k v d)).
Proof.
  intros Hnd. destruct (decide (k ∈ Dict.keys d)) as [Hin|Hnin].
  - by rewrite keys_set_in.
  - rewrite keys_set_notin by done.
    apply NoDup_app. split_and!; [done| |apply NoDup_singleton].
    by intros x Hx ->%list_elem_of_singleton.
Qed.

Lemma elem_of_set k v k' v' d :
  (k', v') ∈ Dict.set k v d → (k', v') ∈ d ∨ (k' = k ∧ v' = v).
Proof.
  induction d as [|[k0 v0] d IH]; simpl.
  - intros [= -> ->]%list_elem_of_singleton. by right.
  - destruct (decide (k = k0)) as [->|Hne].
    + intros [[= -> ->]|Hin]%elem_of_cons; [by right|]. left. by right.
    + intros [[= -> ->]|Hin]%elem_of_cons; [left; by left|].
      destruct (IH Hin) as [?|?]; [left; by right|by right].
Qed.

Lemma Forall_values_set (P : V → Prop) k v d :
  Forall P (Dict.values d) → P v → Forall P (Dict.values (Dict.set k v d)).
Proof.
  unfold Dict.values. intros Hd Hv. induction d as [|[k0 v0] d IH]; simpl.
  - by constructor.
  - apply Forall_cons in Hd as [H0 Hd]. destruct (decide (k = k0)); simpl.
    + by constructor.
    + constructor; [done|by apply IH].
Qed.

Lemma elem_of_values v d : v ∈ Dict.values d ↔ ∃ k, (k, v) ∈ d.
Proof.
  unfold Dict.values. rewrite list_elem_of_fmap. split.
  - intros ([k v'] & -> & Hin). by exists k.
  - intros (k & Hin). by exists (k, v).
Qed.

End dict_facts.

(** ** Stage 1 *)

(** C8: a stop is in the output of stage 1, with the value the distance table
    gives it, exactly when that distance is below the threshold and, unless
    trains are included, the stop is not its own nearest station. *)
Theorem find_station_stops_membership (station_stop_distance : Q) (include_trains : bool)
    (station_distance : gmap Z StationAndDistance) (stop : Z) (v : StationAndDistance) :
  find_station_stops station_stop_distance include_trains station_distance !! stop = Some v
  ↔ station_distance !! stop = Some v
    ∧ (distance v < station_stop_distance)%Q
    ∧ (include_trains = false → stop ≠ station_id v).
Proof.
  unfold find_station_stops. destruct include_trains; simpl.
  - rewrite map_lookup_filter_Some. simpl. split.
    + intros [? ?]. by split_and!.
    + intros (? & ? & _). by split.
  - rewrite !map_lookup_filter_Some. simpl. split.
    + intros [[? ?] ?]. split_and!; [done..|]. by intros _.
    + intros (? & ? & Hne). split_and!; [done..|]. by apply Hne.
Qed.

(** ** Stage 2 *)

Lemma stage2_values (P : ExtendedRouteStory → Prop)
    (stops_near_stations : gmap Z StationAndDistance) (route_stories : list RouteStory) :
  (∀ rs, rs ∈ route_stories → station_stops_of stops_near_stations rs ≠ [] →
         P (ExtendedRouteStory_init rs (station_stops_of stops_near_stations rs))) →
  Forall P (Dict.values (route_story_train_station_stops stops_near_stations route_stories)).
Proof.
  intros HP. unfold route_story_train_station_stops.
  apply (foldl_invariant (λ _ d, Forall P (Dict.values d))); [constructor|].
  intros pre e d Hd He. apply Forall_values_set; [done|].
  apply list_elem_of_fmap in He as ([rs st] & -> & Hin).
  apply list_elem_of_filter in Hin as [Hlen Hin].
  apply list_elem_of_fmap in Hin as (rs' & [= -> ->] & Hin). simpl in *.
  apply HP; [done|]. intros Heq. rewrite Heq in Hlen. simpl in Hlen. lia.
Qed.

Lemma stage2_NoDup (stops_near_stations : gmap Z StationAndDistance)
    (route_stories : list RouteStory) :
  NoDup (Dict.keys (route_story_train_station_stops stops_near_stations route_stories)).
Proof.
  unfold route_story_train_station_stops.
  apply (foldl_invariant (λ _ d, NoDup (Dict.keys d))); [constructor|].
  intros pre e d Hd _. by apply NoDup_keys_set.
Qed.

(** C10: every extended route story stage 2 builds has a station stop, so
    neither scan of stage 3 fails on its first [next]. *)
Theorem stage2_station_stops_nonempty (stops_near_stations : gmap Z StationAndDistance)
    (route_stories : list RouteStory) :
  Forall (λ e, station_stops e ≠ []
               ∧ stops_to_stations_story e ≠ Raise StopIteration
               ∧ stations_to_stop_story e ≠ Raise StopIteration)
    (Dict.values (route_story_train_station_stops stops_near_stations route_stories)).
Proof.
  apply stage2_values. intros rs _ Hne.
  unfold stops_to_stations_story, stations_to_stop_story. simpl.
  split; [done|].
  assert (∀ A B (m : result A) (k : A → B),
            rbind m (λ l, Ok (k l)) = Raise StopIteration → m = Raise StopIteration) as Hb.
  { intros A B [a|e]; simpl; [done|]. by intros k [= ->]. }
  assert (∀ n it l, stops_to_stations_loop n it l ≠ Raise StopIteration) as Hf.
  { intros n it l. revert n it. induction l as [|s l IH]; intros n it; simpl; [done|].
    case_bool_decide; [destruct it as [|n' it']|]; simpl; try done;
      case_bool_decide; try done; intros Hr%Hb; by eapply IH. }
  assert (∀ n it l, stations_to_stop_loop n it l ≠ Raise StopIteration) as Hbk.
  { intros n it l. revert n it. induction l as [|s l IH]; intros n it; simpl; [done|].
    case_bool_decide; [destruct it as [|n' it']|]; simpl; try done;
      case_bool_decide; try done; intros Hr%Hb; by eapply IH. }
  split.
  - destruct (station_stops_of _ rs) as [|n it]; [done|]. intros H%Hb. by eapply Hf.
  - destruct (reverse (station_stops_of _ rs)) as [|n it] eqn:Hrev.
    + apply (f_equal reverse) in Hrev. rewrite reverse_involutive in Hrev. done.
    + intros H%Hb. by eapply Hbk.
Qed.

(** ** Stage 3 *)

(** C1: on the pattern A:0, B:120, S:300, C:420 whose only station stop is S,
    stage 2 followed by the forward scan assigns A, B and S to S, with travel
    times 300, 180 and 0, and leaves C out. *)
Theorem forward_projection_example (stops_near_stations : gmap Z StationAndDistance)
    (id a b s c qa qb qs qc : Z) :
  stops_near_stations !! a = None →
  stops_near_stations !! b = None →
  is_Some (stops_near_stations !! s) →
  stops_near_stations !! c = None →
  qa < qb → qb < qs → qs < qc →
  let A := {| stop_id := a; stop_sequence := qa; arrival_offset := 0 |} in
  let B := {| stop_id := b; stop_sequence := qb; arrival_offset := 120 |} in
  let S := {| stop_id := s; stop_sequence := qs; arrival_offset := 300 |} in
  let C := {| stop_id := c; stop_sequence := qc; arrival_offset := 420 |} in
  let pattern := {| route_story_id := id; stops := [A; B; S; C] |} in
  ∃ e,
    stage3 true (route_story_train_station_stops stops_near_stations [pattern])
    = Ok [(id, e)]
    ∧ stop_and_station e = [(A, S); (B, S); (S, S)]
    ∧ pair_travel_time <$> stop_and_station e = [300; 180; 0]
    ∧ C ∉ (stop_and_station e).*1.
Proof.
  intros Ha Hb [sd Hs] Hc Hab Hbs Hsc A B S C pattern.
  assert (station_stops_of stops_near_stations pattern = [S]) as Hst.
  { unfold station_stops_of, pattern. simpl.
    rewrite !filter_cons, filter_nil. simpl. rewrite Ha, Hb, Hs, Hc. done. }
  unfold route_story_train_station_stops. simpl. rewrite Hst.
  rewrite filter_cons, filter_nil. simpl.
  unfold stage3, route_story_stops_to_stations. simpl.
  unfold stops_to_stations_story. simpl.
  rewrite (bool_decide_eq_false_2 (qa > qs)) by lia.
  rewrite (bool_decide_eq_false_2 (qb > qs)) by lia.
  rewrite (bool_decide_eq_false_2 (qs > qs)) by lia.
  rewrite (bool_decide_eq_true_2 (qc > qs)) by lia.
  simpl. eexists. split; [done|]. simpl. split_and!; [done..|].
  rewrite !not_elem_of_cons. split_and!; try apply not_elem_of_nil; by intros [=].
Qed.

Lemma forward_projection_example_witness :
  let A := {| stop_id := 1; stop_sequence := 1; arrival_offset := 0 |} in
  let B := {| stop_id := 2; stop_sequence := 2; arrival_offset := 120 |} in
  let S := {| stop_id := 3; stop_sequence := 3; arrival_offset := 300 |} in
  let C := {| stop_id := 4; stop_sequence := 4; arrival_offset := 420 |} in
  ∃ e,
    stage3 true
      (route_story_train_station_stops
         {[ 3 := {| station_id := 100; distance := 50%Q |} ]}
         [{| route_story_id := 7; stops := [A; B; S; C] |}])
    = Ok [(7, e)]
    ∧ stop_and_station e = [(A, S); (B, S); (S, S)]
    ∧ pair_travel_time <$> stop_and_station e = [300; 180; 0]
    ∧ C ∉ (stop_and_station e).*1.
Proof.
  apply (forward_projection_example
           {[ 3 := {| station_id := 100; distance := 50%Q |} ]} 7 1 2 3 4 1 2 3 4);
    try reflexivity; try lia.
  by eexists.
Defined.

Lemma stops_to_stations_loop_spec (n : RouteStoryStop) (it l : list RouteStoryStop) :
  let ps := scan_pairs (λ s n, bool_decide (stop_sequence s > stop_sequence n)) n it l in
  (Forall (offsets_ordered true) ps → stops_to_stations_loop n it l = Ok ps)
  ∧ (¬ Forall (offsets_ordered true) ps →
     stops_to_stations_loop n it l = Raise AssertionError).
Proof.
  revert n it. induction l as [|s l IH]; intros n it;
    cbn [stops_to_stations_loop scan_pairs].
  - split; [done|]. intros []. constructor.
  - destruct (bool_decide (stop_sequence s > stop_sequence n)).
    + destruct it as [|n' it]; [split; [done|]; intros []; constructor|].
      destruct (IH n' it) as [IHok IHbad]. split.
      * intros [Hord Hall]%Forall_cons. simpl in Hord.
        rewrite bool_decide_eq_true_2 by done. by rewrite (IHok Hall).
      * intros Hbad. case_bool_decide as Hord; [|done].
        rewrite IHbad; [done|]. intros Hall. apply Hbad. by constructor.
    + destruct (IH n it) as [IHok IHbad]. split.
      * intros [Hord Hall]%Forall_cons. simpl in Hord.
        rewrite bool_decide_eq_true_2 by done. by rewrite (IHok Hall).
      * intros Hbad. case_bool_decide as Hord; [|done].
        rewrite IHbad; [done|]. intros Hall. apply Hbad. by constructor.
Qed.

Lemma stations_to_stop_loop_spec (n : RouteStoryStop) (it l : list RouteStoryStop) :
  let ps := scan_pairs (λ s n, bool_decide (stop_sequence s < stop_sequence n)) n it l in
  (Forall (offsets_ordered false) ps → stations_to_stop_loop n it l = Ok ps)
  ∧ (¬ Forall (offsets_ordered false) ps →
     stations_to_stop_loop n it l = Raise AssertionError).
Proof.
  revert n it. induction l as [|s l IH]; intros n it;
    cbn [stations_to_stop_loop scan_pairs].
  - split; [done|]. intros []. constructor.
  - destruct (bool_decide (stop_sequence s < stop_sequence n)).
    + destruct it as [|n' it]; [split; [done|]; intros []; constructor|].
      destruct (IH n' it) as [IHok IHbad]. split.
      * intros [Hord Hall]%Forall_cons. simpl in Hord.
        rewrite bool_decide_eq_true_2 by done. by rewrite (IHok Hall).
      * intros Hbad. case_bool_decide as Hord; [|done].
        rewrite IHbad; [done|]. intros Hall. apply Hbad. by constructor.
    + destruct (IH n it) as [IHok IHbad]. split.
      * intros [Hord Hall]%Forall_cons. simpl in Hord.
        rewrite bool_decide_eq_true_2 by done. by rewrite (IHok Hall).
      * intros Hbad. case_bool_decide as Hord; [|done].
        rewrite IHbad; [done|]. intros Hall. apply Hbad. by constructor.
Qed.

(** What one iteration of stage 3 does to an extended route story. *)
Lemma stage3_story_spec (to_station : bool) (e : ExtendedRouteStory) :
  let body := if to_station then stops_to_stations_story else stations_to_stop_story in
  station_stops e ≠ [] →
  (Forall (offsets_ordered to_station) (assignments to_station e) →
   body e = Ok (with_stop_and_station e (stop_and_station e ++ assignments to_station e)))
  ∧ (¬ Forall (offsets_ordered to_station) (assignments to_station e) →
     body e = Raise AssertionError).
Proof.
  intros body Hne. destruct to_station; unfold body.
  - unfold stops_to_stations_story, assignments.
    destruct (station_stops e) as [|n it]; [done|].
    destruct (stops_to_stations_loop_spec n it (stops (route_story e))) as [Hok Hbad].
    split; intros H; [by rewrite Hok|by rewrite Hbad].
  - unfold stations_to_stop_story, assignments.
    destruct (reverse (station_stops e)) as [|n it] eqn:Hrev.
    { apply (f_equal reverse) in Hrev. by rewrite reverse_involutive in Hrev. }
    destruct (stations_to_stop_loop_spec n it (reverse (stops (route_story e))))
      as [Hok Hbad].
    split; intros H; [by rewrite Hok|by rewrite Hbad].
Qed.

Lemma stage3_for_values (to_station : bool) (d : odict Z ExtendedRouteStory) :
  stage3 to_station d =
  for_values (if to_station then stops_to_stations_story else stations_to_stop_story) d.
Proof. by destruct to_station. Qed.

(** C3: in either direction stage 3 compares the offsets of every pair it
    forms.  When all pairs are in order the stage appends exactly them; when
    one is not, the stage raises [AssertionError] and nothing is produced. *)
Theorem stage3_offsets_checked (to_station : bool) (d : odict Z ExtendedRouteStory) :
  Forall (λ e, station_stops e ≠ []) (Dict.values d) →
  (Forall (λ e, Forall (offsets_ordered to_station) (assignments to_station e))
     (Dict.values d) →
   stage3 to_station d =
   Ok ((λ kv, (kv.1, with_stop_and_station kv.2
                       (stop_and_station kv.2 ++ assignments to_station kv.2))) <$> d))
  ∧ (Exists (λ e, Exists (λ p, ¬ offsets_ordered to_station p) (assignments to_station e))
       (Dict.values d) →
     stage3 to_station d = Raise AssertionError).
Proof.
  rewrite stage3_for_values. unfold Dict.values.
  induction d as [|[k e] d IH]; csimpl; intros Hne.
  - split; [done|]. by intros ?%Exists_nil.
  - apply Forall_cons in Hne as [Hne1 Hne]. destruct (IH Hne) as [IHok IHbad].
    destruct (stage3_story_spec to_station e Hne1) as [Hok Hbad]. split.
    + intros [He Hd]%Forall_cons. rewrite (Hok He). simpl. by rewrite (IHok Hd).
    + intros Hex.
      destruct (decide (Forall (offsets_ordered to_station) (assignments to_station e)))
        as [He|He]; [|by rewrite (Hbad He)].
      rewrite (Hok He). simpl.
      apply Exists_cons in Hex as [Hex|Hex].
      * apply Exists_exists in Hex as (p & Hp & Hp').
        rewrite Forall_forall in He. by destruct (Hp' (He p Hp)).
      * by rewrite (IHbad Hex).
Qed.

Lemma stage3_offsets_checked_witness :
  let A := {| stop_id := 1; stop_sequence := 1; arrival_offset := 500 |} in
  let S := {| stop_id := 3; stop_sequence := 2; arrival_offset := 300 |} in
  let e := ExtendedRouteStory_init {| route_story_id := 7; stops := [A; S] |} [S] in
  stage3 true [(7, e)] = Raise AssertionError
  ∧ stage3 false [(7, e)]
    = Ok [(7, with_stop_and_station e [(S, S)])].
Proof.
  intros A S e. split.
  - apply (stage3_offsets_checked true [(7, e)]).
    + repeat constructor. done.
    + apply Exists_cons_hd. apply Exists_cons_hd. simpl. lia.
  - apply (stage3_offsets_checked false [(7, e)]).
    + repeat constructor. done.
    + repeat constructor. simpl. lia.
Defined.

(** ** The exporter *)

Lemma string_compare_refl (s : string) : String.compare s s = Eq.
Proof.
  induction s as [|a s IH]; simpl; [done|].
  unfold Ascii.compare. by rewrite N.compare_refl.
Qed.

Lemma string_compare_le_trans (s1 s2 s3 : string) :
  String.compare s1 s2 ≠ Gt → String.compare s2 s3 ≠ Gt → String.compare s1 s3 ≠ Gt.
Proof.
  revert s2 s3. induction s1 as [|a1 s1 IH]; intros [|a2 s2] [|a3 s3]; simpl; try done.
  unfold Ascii.compare.
  destruct (N.compare_spec (Ascii.N_of_ascii a1) (Ascii.N_of_ascii a2)) as [H12|H12|H12];
    destruct (N.compare_spec (Ascii.N_of_ascii a2) (Ascii.N_of_ascii a3)) as [H23|H23|H23];
    try done.
  - rewrite H12, H23, N.compare_refl. apply IH.
  - intros _ _. rewrite H12. by rewrite (proj2 (N.compare_lt_iff _ _) H23).
  - intros _ _. rewrite <- H23. by rewrite (proj2 (N.compare_lt_iff _ _) H12).
  - intros _ _. by rewrite (proj2 (N.compare_lt_iff _ _) (N.lt_trans _ _ _ H12 H23)).
Qed.

Global Instance str_le_transitive : Transitive str_le.
Proof.
  intros s1 s2 s3. unfold str_le, String.leb. intros H12 H23.
  pose proof (string_compare_le_trans s1 s2 s3) as Ht.
  destruct (String.compare s1 s2); try done;
    destruct (String.compare s2 s3); try done;
    destruct (String.compare s1 s3); try done; by destruct Ht.
Qed.

Global Instance str_le_total : Total str_le.
Proof. intros s1 s2. apply String.leb_total. Qed.

Global Instance str_le_antisymm : AntiSymm (=) str_le.
Proof. intros s1 s2. apply String.leb_antisym. Qed.

Lemma sorted_set_spec (xs : list string) :
  StronglySorted str_le (sorted_set xs)
  ∧ NoDup (sorted_set xs)
  ∧ ∀ x, x ∈ sorted_set xs ↔ x ∈ xs.
Proof.
  unfold sorted_set. split_and!.
  - apply StronglySorted_merge_sort; apply _.
  - rewrite merge_sort_Permutation. apply NoDup_elements.
  - intros x. rewrite merge_sort_Permutation, elem_of_elements. apply elem_of_list_to_set.
Qed.

Lemma traverse_Ok_inv {A B} (f : A → result B) (l : list A) (l' : list B) :
  traverse f l = Ok l' → Forall2 (λ a b, f a = Ok b) l l'.
Proof.
  revert l'. induction l as [|a l IH]; intros l' H; simpl in H.
  - injection H as <-. constructor.
  - inv_bind H. subst l'. constructor; [done|]. by apply IH.
Qed.

Lemma Qfloor_div_60 (x : Q) :
  (inject_Z (Qfloor (x / 60)) * 60 <= x)%Q ∧ (x < inject_Z (Qfloor (x / 60) + 1) * 60)%Q.
Proof.
  pose proof (Qfloor_le (x / 60)) as Hlo. pose proof (Qlt_floor (x / 60)) as Hhi.
  assert (x / 60 * 60 == x)%Q as Hx by (field; done).
  split.
  - rewrite <- Hx at 2. apply Qmult_le_compat_r; [done|]. done.
  - rewrite <- Hx at 1. apply Qmult_lt_compat_r; [done|]. done.
Qed.

(** C9: in every exported row, [travel_time] is the aggregate's seconds
    floor-divided by 60; [line_numbers] is the space-joined list of the
    contributing routes' line numbers, sorted and without repetition;
    [route_ids] is the space-joined list of the contributing routes'
    identifiers in the order they were appended, nothing removed. *)
Theorem export_row_format (gtfs_stops : gmap Z Stop)
    (stop_and_stations : odict (Z * Z) StopAndStation) (rows : list Csv.t) :
  export_stop_and_station gtfs_stops stop_and_stations = Ok rows →
  Forall2 row_format (Dict.values stop_and_stations) rows.
Proof.
  intros H%traverse_Ok_inv. eapply Forall2_impl; [exact H|].
  intros sas row Hrow. unfold export_row in Hrow. inv_bind Hrow. subst row.
  unfold row_format. simpl. split_and!.
  - eexists. split_and!; [done..| |]; apply Qfloor_div_60.
  - exists (sorted_set (line_number <$> routes sas)).
    destruct (sorted_set_spec (line_number <$> routes sas)) as (Hs & Hn & Hm).
    split_and!; [done..|]. intros ln. rewrite Hm, list_elem_of_fmap. split.
    + intros (r & -> & Hr). by exists r.
    + intros (r & Hr & <-). by exists r.
  - done.
Qed.

Lemma export_row_format_witness :
  ∃ row,
    Csv.travel_time row = "2" ∧ Csv.line_numbers row = "10 9"
    ∧ Csv.route_ids row = "30 12 31"
    ∧ Forall2 row_format (Dict.values [((1, 100), example_aggregate)]) [row].
Proof.
  eexists. split_and!; [..|
    apply (export_row_format {[ 1 := example_stop; 100 := example_stop ]}
             [((1, 100), example_aggregate)]); vm_compute; reflexivity];
    reflexivity.
Defined.

(** ** The result filter *)

Lemma keep_if_all {A} (p : A → result bool) (l : list A) :
  Forall (λ a, p a = Ok true) l → keep_if p l = Ok l.
Proof.
  induction 1 as [|a l Ha _ IH]; simpl; [done|]. by rewrite Ha, IH.
Qed.

Lemma keep_if_filter {A} (p : A → result bool) (q : A → bool) (l : list A) :
  Forall (λ a, p a = Ok (q a)) l → keep_if p l = Ok (filter (λ a, q a = true) l).
Proof.
  induction 1 as [|a l Ha _ IH]; [done|]. cbn [keep_if]. rewrite Ha, IH. simpl.
  rewrite filter_cons. by destruct (q a).
Qed.

Lemma keep_if_Ok_inv {A} (p : A → result bool) (l l' : list A) :
  keep_if p l = Ok l' → l' `sublist_of` l ∧ Forall (λ a, p a = Ok true) l'.
Proof.
  revert l'. induction l as [|a l IH]; intros l' H; cbn [keep_if] in H.
  - injection H as <-. split; constructor.
  - inv_bind H. destruct (IH _ Hx0) as [Hsub Hall]. subst l'. destruct x.
    + split; [by constructor|by constructor].
    + split; [by constructor|done].
Qed.

(** C7, amended: with the time limit at -1, no stations to include or to
    exclude, nearest-only off and a minimum of 0 weekday trips, the filter
    returns the rows of a table as they are and in their order exactly when
    the [weekday_trips] of every row is an integer that is not negative: the
    test on [weekday_trips] is always run. *)
Theorem filter_identity (int : string → option Z) (records : list Csv.t)
    (stations_to_include stations_to_exclude : option (gset Z)) :
  truthy stations_to_include = false →
  truthy stations_to_exclude = false →
  Forall (λ r, ∃ w, int (Csv.weekday_trips r) = Some w ∧ 0 <= w) records
  ↔ filter_station_access_results int records (-1) stations_to_include stations_to_exclude
      false 0
    = Ok records.
Proof.
  intros Hinc Hexc. unfold filter_station_access_results.
  rewrite Hinc, Hexc. simpl. split.
  - intros Hrows. apply keep_if_all.
    eapply Forall_impl; [exact Hrows|]. intros r (w & Hw & Hpos).
    unfold int_of. rewrite Hw. simpl. by rewrite bool_decide_eq_true_2 by lia.
  - intros [_ Hall]%keep_if_Ok_inv. eapply Forall_impl; [exact Hall|].
    intros r Hr. simpl in Hr. unfold int_of in Hr.
    destruct (int (Csv.weekday_trips r)) as [w|]; [|done]. simpl in Hr.
    injection Hr as Hr. apply bool_decide_eq_true_1 in Hr. exists w. split; [done|lia].
Qed.

Lemma filter_identity_witness :
  let rows := [example_row "1" "100" "10" "7"; example_row "2" "100" "3" "0";
               example_row "1" "101" "5" "12"] in
  filter_station_access_results decimal rows (-1) None None false 0 = Ok rows.
Proof.
  intros rows.
  apply (proj1 (filter_identity decimal rows None None eq_refl eq_refl)).
  repeat constructor; eexists; (split; [vm_compute; reflexivity|lia]).
Defined.

(** C7 as stated fails: with every filter at its neutral setting a row whose
    [weekday_trips] is negative is dropped, and a row whose [weekday_trips] is
    not a number stops the filter with [ValueError]. *)
Lemma filter_identity_needs_weekday_counts :
  let r1 := example_row "1" "100" "10" "7" in
  let r2 := example_row "2" "100" "3" "-1" in
  let r3 := example_row "3" "101" "5" "" in
  filter_station_access_results decimal [r1; r2] (-1) None None false 0 = Ok [r1]
  ∧ filter_station_access_results decimal [r1; r2] (-1) None None false 0 ≠ Ok [r1; r2]
  ∧ filter_station_access_results decimal [r1; r3] (-1) None None false 0
    = Raise ValueError.
Proof.
  intros r1 r2 r3. split_and!.
  - vm_compute. reflexivity.
  - discriminate.
  - vm_compute. reflexivity.
Qed.

Lemma for_each_total_invariant {A S} (P : list A → S → Prop) (body : S → A → result S)
    l s0 :
  P [] s0 →
  (∀ pre a s1, P pre s1 → a ∈ l → ∃ s2, body s1 a = Ok s2 ∧ P (pre ++ [a]) s2) →
  ∃ s, for_each body l s0 = Ok s ∧ P l s.
Proof.
  intros H0 Hstep.
  assert (∀ pre l' s1, pre ++ l' = l → P pre s1 →
                       ∃ s, for_each body l' s1 = Ok s ∧ P l s) as Hgen.
  { intros pre l'. revert pre. induction l' as [|a l' IH]; intros pre s1 Hl Hpre.
    - simpl. exists s1. rewrite app_nil_r in Hl. by subst.
    - destruct (Hstep pre a s1 Hpre) as (s2 & Hb & HP).
      { subst l. apply elem_of_app. right. by left. }
      simpl. rewrite Hb. simpl. apply (IH (pre ++ [a])); [by rewrite <- app_assoc|done]. }
  by apply (Hgen [] l s0).
Qed.

Section nearest_station_facts.
Variable int : string → option Z.

Lemma first_nearest_snoc_other (pre : list Csv.t) (r r0 : Csv.t) :
  Csv.stop_id r ≠ Csv.stop_id r0 → first_nearest int pre r0 →
  first_nearest int (pre ++ [r]) r0.
Proof.
  intros Hne (p1 & p2 & t & -> & Ht & Hp1 & Hp2).
  exists p1, (p2 ++ [r]), t. split_and!; [by rewrite <- app_assoc|done..|].
  intros r' [Hin| ->%list_elem_of_singleton]%elem_of_app Hs; [by apply Hp2|done].
Qed.

Lemma first_nearest_snoc_keep (pre : list Csv.t) (r r0 : Csv.t) (t t0 : Z) :
  int (Csv.travel_time r) = Some t → int (Csv.travel_time r0) = Some t0 → t0 <= t →
  first_nearest int pre r0 → first_nearest int (pre ++ [r]) r0.
Proof.
  intros Ht Ht0 Hle (p1 & p2 & t0' & -> & Ht0' & Hp1 & Hp2).
  assert (t0' = t0) as -> by congruence.
  exists p1, (p2 ++ [r]), t0. split_and!; [by rewrite <- app_assoc|done..|].
  intros r' [Hin| ->%list_elem_of_singleton]%elem_of_app Hs; [by apply Hp2|].
  by exists t.
Qed.

Lemma first_nearest_snoc_replace (pre : list Csv.t) (r r0 : Csv.t) (t t0 : Z) :
  int (Csv.travel_time r) = Some t → int (Csv.travel_time r0) = Some t0 → t < t0 →
  Csv.stop_id r0 = Csv.stop_id r →
  first_nearest int pre r0 → first_nearest int (pre ++ [r]) r.
Proof.
  intros Ht Ht0 Hlt Hs (p1 & p2 & t0' & -> & Ht0' & Hp1 & Hp2).
  assert (t0' = t0) as -> by congruence.
  exists (p1 ++ r0 :: p2), [], t. split_and!; [done..| |].
  - intros r' [Hin|[->|Hin]%elem_of_cons]%elem_of_app Hs'.
    + destruct (Hp1 r' Hin) as (t' & Ht' & Hlt'); [congruence|]. exists t'. split; [done|lia].
    + exists t0. by split.
    + destruct (Hp2 r' Hin) as (t' & Ht' & Hlt'); [congruence|]. exists t'. split; [done|lia].
  - by intros r' ?%elem_of_nil.
Qed.

Lemma first_nearest_snoc_new (pre : list Csv.t) (r : Csv.t) (t : Z) :
  int (Csv.travel_time r) = Some t →
  Csv.stop_id r ∉ Csv.stop_id <$> pre →
  first_nearest int (pre ++ [r]) r.
Proof.
  intros Ht Hnew. exists pre, [], t. split_and!; [done..| |].
  - intros r' Hin Hs. destruct Hnew. apply list_elem_of_fmap. by exists r'.
  - by intros r' ?%elem_of_nil.
Qed.

Lemma nearest_station_loop_spec (records : list Csv.t) :
  Forall (λ r, is_Some (int (Csv.travel_time r))) records →
  ∃ d, nearest_station_loop int records = Ok d ∧ nearest_invariant int records d.
Proof.
  intros Hparse. unfold nearest_station_loop.
  apply (for_each_total_invariant (nearest_invariant int)).
  { split_and!; [constructor|done|done]. }
  intros pre r d (Hnd & Hkeys & Hget) Hr.
  rewrite Forall_forall in Hparse. destruct (Hparse r Hr) as [t Ht].
  destruct (Dict.get (Csv.stop_id r) d) as [r0|] eqn:Hd; simpl.
  - destruct (Hget _ _ Hd) as [Hs0 Hfirst0].
    assert (∃ t0, int (Csv.travel_time r0) = Some t0) as [t0 Ht0].
    { destruct Hfirst0 as (_ & _ & t0 & _ & Ht0 & _). by exists t0. }
    unfold int_of. rewrite Ht, Ht0. simpl. eexists. split; [done|].
    assert (Csv.stop_id r ∈ Dict.keys d) as Hin.
    { destruct (decide (Csv.stop_id r ∈ Dict.keys d)) as [|Hn]; [done|].
      apply get_None in Hn. congruence. }
    case_bool_decide as Hlt.
    + split_and!.
      * by apply NoDup_keys_set.
      * intros s. rewrite keys_set_in by done. rewrite Hkeys, fmap_app, elem_of_app.
        split; [by left|]. intros [?| ->%list_elem_of_singleton]; [done|].
        by apply Hkeys.
      * intros s r1. rewrite get_set. case_decide as Hs.
        -- intros [= <-]. split; [done|]. by eapply first_nearest_snoc_replace.
        -- intros Hd1. destruct (Hget _ _ Hd1) as [Hs1 Hf1]. split; [done|].
           apply first_nearest_snoc_other; [congruence|done].
    + split_and!; [done| |].
      * intros s. rewrite Hkeys, fmap_app, elem_of_app.
        split; [by left|]. intros [?| ->%list_elem_of_singleton]; [done|].
        by apply Hkeys.
      * intros s r1 Hd1. destruct (Hget _ _ Hd1) as [Hs1 Hf1]. split; [done|].
        destruct (decide (s = Csv.stop_id r)) as [->|Hs].
        -- assert (r1 = r0) as -> by congruence.
           eapply first_nearest_snoc_keep; [done..|lia|done].
        -- apply first_nearest_snoc_other; [congruence|done].
  - eexists. split; [done|].
    assert (Csv.stop_id r ∉ Dict.keys d) as Hnin by by apply get_None.
    split_and!.
    + by apply NoDup_keys_set.
    + intros s. rewrite keys_set_notin by done.
      rewrite fmap_app, !elem_of_app, Hkeys. done.
    + intros s r1. rewrite get_set. case_decide as Hs.
      * intros [= <-]. split; [done|]. eapply first_nearest_snoc_new; [done|].
        by rewrite <- Hkeys.
      * intros Hd1. destruct (Hget _ _ Hd1) as [Hs1 Hf1]. split; [done|].
        apply first_nearest_snoc_other; [congruence|done].
Qed.

End nearest_station_facts.

(** C6, amended: when every travel time reads as an integer, nearest-only
    selection keeps, for every stop of the input rows, exactly one row: the
    first row, in the order of the input, to have the least travel time
    among the rows of that stop. *)
Theorem nearest_station_keeps_first_minimum (int : string → option Z)
    (records : list Csv.t) :
  Forall (λ r, is_Some (int (Csv.travel_time r))) records →
  ∃ out,
    nearest_station int records = Ok out
    ∧ NoDup (Csv.stop_id <$> out)
    ∧ (∀ s, s ∈ Csv.stop_id <$> out ↔ s ∈ Csv.stop_id <$> records)
    ∧ Forall (first_nearest int records) out.
Proof.
  intros Hparse.
  destruct (nearest_station_loop_spec int records Hparse) as (d & Hd & Hnd & Hkeys & Hget).
  exists (Dict.values d). unfold nearest_station. rewrite Hd. simpl.
  assert (∀ k r, (k, r) ∈ d → Csv.stop_id r = k ∧ first_nearest int records r) as Hin.
  { intros k r Hkr. apply Hget. by apply elem_get. }
  assert (Csv.stop_id <$> Dict.values d = Dict.keys d) as Hids.
  { unfold Dict.values, Dict.keys. rewrite <- list_fmap_compose.
    apply Forall_fmap_ext_1, Forall_forall. intros [k r] Hkr. simpl. by apply Hin. }
  rewrite Hids. split_and!; [done..|].
  apply Forall_forall. intros r (k & Hkr)%elem_of_values. exact (proj2 (Hin k r Hkr)).
Qed.

Lemma nearest_station_keeps_first_minimum_witness :
  let r1 := example_row "1" "100" "5" "7" in
  let r2 := example_row "2" "100" "3" "0" in
  let r3 := example_row "1" "101" "5" "12" in
  let r4 := example_row "1" "102" "4" "1" in
  let r5 := example_row "1" "103" "4" "1" in
  nearest_station decimal [r1; r2; r3; r4; r5] = Ok [r4; r2]
  ∧ ∃ out,
      nearest_station decimal [r1; r2; r3; r4; r5] = Ok out
      ∧ NoDup (Csv.stop_id <$> out)
      ∧ (∀ s, s ∈ Csv.stop_id <$> out ↔ s ∈ Csv.stop_id <$> [r1; r2; r3; r4; r5])
      ∧ Forall (first_nearest decimal [r1; r2; r3; r4; r5]) out.
Proof.
  intros r1 r2 r3 r4 r5. split; [vm_compute; reflexivity|].
  apply (nearest_station_keeps_first_minimum decimal [r1; r2; r3; r4; r5]).
  repeat constructor; vm_compute; eauto.
Defined.

(** C6 as stated fails: of two rows of one stop with the same travel time
    the first is kept, not the last. *)
Lemma nearest_station_tie_keeps_first :
  let r1 := example_row "1" "100" "5" "7" in
  let r2 := example_row "1" "101" "5" "7" in
  nearest_station decimal [r1; r2] = Ok [r1]
  ∧ ¬ Forall (last_nearest decimal [r1; r2]) [r1]
  ∧ last_nearest decimal [r1; r2] r2.
Proof.
  intros r1 r2. split_and!.
  - vm_compute. reflexivity.
  - intros [Hlast _]%Forall_cons.
    destruct Hlast as (pre & post & t & Heq & Ht & _ & Hpost).
    destruct pre as [|r pre].
    + injection Heq as <-.
      destruct (Hpost r2) as (t' & Ht' & Hlt); [by left|done|].
      vm_compute in Ht, Ht'. injection Ht as <-. injection Ht' as <-. lia.
    + injection Heq as _ Heq. destruct pre as [|r' pre]; [done|].
      injection Heq as _ Heq. by destruct pre.
  - exists [r1], [], 5. split_and!; [done|vm_compute; reflexivity| |].
    + intros r' ->%list_elem_of_singleton _. exists 5. split; [vm_compute; reflexivity|lia].
    + by intros r' ?%elem_of_nil.
Qed.

(** ** Stage 4 *)

Lemma date_range_loop_seqZ (fuel : nat) (d end_date : Z) :
  Z.of_nat fuel <= end_date - d + 1 →
  date_range_loop fuel d end_date = seqZ d (Z.of_nat fuel).
Proof.
  revert d. induction fuel as [|fuel IH]; intros d Hle; [done|].
  cbn [date_range_loop]. rewrite bool_decide_eq_true_2 by lia.
  rewrite IH by lia. rewrite (seqZ_cons d) by lia. do 2 f_equal; lia.
Qed.

(** The generator yields the days from [start_date] to [end_date], both
    included, and stops there whatever fuel is left. *)
Lemma date_range_seqZ (start_date end_date : Z) :
  date_range start_date end_date = seqZ start_date (end_date - start_date + 1).
Proof.
  unfold date_range. destruct (decide (0 <= end_date - start_date + 1)) as [Hle|Hgt].
  - rewrite date_range_loop_seqZ by lia. f_equal. lia.
  - replace (Z.to_nat (end_date - start_date + 1)) with 0%nat by lia.
    by rewrite seqZ_nil by lia.
Qed.

Lemma date_range_loop_more_fuel (fuel : nat) (d end_date : Z) :
  (Z.to_nat (end_date - d + 1) <= fuel)%nat →
  date_range_loop fuel d end_date = date_range d end_date.
Proof.
  unfold date_range. revert d. induction fuel as [|fuel IH]; intros d Hle.
  - by replace (Z.to_nat (end_date - d + 1)) with 0%nat by lia.
  - cbn [date_range_loop]. case_bool_decide as Hd.
    + replace (Z.to_nat (end_date - d + 1)) with (S (Z.to_nat (end_date - (d + 1) + 1)))
        by lia.
      cbn [date_range_loop]. rewrite bool_decide_eq_true_2 by done.
      f_equal. apply IH. lia.
    + by replace (Z.to_nat (end_date - d + 1)) with 0%nat by lia.
Qed.

Lemma elem_of_date_range (start_date end_date d : Z) :
  d ∈ date_range start_date end_date ↔ start_date <= d <= end_date.
Proof. rewrite date_range_seqZ, elem_of_seqZ. lia. Qed.

Lemma length_date_range (start_date end_date : Z) :
  length (date_range start_date end_date) = Z.to_nat (end_date - start_date + 1).
Proof. by rewrite date_range_seqZ, length_seqZ. Qed.

Section frequency_facts.
Variable weekdays : list Z.
Variables start_date_ end_date_ : Z.
Variable trips_to_route_stories : gmap Z RouteStory.

Lemma count_days_spec (f : HasFrequency) (days : list Z) :
  let f' := foldl (count_day weekdays) f days in
  weekday_trips f <= weekday_trips f' ∧ weekend_trips f <= weekend_trips f'
  ∧ total_trips f' = total_trips f + Z.of_nat (length days).
Proof.
  revert f. induction days as [|d days IH]; intros f; simpl.
  - unfold total_trips. lia.
  - destruct (IH (count_day weekdays f d)) as (H1 & H2 & H3).
    revert H1 H2 H3. unfold count_day, total_trips. case_bool_decide; simpl; lia.
Qed.

End frequency_facts.

Lemma with_ers_frequency_id (e : ExtendedRouteStory) :
  with_ers_frequency e (ers_frequency e) = e.
Proof. by destruct e. Qed.

Lemma filter_snoc_True {A} (P : A → Prop) `{∀ x, Decision (P x)} (l : list A) (a : A) :
  P a → filter P (l ++ [a]) = filter P l ++ [a].
Proof. intros Ha. rewrite filter_app, filter_cons_True by done. by rewrite filter_nil. Qed.

Lemma filter_snoc_False {A} (P : A → Prop) `{∀ x, Decision (P x)} (l : list A) (a : A) :
  ¬ P a → filter P (l ++ [a]) = filter P l.
Proof.
  intros Ha. rewrite filter_app, filter_cons_False by done.
  by rewrite filter_nil, app_nil_r.
Qed.

Section stage45_facts.
Variable weekdays : list Z.
Variables start_date_ end_date_ : Z.
Variable trips : list Trip.
Variable trips_to_route_stories : gmap Z RouteStory.

Local Abbreviation days := (counted_days start_date_ end_date_ trips_to_route_stories).

(** Stage 4 leaves the keys as they are and adds to the counters of route
    story [k] the days of the window, once for each selected trip of [k]. *)
Lemma route_story_frequency_spec (d d' : odict Z ExtendedRouteStory) :
  route_story_frequency weekdays start_date_ end_date_ trips trips_to_route_stories d
  = Ok d' →
  Dict.keys d' = Dict.keys d
  ∧ ∀ k, Dict.get k d' =
         (λ e, with_ers_frequency e
                 (foldl (count_day weekdays) (ers_frequency e)
                    (days k (filter (λ trip, trip_selected start_date_ end_date_ trip = true)
                               trips))))
         <$> Dict.get k d.
Proof.
  unfold route_story_frequency.
  apply (for_each_invariant (λ pre d',
    Dict.keys d' = Dict.keys d
    ∧ ∀ k, Dict.get k d' =
           (λ e, with_ers_frequency e
                   (foldl (count_day weekdays) (ers_frequency e) (days k pre)))
           <$> Dict.get k d)).
  { split; [done|]. intros k. destruct (Dict.get k d) as [e|]; [|done].
    simpl. by rewrite with_ers_frequency_id. }
  intros pre trip d1 d2 [Hkeys Hget] _ Hbody.
  inv_bind Hbody. rename x into entry.
  assert (trips_to_route_stories !! trip_id trip = Some entry) as Hentry.
  { destruct (trips_to_route_stories !! trip_id trip); simpl in Hx; congruence. }
  clear Hx.
  assert (∀ k, k ≠ route_story_id entry → days k (pre ++ [trip]) = days k pre) as Hother.
  { intros k Hk. unfold days, counted_days. rewrite filter_snoc_False; [done|].
    unfold mapped_to. rewrite Hentry. simpl. congruence. }
  assert (days (route_story_id entry) (pre ++ [trip])
          = days (route_story_id entry) pre ++ date_range start_date_ end_date_) as Hsame.
  { unfold days, counted_days. rewrite filter_snoc_True.
    - rewrite bind_app. simpl. by rewrite app_nil_r.
    - unfold mapped_to. by rewrite Hentry. }
  destruct (Dict.get (route_story_id entry) d1) as [e1|] eqn:Hd1.
  - injection Hbody as <-. split.
    + rewrite keys_set_in; [done|].
      destruct (decide (route_story_id entry ∈ Dict.keys d1)) as [|Hn]; [done|].
      apply get_None in Hn. congruence.
    + intros k. rewrite get_set. case_decide as Hk.
      * subst k. rewrite Hget in Hd1. rewrite Hsame.
        destruct (Dict.get (route_story_id entry) d) as [e|]; [|done].
        simpl in *. injection Hd1 as <-. simpl. by rewrite foldl_app.
      * rewrite Hget. by rewrite Hother.
  - injection Hbody as <-. split; [done|]. intros k. rewrite Hget.
    destruct (decide (k = route_story_id entry)) as [->|Hk]; [|by rewrite Hother].
    rewrite Hget in Hd1. by destruct (Dict.get (route_story_id entry) d).
Qed.

(** Stage 5 leaves keys and counters as they are; a route story has a route
    afterwards only if it had one or a trip belongs to it. *)
Lemma route_story_to_route_spec (d d' : odict Z ExtendedRouteStory) :
  route_story_to_route trips trips_to_route_stories d = Ok d' →
  Dict.keys d' = Dict.keys d
  ∧ ∀ k, Dict.get k d' =
         (λ e, match last (filter (mapped_to trips_to_route_stories k) trips) with
               | Some trip => with_route e (trip_route trip)
               | None => e
               end)
         <$> Dict.get k d.
Proof.
  unfold route_story_to_route.
  apply (for_each_invariant (λ pre d',
    Dict.keys d' = Dict.keys d
    ∧ ∀ k, Dict.get k d' =
           (λ e, match last (filter (mapped_to trips_to_route_stories k) pre) with
                 | Some trip => with_route e (trip_route trip)
                 | None => e
                 end)
           <$> Dict.get k d)).
  { split; [done|]. intros k. by destruct (Dict.get k d). }
  intros pre trip d1 d2 [Hkeys Hget] _ Hbody.
  inv_bind Hbody. rename x into entry.
  assert (trips_to_route_stories !! trip_id trip = Some entry) as Hentry.
  { destruct (trips_to_route_stories !! trip_id trip); simpl in Hx; congruence. }
  clear Hx.
  assert (∀ k, k ≠ route_story_id entry →
               filter (mapped_to trips_to_route_stories k) (pre ++ [trip])
               = filter (mapped_to trips_to_route_stories k) pre) as Hother.
  { intros k Hk. rewrite filter_snoc_False; [done|].
    unfold mapped_to. rewrite Hentry. simpl. congruence. }
  assert (filter (mapped_to trips_to_route_stories (route_story_id entry)) (pre ++ [trip])
          = filter (mapped_to trips_to_route_stories (route_story_id entry)) pre ++ [trip])
    as Hsame.
  { rewrite filter_snoc_True; [done|]. unfold mapped_to. by rewrite Hentry. }
  destruct (Dict.get (route_story_id entry) d1) as [e1|] eqn:Hd1.
  - injection Hbody as <-. split.
    + rewrite keys_set_in; [done|].
      destruct (decide (route_story_id entry ∈ Dict.keys d1)) as [|Hn]; [done|].
      apply get_None in Hn. congruence.
    + intros k. rewrite get_set. case_decide as Hk.
      * subst k. rewrite Hget in Hd1. rewrite Hsame, last_snoc.
        destruct (Dict.get (route_story_id entry) d) as [e|]; [|done].
        simpl in *. injection Hd1 as <-. by destruct (last _).
      * rewrite Hget. by rewrite Hother.
  - injection Hbody as <-. split; [done|]. intros k. rewrite Hget.
    destruct (decide (k = route_story_id entry)) as [->|Hk]; [|by rewrite Hother].
    rewrite Hget in Hd1. by destruct (Dict.get (route_story_id entry) d).
Qed.

End stage45_facts.

(** ** Stages 6 and 7 *)

Lemma Zsum_app (l1 l2 : list Z) : Zsum (l1 ++ l2) = Zsum l1 + Zsum l2.
Proof. unfold Zsum. induction l1 as [|x l1 IH]; simpl; [done|]. rewrite IH. lia. Qed.

Lemma Zsum_nonneg (l : list Z) : Forall (λ x, 0 <= x) l → 0 <= Zsum l.
Proof. unfold Zsum. induction 1; simpl; lia. Qed.

Section stage6_facts.
Variable stops_near_stations : gmap Z StationAndDistance.

Lemma add_to_NoDup (key : Z * Z) (x : Q) (m : odict (Z * Z) Q) :
  NoDup (Dict.keys m) → NoDup (Dict.keys (add_to key x m)).
Proof. apply NoDup_keys_set. Qed.

(** The state of the first loop of stage 6 after the route stories [pre]. *)
Lemma route_stops_and_stations_sum_spec (d : odict Z ExtendedRouteStory)
    (extended_routes : odict Z ExtendedRoute) :
  route_stops_and_stations_sum stops_near_stations d = Ok extended_routes →
  stage6_invariant (Dict.values d) extended_routes.
Proof.
  unfold route_stops_and_stations_sum.
  apply (for_each_invariant stage6_invariant).
  { split_and!; [constructor|constructor|]. intros rid. done. }
  intros pre e routes routes' (Hnd & Hroute & Hget) _ Hbody.
  inv_bind Hbody. rename x into r.
  assert (route e = Some r) as Hr by (destruct (route e); simpl in Hx; congruence).
  clear Hx.
  destruct (Dict.setdefault (route_id r) (ExtendedRoute_init r) routes)
    as [er0 routes0] eqn:Hsd.
  inv_bind Hbody. rename x into er2.
  apply (for_each_invariant (λ _ er',
           er_frequency er' = add_trip_counts (er_frequency er0) (ers_frequency e)
           ∧ (NoDup (Dict.keys (stops_to_station_to_travel_time er0)) →
              NoDup (Dict.keys (stops_to_station_to_travel_time er'))))) in Hx.
  2: { done. }
  2: { intros _ p er1 er1' [Hf Hn] _ Hb. inv_bind Hb. subst er1'. simpl.
       split; [done|]. intros H0. by apply add_to_NoDup, Hn. }
  destruct Hx as [Hfreq Hmap]. subst routes'.
  assert (∀ rid, rid ≠ route_id r → members rid (pre ++ [e]) = members rid pre) as Hother.
  { intros rid Hrid. unfold members. rewrite filter_snoc_False; [done|].
    rewrite Hr. simpl. congruence. }
  assert (members (route_id r) (pre ++ [e]) = members (route_id r) pre ++ [e]) as Hsame.
  { unfold members. rewrite filter_snoc_True; [done|]. by rewrite Hr. }
  unfold Dict.setdefault in Hsd. pose proof (Hget (route_id r)) as Hgr.
  split_and!.
  - apply NoDup_keys_set. destruct (Dict.get (route_id r) routes); injection Hsd as <- <-;
      [done|by apply NoDup_keys_set].
  - rewrite Forall_app. split; [done|]. constructor; [|constructor]. by rewrite Hr.
  - intros rid. rewrite get_set. case_decide as Hrid.
    + subst rid. rewrite Hsame, !fmap_app, !Zsum_app. simpl. rewrite Hfreq. simpl.
      destruct (Dict.get (route_id r) routes) as [er|]; injection Hsd as <- <-.
      * destruct Hgr as (_ & Hwd & Hwe & Hn). split_and!; [|lia|lia|by apply Hmap].
        by intros ?%app_nil_r_inv.
      * rewrite Hgr. simpl. split_and!; [done|lia|lia|]. apply Hmap. constructor.
    + rewrite Hother by done.
      destruct (Dict.get (route_id r) routes) as [er|]; injection Hsd as <- <-.
      * apply Hget.
      * rewrite get_set_ne by done. apply Hget.
Qed.

End stage6_facts.

Lemma foldl_invariant_split {A S} (P : list A → S → Prop) (f : S → A → S) l s0 :
  P [] s0 →
  (∀ pre a post s1, l = pre ++ a :: post → P pre s1 → P (pre ++ [a]) (f s1 a)) →
  P l (foldl f s0 l).
Proof.
  intros H0 Hstep.
  assert (∀ pre l' s1, pre ++ l' = l → P pre s1 → P l (foldl f s1 l')) as Hgen.
  { intros pre l'. revert pre. induction l' as [|a l' IH]; intros pre s1 Hl Hpre; simpl.
    - rewrite app_nil_r in Hl. by subst.
    - apply (IH (pre ++ [a])); [by rewrite <- app_assoc|]. by eapply Hstep. }
  by apply (Hgen [] l s0).
Qed.

(** The first loop of stage 7 over extended routes whose travel-time
    dictionaries have no key twice. *)
Lemma aggregate_by_stop_sum_spec (extended_routes : odict Z ExtendedRoute) :
  Forall (λ er, NoDup (Dict.keys (stops_to_station_to_travel_time er)))
    (Dict.values extended_routes) →
  stage7_invariant (Dict.values extended_routes) (aggregate_by_stop_sum extended_routes).
Proof.
  intros Hmaps. unfold aggregate_by_stop_sum.
  apply (foldl_invariant (λ pre sass, stage7_invariant pre sass)).
  { split; [constructor|done]. }
  intros pre er sass [Hnd Hget] Her.
  rewrite Forall_forall in Hmaps. specialize (Hmaps er Her).
  set (m := stops_to_station_to_travel_time er) in *.
  assert (∀ key, contributing key (pre ++ [er])
                 = contributing key pre ++ (if decide (key ∈ Dict.keys m) then [er] else []))
    as Hcontr.
  { intros key. unfold contributing. case_decide.
    - by rewrite filter_snoc_True.
    - rewrite filter_snoc_False by done. by rewrite app_nil_r. }
  match goal with |- stage7_invariant _ (foldl ?f sass m) => set (step := f) end.
  cut (NoDup (Dict.keys (foldl step sass m)) ∧
       ∀ key, match Dict.get key (foldl step sass m) with
              | Some s => aggregate_of key
                            (contributing key pre
                             ++ (if decide (key ∈ Dict.keys m) then [er] else [])) s
              | None => contributing key pre = [] ∧ key ∉ Dict.keys m
              end).
  { intros [Hnd' Hget']. split; [done|]. intros key. specialize (Hget' key).
    rewrite Hcontr. destruct (Dict.get key _); [done|].
    destruct Hget' as [-> Hkey]. by rewrite decide_False. }
  apply (foldl_invariant_split (λ ipre sass',
    NoDup (Dict.keys sass') ∧
    ∀ key, match Dict.get key sass' with
           | Some s => aggregate_of key
                         (contributing key pre
                          ++ (if decide (key ∈ Dict.keys ipre) then [er] else [])) s
           | None => contributing key pre = [] ∧ key ∉ Dict.keys ipre
           end) step m sass).
  { split; [done|]. intros key. specialize (Hget key).
    destruct (Dict.get key sass).
    - rewrite decide_False by apply not_elem_of_nil. by rewrite app_nil_r.
    - split; [done|apply not_elem_of_nil]. }
  intros ipre [[stop station] t] ipost sass1 Hm [Hnd1 Hget1]. unfold step.
  assert ((stop, station) ∉ Dict.keys ipre) as Hfresh.
  { unfold Dict.keys in Hmaps. rewrite Hm, fmap_app in Hmaps.
    apply NoDup_app in Hmaps as (_ & Hdisj & _). intros Hin.
    apply (Hdisj _ Hin). csimpl. by left. }
  assert (∀ key, key ∈ Dict.keys (ipre ++ [(stop, station, t)])
                 ↔ key ∈ Dict.keys ipre ∨ key = (stop, station)) as Hkeys.
  { intros key. unfold Dict.keys. rewrite fmap_app, elem_of_app. csimpl.
    by rewrite list_elem_of_singleton. }
  unfold Dict.setdefault. pose proof (Hget1 (stop, station)) as Hcur.
  destruct (Dict.get (stop, station) sass1) as [s0|] eqn:Hs0.
  - split; [by apply NoDup_keys_set|]. intros key.
    destruct (decide ((stop, station) = key)) as [<-|Hkey];
      [rewrite get_set_eq|rewrite get_set_ne by done].
    + rewrite decide_True by (apply Hkeys; by right).
      rewrite decide_False in Hcur by done. rewrite app_nil_r in Hcur.
      destruct Hcur as (Hne & Hwd & Hwe & Hr & Hi1 & Hi2).
      unfold aggregate_of. rewrite !fmap_app, !Zsum_app. simpl.
      split_and!; [by intros ?%app_nil_r_inv|lia|lia|by rewrite Hr|done..].
    + specialize (Hget1 key). destruct (Dict.get key sass1) as [s1|].
      * destruct (decide (key ∈ Dict.keys ipre)) as [Hin|Hnin].
        -- rewrite decide_True by (apply Hkeys; by left). done.
        -- rewrite decide_False; [done|]. rewrite Hkeys. by intros [?|?].
      * destruct Hget1 as [? ?]. split; [done|]. rewrite Hkeys. by intros [?|?].
  - destruct Hcur as [Hnil _].
    split; [by do 2 apply NoDup_keys_set|]. intros key.
    destruct (decide ((stop, station) = key)) as [<-|Hkey];
      [rewrite get_set_eq|rewrite get_set_ne by done].
    + rewrite decide_True by (apply Hkeys; by right). rewrite Hnil.
      unfold aggregate_of. simpl. split_and!; [done|lia|lia|done..].
    + rewrite get_set_ne by done.
      specialize (Hget1 key). destruct (Dict.get key sass1) as [s1|].
      * destruct (decide (key ∈ Dict.keys ipre)) as [Hin|Hnin].
        -- rewrite decide_True by (apply Hkeys; by left). done.
        -- rewrite decide_False; [done|]. rewrite Hkeys. by intros [?|?].
      * destruct Hget1 as [? ?]. split; [done|]. rewrite Hkeys. by intros [?|?].
Qed.

Lemma Forall2_elem_of_r {A B} (R : A → B → Prop) (l : list A) (l' : list B) (y : B) :
  Forall2 R l l' → y ∈ l' → ∃ x, x ∈ l ∧ R x y.
Proof.
  induction 1 as [|x y' l l' Hxy _ IH]; intros Hy; [by apply elem_of_nil in Hy|].
  apply elem_of_cons in Hy as [->|Hy].
  - exists x. split; [by left|done].
  - destruct (IH Hy) as (x' & Hx' & HR). exists x'. split; [by right|done].
Qed.

Lemma Forall2_elem_of_l {A B} (R : A → B → Prop) (l : list A) (l' : list B) (x : A) :
  Forall2 R l l' → x ∈ l → ∃ y, y ∈ l' ∧ R x y.
Proof.
  induction 1 as [|x' y l l' Hxy _ IH]; intros Hx; [by apply elem_of_nil in Hx|].
  apply elem_of_cons in Hx as [->|Hx].
  - exists y. split; [by left|done].
  - destruct (IH Hx) as (y' & Hy' & HR). exists y'. split; [by right|done].
Qed.

(** A loop over the values of a dictionary relates the entries one to one. *)
Lemma for_values_entries {K V} (body : V → result V) (d d' : odict K V) :
  for_values body d = Ok d' →
  Dict.keys d' = Dict.keys d
  ∧ (∀ k v', (k, v') ∈ d' → ∃ v, (k, v) ∈ d ∧ body v = Ok v')
  ∧ (∀ k v, (k, v) ∈ d → ∃ v', (k, v') ∈ d' ∧ body v = Ok v').
Proof.
  intros H. split; [by eapply for_values_keys|]. apply for_values_Ok_inv in H. split.
  - intros k v' Hin. destruct (Forall2_elem_of_r _ _ _ _ H Hin) as ([k0 v] & Hv & Hk & Hb).
    simpl in *. subst k0. by exists v.
  - intros k v Hin. destruct (Forall2_elem_of_l _ _ _ _ H Hin) as ([k0 v'] & Hv & Hk & Hb).
    simpl in *. subst k0. by exists v'.
Qed.

(** The second loop of stage 6 changes travel times only. *)
Lemma divide_route_spec (route route' : ExtendedRoute) :
  (let! m := for_values (λ x, divide x (total_trips (er_frequency route)))
               (stops_to_station_to_travel_time route) in
   Ok (with_travel_times route m)) = Ok route' →
  er_frequency route' = er_frequency route
  ∧ er_route route' = er_route route
  ∧ Dict.keys (stops_to_station_to_travel_time route')
    = Dict.keys (stops_to_station_to_travel_time route).
Proof.
  intros H. inv_bind H. subst route'. simpl. split_and!; [done..|].
  by eapply for_values_keys.
Qed.

(** C5: after stage 6 there is exactly one extended route for every route
    identifier that some route story is linked to, and its weekday and
    weekend counters are the sums of those of the route stories linked to its
    route; after stage 7, before and after its division, there is exactly one
    aggregate for every (stop, station) pair that some extended route holds,
    and its counters are the sums of those of the extended routes whose
    dictionary holds the pair. *)
Theorem weight_conservation (stops_near_stations : gmap Z StationAndDistance)
    (extended_route_stories : odict Z ExtendedRouteStory)
    (extended_routes : odict Z ExtendedRoute) :
  route_stops_and_stations stops_near_stations extended_route_stories
  = Ok extended_routes →
  (NoDup (Dict.keys extended_routes)
   ∧ (∀ rid, members rid (Dict.values extended_route_stories) ≠ [] →
             ∃ er, (rid, er) ∈ extended_routes)
   ∧ ∀ rid er, (rid, er) ∈ extended_routes →
       let children := members rid (Dict.values extended_route_stories) in
       children ≠ []
       ∧ weekday_trips (er_frequency er)
         = Zsum ((λ e, weekday_trips (ers_frequency e)) <$> children)
       ∧ weekend_trips (er_frequency er)
         = Zsum ((λ e, weekend_trips (ers_frequency e)) <$> children))
  ∧ (∀ stop_and_stations,
       stop_and_stations = aggregate_by_stop_sum extended_routes
       ∨ aggregate_by_stop extended_routes = Ok stop_and_stations →
       NoDup (Dict.keys stop_and_stations)
       ∧ (∀ key, contributing key (Dict.values extended_routes) ≠ [] →
                 ∃ s, (key, s) ∈ stop_and_stations)
       ∧ ∀ key s, (key, s) ∈ stop_and_stations →
           let children := contributing key (Dict.values extended_routes) in
           children ≠ []
           ∧ weekday_trips (sas_frequency s)
             = Zsum ((λ er, weekday_trips (er_frequency er)) <$> children)
           ∧ weekend_trips (sas_frequency s)
             = Zsum ((λ er, weekend_trips (er_frequency er)) <$> children)).
Proof.
  intros H. unfold route_stops_and_stations in H. inv_bind H. rename x into routes0.
  apply route_stops_and_stations_sum_spec in Hx as (Hnd0 & _ & Hget0).
  destruct (for_values_entries _ _ _ H) as (Hkeys & Hback & Hforth).
  assert (∀ rid er, (rid, er) ∈ extended_routes →
            ∃ er0, Dict.get rid routes0 = Some er0
                   ∧ er_frequency er = er_frequency er0
                   ∧ Dict.keys (stops_to_station_to_travel_time er)
                     = Dict.keys (stops_to_station_to_travel_time er0)) as Hrel.
  { intros rid er Hin. destruct (Hback rid er Hin) as (er0 & Hin0 & Hb).
    apply divide_route_spec in Hb as (Hf & _ & Hk).
    exists er0. split_and!; [by apply elem_get|done..]. }
  split.
  - split_and!.
    + by rewrite Hkeys.
    + intros rid Hne. specialize (Hget0 rid).
      destruct (Dict.get rid routes0) as [er0|] eqn:Hg; [|done].
      destruct (Hforth rid er0 (get_Some_elem _ _ _ Hg)) as (er & Hin & _). by exists er.
    + intros rid er Hin children. destruct (Hrel rid er Hin) as (er0 & Hg & Hf & _).
      specialize (Hget0 rid). rewrite Hg in Hget0.
      destruct Hget0 as (Hne & Hwd & Hwe & _). by rewrite Hf.
  - assert (stage7_invariant (Dict.values extended_routes)
              (aggregate_by_stop_sum extended_routes)) as [Hnd7 Hget7].
    { apply aggregate_by_stop_sum_spec. apply Forall_forall.
      intros er (rid & Hin)%elem_of_values.
      destruct (Hrel rid er Hin) as (er0 & Hg & _ & Hk). rewrite Hk.
      specialize (Hget0 rid). rewrite Hg in Hget0. by destruct Hget0 as (_ & _ & _ & ?). }
    assert (∀ key s, (key, s) ∈ aggregate_by_stop_sum extended_routes →
              let children := contributing key (Dict.values extended_routes) in
              children ≠ []
              ∧ weekday_trips (sas_frequency s)
                = Zsum ((λ er, weekday_trips (er_frequency er)) <$> children)
              ∧ weekend_trips (sas_frequency s)
                = Zsum ((λ er, weekend_trips (er_frequency er)) <$> children)) as Hsum.
    { intros key s Hin children. apply elem_get in Hin; [|done].
      specialize (Hget7 key). rewrite Hin in Hget7.
      by destruct Hget7 as (Hne & Hwd & Hwe & _). }
    assert (∀ key, contributing key (Dict.values extended_routes) ≠ [] →
              ∃ s, (key, s) ∈ aggregate_by_stop_sum extended_routes) as Hex.
    { intros key Hne. specialize (Hget7 key).
      destruct (Dict.get key (aggregate_by_stop_sum extended_routes)) as [s|] eqn:Hg;
        [|done].
      exists s. by apply get_Some_elem. }
    intros sass [->|Hdiv]; [done|].
    unfold aggregate_by_stop, aggregate_by_stop_divide in Hdiv.
    destruct (for_values_entries _ _ _ Hdiv) as (Hkeys7 & Hback7 & Hforth7).
    split_and!.
    + by rewrite Hkeys7.
    + intros key Hne. destruct (Hex key Hne) as (s0 & Hin0).
      destruct (Hforth7 key s0 Hin0) as (s & Hin & _). by exists s.
    + intros key s Hin. destruct (Hback7 key s Hin) as (s0 & Hin0 & Hb).
      inv_bind Hb. subst s. simpl. by apply Hsum.
Qed.

(** ** Trip counts along the pipeline *)

Lemma stage2_fresh (stops_near_stations : gmap Z StationAndDistance)
    (route_stories : list RouteStory) :
  Forall (λ e, ers_frequency e = HasFrequency_init ∧ route e = None)
    (Dict.values (route_story_train_station_stops stops_near_stations route_stories)).
Proof. apply stage2_values. by intros rs _ _. Qed.

Lemma stage3_story_preserves (to_station : bool) (e e' : ExtendedRouteStory) :
  (if to_station then stops_to_stations_story else stations_to_stop_story) e = Ok e' →
  ers_frequency e' = ers_frequency e ∧ route e' = route e.
Proof.
  destruct to_station; unfold stops_to_stations_story, stations_to_stop_story.
  - destruct (station_stops e); [done|]. intros H. inv_bind H. by subst e'.
  - destruct (reverse (station_stops e)); [done|]. intros H. inv_bind H. by subst e'.
Qed.

Lemma length_counted_days (start_date_ end_date_ : Z) (m : gmap Z RouteStory) (k : Z)
    (l : list Trip) :
  length (counted_days start_date_ end_date_ m k l)
  = (length (filter (mapped_to m k) l) * length (date_range start_date_ end_date_))%nat.
Proof.
  unfold counted_days. induction (filter (mapped_to m k) l) as [|trip l' IH]; [done|].
  csimpl. rewrite length_app, IH. lia.
Qed.

Lemma filter_all {A} (P : A → Prop) `{∀ x, Decision (P x)} (l : list A) :
  Forall P l → filter P l = l.
Proof.
  induction 1 as [|x l Hx _ IH]; [done|]. by rewrite filter_cons_True, IH.
Qed.

Section trip_count_facts.
Variable weekdays : list Z.
Variables start_date_ end_date_ : Z.
Variable trips : list Trip.
Variable trips_to_route_stories : gmap Z RouteStory.

Hypothesis window_nonempty : start_date_ <= end_date_.
Hypothesis trips_selected :
  Forall (λ trip, trip_selected start_date_ end_date_ trip = true) trips.

(** After stages 4 and 5 no counter is negative, and a route story that has
    a route has counted at least one trip. *)
Lemma stories_counted (d3 d4 d5 : odict Z ExtendedRouteStory) :
  NoDup (Dict.keys d3) →
  Forall (λ e, ers_frequency e = HasFrequency_init ∧ route e = None) (Dict.values d3) →
  route_story_frequency weekdays start_date_ end_date_ trips trips_to_route_stories d3
  = Ok d4 →
  route_story_to_route trips trips_to_route_stories d4 = Ok d5 →
  Forall (λ e, 0 <= weekday_trips (ers_frequency e)
               ∧ 0 <= weekend_trips (ers_frequency e)
               ∧ (is_Some (route e) → 1 <= total_trips (ers_frequency e)))
    (Dict.values d5).
Proof.
  intros Hnd Hfresh H4 H5.
  apply route_story_frequency_spec in H4 as [Hk4 Hg4].
  apply route_story_to_route_spec in H5 as [Hk5 Hg5].
  apply Forall_forall. intros e5 (k & Hin)%elem_of_values.
  apply elem_get in Hin; [|by rewrite Hk5, Hk4].
  rewrite Hg5, Hg4 in Hin.
  destruct (Dict.get k d3) as [e3|] eqn:Hd3; [|done]. simpl in Hin.
  rewrite Forall_forall in Hfresh.
  destruct (Hfresh e3) as [Hf3 Hr3].
  { apply elem_of_values. exists k. by apply get_Some_elem. }
  rewrite (filter_all _ trips trips_selected) in Hin.
  pose proof (count_days_spec weekdays (ers_frequency e3)
                (counted_days start_date_ end_date_ trips_to_route_stories k trips))
    as (Hwd & Hwe & Htot).
  rewrite length_counted_days, length_date_range in Htot.
  rewrite Hf3 in Hwd, Hwe, Htot. simpl in Hwd, Hwe. unfold total_trips in Htot at 2.
  simpl in Htot.
  destruct (last (filter (mapped_to trips_to_route_stories k) trips)) as [trip|] eqn:Hlast;
    injection Hin as <-; simpl.
  - split_and!; [by rewrite Hf3..|]. intros _. rewrite Hf3, Htot.
    destruct (filter (mapped_to trips_to_route_stories k) trips); [done|]. simpl. nia.
  - split_and!; [by rewrite Hf3..|]. rewrite Hr3. by intros [? ?].
Qed.

End trip_count_facts.

(** Sums of counters that are not negative, one of them positive. *)
Lemma total_of_sums {A} (wd we : A → Z) (l : list A) (x y : Z) :
  Forall (λ a, 0 <= wd a ∧ 0 <= we a ∧ 1 <= wd a + we a) l → l ≠ [] →
  x = Zsum (wd <$> l) → y = Zsum (we <$> l) → 0 <= x ∧ 0 <= y ∧ 1 <= x + y.
Proof.
  intros Hl Hne -> ->. destruct Hl as [|a l (Ha1 & Ha2 & Ha3) Hl]; [done|].
  assert (0 <= Zsum (wd <$> l) ∧ 0 <= Zsum (we <$> l)) as [H1 H2].
  { split; apply Zsum_nonneg, Forall_fmap; eapply Forall_impl; try exact Hl;
      simpl; intros ? (? & ? & ?); done. }
  unfold Zsum in *. csimpl. lia.
Qed.

Lemma Forall_filter_weaken {A} (P Q : A → Prop) `{∀ x, Decision (P x)} (l : list A) :
  Forall Q l → Forall Q (filter P l).
Proof.
  rewrite !Forall_forall. intros HQ x [_ Hx]%list_elem_of_filter. by apply HQ.
Qed.

Lemma divide_Ok (x : Q) (n : Z) : n ≠ 0 → ∃ y, divide x n = Ok y.
Proof. intros Hn. unfold divide. rewrite bool_decide_eq_false_2 by done. by eexists. Qed.

Lemma route_stops_and_stations_divide_Ok (extended_routes : odict Z ExtendedRoute) :
  Forall (λ er, total_trips (er_frequency er) ≠ 0) (Dict.values extended_routes) →
  ∃ extended_routes', route_stops_and_stations_divide extended_routes = Ok extended_routes'.
Proof.
  intros Hnz. unfold route_stops_and_stations_divide. apply for_values_Ok.
  apply Forall_forall. intros [rid er] Hin. simpl.
  rewrite Forall_forall in Hnz.
  assert (total_trips (er_frequency er) ≠ 0) as Hn.
  { apply Hnz, elem_of_values. by exists rid. }
  destruct (for_values_Ok (λ x, divide x (total_trips (er_frequency er)))
              (stops_to_station_to_travel_time er)) as [m Hm].
  { apply Forall_forall. intros [key x] _. simpl. by apply divide_Ok. }
  rewrite Hm. simpl. by eexists.
Qed.

Lemma aggregate_by_stop_divide_Ok (stop_and_stations : odict (Z * Z) StopAndStation) :
  Forall (λ s, total_trips (sas_frequency s) ≠ 0) (Dict.values stop_and_stations) →
  ∃ stop_and_stations', aggregate_by_stop_divide stop_and_stations = Ok stop_and_stations'.
Proof.
  intros Hnz. unfold aggregate_by_stop_divide. apply for_values_Ok.
  apply Forall_forall. intros [key s] Hin. simpl.
  rewrite Forall_forall in Hnz.
  destruct (divide_Ok (travel_time s) (total_trips (sas_frequency s))) as [t Ht].
  { apply Hnz, elem_of_values. by exists key. }
  rewrite Ht. simpl. by eexists.
Qed.

(** C4, amended: when the analysis window holds a day and stage 4 selects
    every trip, every extended route that reaches the division of stage 6 has
    counted at least one trip, that division succeeds, every (stop, station)
    aggregate of stage 7 has counted at least one trip, and the division of
    stage 7 succeeds. *)
Theorem no_zero_trip_aggregate (weekdays : list Z) (start_date_ end_date_ : Z)
    (to_station : bool) (trips : list Trip) (trips_to_route_stories : gmap Z RouteStory)
    (stops_near_stations : gmap Z StationAndDistance) (route_stories : list RouteStory)
    (d3 d4 d5 : odict Z ExtendedRouteStory) (extended_routes : odict Z ExtendedRoute) :
  start_date_ <= end_date_ →
  Forall (λ trip, trip_selected start_date_ end_date_ trip = true) trips →
  stage3 to_station (route_story_train_station_stops stops_near_stations route_stories)
  = Ok d3 →
  route_story_frequency weekdays start_date_ end_date_ trips trips_to_route_stories d3
  = Ok d4 →
  route_story_to_route trips trips_to_route_stories d4 = Ok d5 →
  route_stops_and_stations_sum stops_near_stations d5 = Ok extended_routes →
  Forall (λ er, 1 <= total_trips (er_frequency er)) (Dict.values extended_routes)
  ∧ ∃ extended_routes',
      route_stops_and_stations_divide extended_routes = Ok extended_routes'
      ∧ Forall (λ s, 1 <= total_trips (sas_frequency s))
          (Dict.values (aggregate_by_stop_sum extended_routes'))
      ∧ ∃ stop_and_stations, aggregate_by_stop extended_routes' = Ok stop_and_stations.
Proof.
  intros Hwindow Hsel H3 H4 H5 H6.
  rewrite stage3_for_values in H3.
  destruct (for_values_entries _ _ _ H3) as (Hk3 & Hback3 & _).
  assert (Forall (λ e, ers_frequency e = HasFrequency_init ∧ route e = None)
            (Dict.values d3)) as Hfresh.
  { pose proof (stage2_fresh stops_near_stations route_stories) as H2.
    rewrite Forall_forall in H2. apply Forall_forall.
    intros e3 (k & Hin)%elem_of_values.
    destruct (Hback3 k e3 Hin) as (e2 & Hin2 & Hb).
    apply stage3_story_preserves in Hb as [-> ->].
    apply H2, elem_of_values. by exists k. }
  assert (NoDup (Dict.keys d3)) as Hnd3 by (rewrite Hk3; apply stage2_NoDup).
  pose proof (stories_counted weekdays start_date_ end_date_ trips trips_to_route_stories
                Hwindow Hsel d3 d4 d5 Hnd3 Hfresh H4 H5) as Hstories.
  apply route_stops_and_stations_sum_spec in H6 as (Hnd6 & Hroutes & Hget6).
  assert (Forall (λ e, 0 <= weekday_trips (ers_frequency e)
                       ∧ 0 <= weekend_trips (ers_frequency e)
                       ∧ 1 <= weekday_trips (ers_frequency e)
                              + weekend_trips (ers_frequency e)) (Dict.values d5))
    as Hstories'.
  { rewrite Forall_forall in Hstories, Hroutes. apply Forall_forall. intros e He.
    destruct (Hstories e He) as (? & ? & Htot). split_and!; [done..|].
    by apply Htot, Hroutes. }
  assert (Forall (λ er, 0 <= weekday_trips (er_frequency er)
                        ∧ 0 <= weekend_trips (er_frequency er)
                        ∧ 1 <= weekday_trips (er_frequency er)
                               + weekend_trips (er_frequency er)
                        ∧ NoDup (Dict.keys (stops_to_station_to_travel_time er)))
            (Dict.values extended_routes)) as Hers.
  { apply Forall_forall. intros er (rid & Hin)%elem_of_values.
    apply elem_get in Hin; [|done]. specialize (Hget6 rid). rewrite Hin in Hget6.
    destruct Hget6 as (Hne & Hwd & Hwe & Hnd).
    assert (Forall (λ e, 0 <= weekday_trips (ers_frequency e)
                         ∧ 0 <= weekend_trips (ers_frequency e)
                         ∧ 1 <= weekday_trips (ers_frequency e)
                                + weekend_trips (ers_frequency e))
              (members rid (Dict.values d5))) as Hm
      by (unfold members; by apply Forall_filter_weaken).
    by destruct (total_of_sums _ _ _ _ _ Hm Hne Hwd Hwe) as (? & ? & ?). }
  split.
  { eapply Forall_impl; [exact Hers|]. by intros er (_ & _ & ? & _). }
  destruct (route_stops_and_stations_divide_Ok extended_routes) as [routes' Hdiv].
  { eapply Forall_impl; [exact Hers|]. intros er (_ & _ & ? & _). unfold total_trips. lia. }
  exists routes'. split; [done|].
  destruct (for_values_entries _ _ _ Hdiv) as (_ & Hback6 & _).
  assert (Forall (λ er, 0 <= weekday_trips (er_frequency er)
                        ∧ 0 <= weekend_trips (er_frequency er)
                        ∧ 1 <= weekday_trips (er_frequency er)
                               + weekend_trips (er_frequency er)
                        ∧ NoDup (Dict.keys (stops_to_station_to_travel_time er)))
            (Dict.values routes')) as Hers'.
  { rewrite Forall_forall in Hers. apply Forall_forall.
    intros er' (rid & Hin)%elem_of_values.
    destruct (Hback6 rid er' Hin) as (er & Hin0 & Hb).
    apply divide_route_spec in Hb as (-> & _ & ->).
    apply Hers, elem_of_values. by exists rid. }
  destruct (aggregate_by_stop_sum_spec routes') as [Hnd7 Hget7].
  { eapply Forall_impl; [exact Hers'|]. by intros er (_ & _ & _ & ?). }
  assert (Forall (λ s, 1 <= total_trips (sas_frequency s))
            (Dict.values (aggregate_by_stop_sum routes'))) as Hsas.
  { apply Forall_forall. intros s (key & Hin)%elem_of_values.
    apply elem_get in Hin; [|done]. specialize (Hget7 key). rewrite Hin in Hget7.
    destruct Hget7 as (Hne & Hwd & Hwe & _).
    assert (Forall (λ er, 0 <= weekday_trips (er_frequency er)
                          ∧ 0 <= weekend_trips (er_frequency er)
                          ∧ 1 <= weekday_trips (er_frequency er)
                                 + weekend_trips (er_frequency er))
              (contributing key (Dict.values routes'))) as Hm.
    { unfold contributing. apply Forall_filter_weaken.
      eapply Forall_impl; [exact Hers'|]. by intros er (? & ? & ? & _). }
    by destruct (total_of_sums _ _ _ _ _ Hm Hne Hwd Hwe) as (? & ? & ?). }
  split; [done|]. apply aggregate_by_stop_divide_Ok.
  eapply Forall_impl; [exact Hsas|]. intros s Hs. simpl in Hs. lia.
Qed.

Lemma no_zero_trip_aggregate_witness :
  let near := find_station_stops 300 false example_distance in
  ∃ d3 d4 d5 extended_routes,
    stage3 true (route_story_train_station_stops near [example_pattern]) = Ok d3
    ∧ route_story_frequency example_weekdays 100 107 [example_trip 90 120]
        example_trips_to_route_stories d3 = Ok d4
    ∧ route_story_to_route [example_trip 90 120] example_trips_to_route_stories d4 = Ok d5
    ∧ route_stops_and_stations_sum near d5 = Ok extended_routes
    ∧ extended_routes ≠ []
    ∧ Forall (λ er, 1 <= total_trips (er_frequency er)) (Dict.values extended_routes)
    ∧ ∃ extended_routes',
        route_stops_and_stations_divide extended_routes = Ok extended_routes'
        ∧ Forall (λ s, 1 <= total_trips (sas_frequency s))
            (Dict.values (aggregate_by_stop_sum extended_routes'))
        ∧ ∃ stop_and_stations, aggregate_by_stop extended_routes' = Ok stop_and_stations.
Proof.
  intros near. do 4 eexists.
  split; [vm_compute; reflexivity|].
  split; [vm_compute; reflexivity|].
  split; [vm_compute; reflexivity|].
  split; [vm_compute; reflexivity|].
  split; [discriminate|].
  apply (no_zero_trip_aggregate example_weekdays 100 107 true [example_trip 90 120]
           example_trips_to_route_stories near [example_pattern]
           [(7, example_story)]
           [(7, with_ers_frequency example_story {| weekday_trips := 6; weekend_trips := 2 |})]
           [(7, example_story_counted)]).
  - lia.
  - repeat constructor.
  - vm_compute. reflexivity.
  - vm_compute. reflexivity.
  - vm_compute. reflexivity.
  - vm_compute. reflexivity.
Defined.

(** C4 as stated fails: with an analysis window that ends before it starts
    no day is counted, the extended route of the pattern reaches the division
    of stage 6 with no trip, and the run stops on a division by zero. *)
Lemma zero_trip_route_with_empty_window :
  let near := find_station_stops 300 false example_distance in
  let story := with_route example_story example_route in
  stage3 true (route_story_train_station_stops near [example_pattern])
  = Ok [(7, example_story)]
  ∧ route_story_frequency example_weekdays 107 100 [example_trip 90 120]
      example_trips_to_route_stories [(7, example_story)] = Ok [(7, example_story)]
  ∧ route_story_to_route [example_trip 90 120] example_trips_to_route_stories
      [(7, example_story)] = Ok [(7, story)]
  ∧ (∃ er, route_stops_and_stations_sum near [(7, story)] = Ok [(5, er)]
           ∧ total_trips (er_frequency er) = 0)
  ∧ route_stops_and_stations near [(7, story)] = Raise ZeroDivisionError
  ∧ run_station_access example_weekdays 107 100 true [example_trip 90 120]
      example_trips_to_route_stories example_stops 300 example_distance [example_pattern]
    = Raise ZeroDivisionError.
Proof.
  intros near story. split_and!; try (vm_compute; reflexivity).
  eexists. split; vm_compute; reflexivity.
Qed.

Lemma weight_conservation_witness :
  let near := find_station_stops 300 false example_distance in
  let other := with_route
                 (with_ers_frequency example_story
                    {| weekday_trips := 4; weekend_trips := 1 |})
                 {| route_id := 6; line_number := "6" |} in
  let d := [(7, example_story_counted);
            (8, with_ers_frequency example_story_counted
                  {| weekday_trips := 10; weekend_trips := 3 |});
            (9, other)] in
  ∃ extended_routes er stop_and_stations s,
    route_stops_and_stations near d = Ok extended_routes
    ∧ (5, er) ∈ extended_routes
    ∧ er_frequency er = {| weekday_trips := 16; weekend_trips := 5 |}
    ∧ aggregate_by_stop extended_routes = Ok stop_and_stations
    ∧ ((1, 100), s) ∈ stop_and_stations
    ∧ sas_frequency s = {| weekday_trips := 20; weekend_trips := 6 |}
    ∧ (NoDup (Dict.keys extended_routes)
       ∧ (∀ rid, members rid (Dict.values d) ≠ [] → ∃ er, (rid, er) ∈ extended_routes)
       ∧ ∀ rid er, (rid, er) ∈ extended_routes →
           let children := members rid (Dict.values d) in
           children ≠ []
           ∧ weekday_trips (er_frequency er)
             = Zsum ((λ e, weekday_trips (ers_frequency e)) <$> children)
           ∧ weekend_trips (er_frequency er)
             = Zsum ((λ e, weekend_trips (ers_frequency e)) <$> children))
    ∧ (∀ stop_and_stations,
         stop_and_stations = aggregate_by_stop_sum extended_routes
         ∨ aggregate_by_stop extended_routes = Ok stop_and_stations →
         NoDup (Dict.keys stop_and_stations)
         ∧ (∀ key, contributing key (Dict.values extended_routes) ≠ [] →
                   ∃ s, (key, s) ∈ stop_and_stations)
         ∧ ∀ key s, (key, s) ∈ stop_and_stations →
             let children := contributing key (Dict.values extended_routes) in
             children ≠ []
             ∧ weekday_trips (sas_frequency s)
               = Zsum ((λ er, weekday_trips (er_frequency er)) <$> children)
             ∧ weekend_trips (sas_frequency s)
               = Zsum ((λ er, weekend_trips (er_frequency er)) <$> children)).
Proof.
  intros near other d. do 4 eexists.
  split; [vm_compute; reflexivity|].
  split; [by left|].
  split; [reflexivity|].
  split; [vm_compute; reflexivity|].
  split; [by left|].
  split; [reflexivity|].
  apply (weight_conservation near d). vm_compute. reflexivity.
Defined.

(** The window the constructor sets when no [end_date] is given holds
    eight days. *)
Lemma default_window (start_date : Z) :
  length (date_range start_date (default_end_date start_date None)) = 8%nat.
Proof. rewrite length_date_range. simpl. lia. Qed.

(** The test of stage 4 is a disjunction: a service passes as soon as it ends
    on or after the first day of the window, or starts on or before the
    last. *)
Lemma trip_selected_spec (start_date_ end_date_ : Z) (trip : Trip) :
  trip_selected start_date_ end_date_ trip = true
  ↔ end_date (service trip) >= start_date_ ∨ start_date (service trip) <= end_date_.
Proof.
  unfold trip_selected. rewrite orb_true_iff, !bool_decide_eq_true. done.
Qed.

(** With a window that holds a day, every service that does not end before
    it starts passes the test. *)
Lemma trip_selected_well_formed (start_date_ end_date_ : Z) (trip : Trip) :
  start_date_ <= end_date_ →
  start_date (service trip) <= end_date (service trip) →
  trip_selected start_date_ end_date_ trip = true.
Proof. intros Hw Hs. apply trip_selected_spec. lia. Qed.

(** C2, the code at a trip outside the window: the service of the trip ends
    on day 31, the analysis window runs from day 100 to day 107, and stage 4
    still counts the trip on each of the eight days of the window, whichever
    days are weekdays. *)
Theorem frequency_counts_trip_outside_window (weekdays : list Z) :
  let trip := example_trip 1 31 in
  ¬ (end_date (service trip) >= 100 ∧ start_date (service trip) <= 107)
  ∧ ∃ e,
      route_story_frequency weekdays 100 107 [trip] example_trips_to_route_stories
        [(7, example_story)] = Ok [(7, e)]
      ∧ total_trips (ers_frequency e) = 8.
Proof.
  intros trip. split; [simpl; lia|].
  exists (with_ers_frequency example_story
            (foldl (count_day weekdays) HasFrequency_init (date_range 100 107))).
  split.
  - unfold route_story_frequency.
    rewrite filter_cons_True by (vm_compute; reflexivity). rewrite filter_nil.
    cbn [for_each]. unfold example_trips_to_route_stories, trip. simpl trip_id.
    rewrite lookup_singleton_eq. reflexivity.
  - cbn [ers_frequency with_ers_frequency].
    pose proof (count_days_spec weekdays HasFrequency_init (date_range 100 107))
      as (_ & _ & Htot).
    rewrite Htot, length_date_range. done.
Qed.

(** ** Times of day as text *)

Lemma split_no_sep_app (c : ascii) (s1 s2 : string) :
  split c s1 = [s1] → split c (s1 +:+ String c s2) = s1 :: split c s2.
Proof.
  induction s1 as [|a s1 IH]; simpl.
  - intros _. by rewrite Ascii.eqb_refl.
  - destruct (Ascii.eqb a c); [done|].
    destruct (split c s1) as [|h t] eqn:Hs.
    + intros [= <-]. simpl in Hs. done.
    + intros [= -> ->]. by rewrite IH.
Qed.

Lemma split_digits (d : Decimal.uint) :
  split ":" (NilEmpty.string_of_uint d) = [NilEmpty.string_of_uint d].
Proof. induction d; simpl; [done|by rewrite IHd..]. Qed.

(** The decimal text of an integer that is not negative. *)
Lemma str_nonneg (n : Z) :
  0 <= n →
  ∃ d, d ≠ Decimal.Nil ∧ str n = NilEmpty.string_of_uint d
       ∧ Z.of_uint d = n.
Proof.
  intros Hn. unfold str. destruct n as [|p|p]; [| |lia].
  - by exists (Decimal.D0 Decimal.Nil).
  - exists (Pos.to_uint p). pose proof (DecimalPos.Unsigned.to_uint_nonnil p) as Hp.
    split_and!; [done| |].
    + simpl. unfold NilZero.string_of_uint. by destruct (Pos.to_uint p).
    + unfold Z.of_uint. by rewrite DecimalPos.Unsigned.of_to.
Qed.

Lemma int_of_float_inject_Z (n : Z) : int_of_float (inject_Z n) = n.
Proof.
  unfold int_of_float. destruct (Qle_bool 0 (inject_Z n)).
  - apply Qfloor_Z.
  - apply Qceiling_Z.
Qed.

Lemma int_of_float_div (a : Z) (b : positive) :
  0 <= a → int_of_float (inject_Z a / inject_Z (Z.pos b)) = a / Z.pos b.
Proof.
  intros Ha. unfold int_of_float.
  assert (Qle_bool 0 (inject_Z a / inject_Z (Z.pos b)) = true) as ->.
  { apply Qle_bool_iff. apply Qle_shift_div_l; [done|]. rewrite Qmult_0_l.
    unfold Qle. simpl. lia. }
  unfold Qdiv, Qmult, Qinv, inject_Z, Qfloor. simpl.
  by rewrite Z.mul_1_r.
Qed.

Lemma format_02d_int_of_float (x : Q) :
  format_02d x = format_02d (inject_Z (int_of_float x)).
Proof. unfold format_02d. by rewrite int_of_float_inject_Z. Qed.

Lemma split_format_02d (n : Z) :
  0 <= n → split ":" (format_02d (inject_Z n)) = [format_02d (inject_Z n)].
Proof.
  intros Hn. unfold format_02d. rewrite int_of_float_inject_Z.
  destruct (str_nonneg n Hn) as (d & _ & -> & _).
  case_bool_decide; simpl; by rewrite split_digits.
Qed.

(** The reading of decimal numerals undoes ['%02d'] on what is not
    negative. *)
Lemma decimal_format_02d (n : Z) : 0 <= n → decimal (format_02d (inject_Z n)) = Some n.
Proof.
  intros Hn. unfold format_02d. rewrite int_of_float_inject_Z.
  destruct (str_nonneg n Hn) as (d & Hd & -> & <-).
  assert (∀ d', d' ≠ Decimal.Nil →
            decimal (NilEmpty.string_of_uint d') = Some (Z.of_uint d')) as Hdec.
  { intros d' Hd'. unfold decimal, NilZero.int_of_string.
    destruct (NilEmpty.string_of_uint d') as [|a s] eqn:Hs; [by destruct d'|].
    assert (Ascii.eqb a "-" = false) as ->.
    { destruct d'; simpl in Hs; try done; by injection Hs as <- _. }
    unfold NilZero.uint_of_string. rewrite <- Hs, NilEmpty.usu. done. }
  case_bool_decide.
  - change (String "0" (NilEmpty.string_of_uint d))
      with (NilEmpty.string_of_uint (Decimal.D0 d)).
    by rewrite Hdec.
  - by apply Hdec.
Qed.

(** X1: a number of seconds that is not negative is read back by [parse_time]
    from the text [format_time] writes for it, for any reading [int] of
    integers that undoes ['%02d']. *)
Theorem parse_format_time (int : string → option Z) (t : Z) :
  (∀ n, 0 <= n → int (format_02d (inject_Z n)) = Some n) →
  0 <= t →
  parse_time int (format_time t) = Ok t.
Proof.
  intros Hint Ht. unfold format_time, py_mod.
  change 3600%Q with (inject_Z (Z.pos 3600)). change 60%Q with (inject_Z (Z.pos 60)).
  pose proof (Z.mod_pos_bound t 3600 ltac:(lia)) as Hm.
  pose proof (Z.mod_pos_bound t 60 ltac:(lia)) as Hs.
  pose proof (Z.div_pos t 3600 Ht ltac:(lia)) as Hh.
  pose proof (Z.div_pos (t `mod` 3600) 60 ltac:(lia) ltac:(lia)) as Hmin.
  rewrite (format_02d_int_of_float (_ / _)), int_of_float_div by done.
  rewrite (format_02d_int_of_float (inject_Z (t `mod` 3600) / _)), int_of_float_div by lia.
  unfold parse_time.
  repeat match goal with
         | |- context [":" +:+ ?x] => change (":" +:+ x) with (String ":"%char x)
         end.
  rewrite split_no_sep_app by by apply split_format_02d.
  rewrite split_no_sep_app by by apply split_format_02d.
  rewrite split_format_02d by lia.
  cbn [traverse]. unfold int_of. rewrite !Hint by lia. simpl. f_equal.
  clear. Z.to_euclidean_division_equations. lia.
Qed.

Lemma parse_format_time_witness : parse_time decimal (format_time 3725) = Ok 3725.
Proof.
  apply (parse_format_time decimal 3725); [apply decimal_format_02d|lia].
Defined.

(** ** The scans of stage 3 on sorted patterns *)

Lemma StronglySorted_filter_keep {A} (R : relation A) (P : A → Prop)
    `{∀ x, Decision (P x)} (l : list A) :
  StronglySorted R l → StronglySorted R (filter P l).
Proof.
  induction 1 as [|x l Hl IH Hx]; [constructor|].
  rewrite filter_cons. case_decide; [|done].
  constructor; [done|]. by apply Forall_filter_weaken.
Qed.

Lemma StronglySorted_weaken {A} (R R' : relation A) (l : list A) :
  (∀ x y, R x y → R' x y) → StronglySorted R l → StronglySorted R' l.
Proof.
  intros HR. induction 1 as [|x l Hl IH Hx]; constructor; [done|].
  eapply Forall_impl; [exact Hx|]. apply HR.
Qed.

Lemma StronglySorted_reverse_flip {A} (R : relation A) (l : list A) :
  StronglySorted R l → StronglySorted (flip R) (reverse l).
Proof.
  induction 1 as [|x l Hl IH Hx]; [constructor|].
  rewrite reverse_cons. apply StronglySorted_app_2; [|done|repeat constructor].
  intros y z Hy ->%list_elem_of_singleton. rewrite Forall_forall in Hx.
  apply Hx. by apply elem_of_reverse.
Qed.

Lemma scan_pairs_ext (f g : RouteStoryStop → RouteStoryStop → bool)
    (n : RouteStoryStop) (it l : list RouteStoryStop) :
  (∀ s n, f s n = g s n) → scan_pairs f n it l = scan_pairs g n it l.
Proof.
  intros Hfg. revert n it. induction l as [|s l IH]; intros n it; simpl; [done|].
  rewrite Hfg. destruct (g s n); [destruct it|]; by rewrite ?IH.
Qed.

Lemma filter_none {A} (P : A → Prop) `{∀ x, Decision (P x)} (l : list A) :
  Forall (λ x, ¬ P x) l → filter P l = [].
Proof. induction 1 as [|x l Hx _ IH]; [done|]. by rewrite filter_cons_False. Qed.

Lemma omap_all_None {A B} (f : A → option B) (l : list A) :
  (∀ x, x ∈ l → f x = None) → omap f l = [].
Proof.
  induction l as [|x l IH]; intros Hf; [done|]. cbn [omap list_omap].
  rewrite Hf by by left. apply IH. intros y Hy. apply Hf. by right.
Qed.

(** The scan with cursor [n], the stations [before] behind it and [it] ahead,
    over the stops [l] that follow the stops [pre]. *)
Lemma scan_pairs_nearest (key : RouteStoryStop → Z)
    (before : list RouteStoryStop) (n : RouteStoryStop)
    (it pre l : list RouteStoryStop) :
  StronglySorted (λ a b, key a < key b) (n :: it) →
  StronglySorted (λ a b, key a < key b) l →
  (∀ x, x ∈ it → x ∈ pre ∨ x ∈ l) →
  (∀ x, x ∈ pre → key x <= key n) →
  (∀ b s, b ∈ before → s ∈ l → key b < key s) →
  scan_pairs (λ s n, bool_decide (key s > key n)) n it l
  = omap (λ s, (λ m, (s, m)) <$> head (filter (λ m, key s <= key m) (before ++ n :: it))) l.
Proof.
  revert before n it pre. induction l as [|s l IH]; intros before n it pre Hsts Hl Hit Hpre Hbef;
    [done|].
  apply StronglySorted_cons in Hl as [Hs Hl]. rewrite Forall_forall in Hs.
  apply StronglySorted_cons in Hsts as Hsts'. destruct Hsts' as [Hn Hsit].
  rewrite Forall_forall in Hn.
  assert (filter (λ m, key s <= key m) before = []) as Hfb.
  { apply filter_none, Forall_forall. intros b Hb. specialize (Hbef b s Hb). 
    assert (key b < key s) by (apply Hbef; by left). lia. }
  cbn [scan_pairs]. case_bool_decide as Hadv.
  - destruct it as [|n' it].
    + (* no station is left for [s] or for any later stop *)
      symmetry. apply omap_all_None. intros s' Hs'.
      rewrite filter_none; [done|]. apply Forall_forall.
      intros m [Hm| ->%list_elem_of_singleton]%elem_of_app.
      * specialize (Hbef m s' Hm Hs'). lia.
      * apply elem_of_cons in Hs' as [->|Hs']; [lia|]. specialize (Hs s' Hs'). lia.
    + assert (key n < key n') as Hnn' by (apply Hn; by left).
      assert (key s <= key n') as Hsn'.
      { destruct (Hit n') as [Hin|Hin]; [by left| |].
        - specialize (Hpre n' Hin). lia.
        - apply elem_of_cons in Hin as [->|Hin]; [lia|]. specialize (Hs n' Hin). lia. }
      cbn [omap list_omap].
      rewrite filter_app, Hfb, filter_cons_False, filter_cons_True by lia. simpl. f_equal.
      rewrite (IH (before ++ [n]) n' it (pre ++ [s])); [by rewrite <- app_assoc|done..| | |].
      * intros x Hx. destruct (Hit x) as [?|[->|?]%elem_of_cons]; [by right|..].
        -- left. apply elem_of_app. by left.
        -- left. apply elem_of_app. right. by left.
        -- by right.
      * intros x [Hx| ->%list_elem_of_singleton]%elem_of_app; [|done].
        specialize (Hpre x Hx). lia.
      * intros b s' [Hb| ->%list_elem_of_singleton]%elem_of_app Hs'.
        -- apply Hbef; [done|by right].
        -- specialize (Hs s' Hs'). lia.
  - cbn [omap list_omap].
    rewrite filter_app, Hfb, filter_cons_True by lia. simpl. f_equal.
    rewrite (IH before n it (pre ++ [s])); [done..| | |].
    + intros x Hx. destruct (Hit x Hx) as [?|[->|?]%elem_of_cons].
      * left. apply elem_of_app. by left.
      * left. apply elem_of_app. right. by left.
      * by right.
    + intros x [Hx| ->%list_elem_of_singleton]%elem_of_app; [by apply Hpre|lia].
    + intros b s' Hb Hs'. apply Hbef; [done|by right].
Qed.

Lemma omap_ext_all {A B} (f g : A → option B) (l : list A) :
  (∀ x, f x = g x) → omap f l = omap g l.
Proof.
  intros Hfg. induction l as [|x l IH]; [done|]. cbn [omap list_omap].
  by rewrite Hfg, IH.
Qed.

(** The pairs of the forward scan over a sorted pattern and its station
    stops. *)
Lemma forward_pairs_next_station (stops_near_stations : gmap Z StationAndDistance)
    (rs : RouteStory) (n : RouteStoryStop) (it : list RouteStoryStop) :
  sequence_increasing (stops rs) →
  station_stops_of stops_near_stations rs = n :: it →
  scan_pairs (λ s n, bool_decide (stop_sequence s > stop_sequence n)) n it (stops rs)
  = omap (λ s, (λ m, (s, m)) <$> next_station (n :: it) s) (stops rs).
Proof.
  intros Hsorted Hst.
  apply (scan_pairs_nearest stop_sequence [] n it []); [|done|..].
  - rewrite <- Hst. by apply StronglySorted_filter_keep.
  - intros x Hx. right.
    assert (x ∈ station_stops_of stops_near_stations rs) as Hin
      by (rewrite Hst; by right).
    by apply list_elem_of_filter in Hin as [_ ?].
  - by intros x ?%elem_of_nil.
  - by intros b s ?%elem_of_nil.
Qed.

(** The pairs of the backward scan over a sorted pattern and its station
    stops. *)
Lemma backward_pairs_previous_station (stops_near_stations : gmap Z StationAndDistance)
    (rs : RouteStory) (n : RouteStoryStop) (it : list RouteStoryStop) :
  sequence_increasing (stops rs) →
  reverse (station_stops_of stops_near_stations rs) = n :: it →
  scan_pairs (λ s n, bool_decide (stop_sequence s < stop_sequence n)) n it
    (reverse (stops rs))
  = omap (λ s, (λ m, (s, m))
               <$> previous_station (station_stops_of stops_near_stations rs) s)
      (reverse (stops rs)).
Proof.
  intros Hsorted Hst.
  rewrite (scan_pairs_ext _
             (λ s n, bool_decide (- stop_sequence s > - stop_sequence n)))
    by (intros s m; apply bool_decide_ext; lia).
  assert (∀ l, sequence_increasing l →
               StronglySorted (λ a b, - stop_sequence a < - stop_sequence b) (reverse l))
    as Hrev.
  { intros l Hl. apply StronglySorted_reverse_flip in Hl.
    eapply StronglySorted_weaken; [|exact Hl]. unfold flip. intros x y. simpl. lia. }
  rewrite (scan_pairs_nearest (λ x, - stop_sequence x) [] n it []).
  - apply omap_ext_all. intros s. f_equal. unfold previous_station.
    rewrite app_nil_l, <- Hst, filter_reverse, head_reverse. f_equal.
    apply list_filter_iff. intros m. lia.
  - rewrite <- Hst. apply Hrev. by apply StronglySorted_filter_keep.
  - by apply Hrev.
  - intros x Hx. right.
    assert (x ∈ reverse (station_stops_of stops_near_stations rs)) as Hin
      by (rewrite Hst; by right).
    rewrite elem_of_reverse in Hin. rewrite elem_of_reverse.
    by apply list_elem_of_filter in Hin as [_ ?].
  - by intros x ?%elem_of_nil.
  - by intros b s ?%elem_of_nil.
Qed.

(** X2: on a pattern whose sequence numbers increase strictly, what the
    forward scan of stage 3 returns pairs every stop that has a station stop
    at or after it with the first such station stop, in the order of the
    pattern, and leaves the other stops out. *)
Theorem forward_scan_next_station (stops_near_stations : gmap Z StationAndDistance)
    (rs : RouteStory) (e' : ExtendedRouteStory) :
  sequence_increasing (stops rs) →
  stops_to_stations_story
    (ExtendedRouteStory_init rs (station_stops_of stops_near_stations rs)) = Ok e' →
  stop_and_station e'
  = omap (λ s, (λ n, (s, n)) <$> next_station (station_stops_of stops_near_stations rs) s)
      (stops rs).
Proof.
  intros Hsorted. unfold stops_to_stations_story. simpl.
  destruct (station_stops_of stops_near_stations rs) as [|n it] eqn:Hst; [done|].
  intros H. inv_bind H. subst e'. simpl.
  destruct (stops_to_stations_loop_spec n it (stops rs)) as [Hok Hbad].
  destruct (decide (Forall (offsets_ordered true)
              (scan_pairs (λ s n, bool_decide (stop_sequence s > stop_sequence n))
                 n it (stops rs)))) as [Hall|Hnall].
  - rewrite (Hok Hall) in Hx. injection Hx as <-.
    by apply (forward_pairs_next_station stops_near_stations).
  - rewrite (Hbad Hnall) in Hx. done.
Qed.

Lemma forward_scan_next_station_witness :
  ∃ e',
    stops_to_stations_story
      (ExtendedRouteStory_init example_pattern
         (station_stops_of (find_station_stops 300 false example_distance)
            example_pattern)) = Ok e'
    ∧ stop_and_station e'
      = omap (λ s, (λ n, (s, n))
                   <$> next_station
                         (station_stops_of (find_station_stops 300 false example_distance)
                            example_pattern) s)
          (stops example_pattern).
Proof.
  eexists. split; [vm_compute; reflexivity|].
  apply (forward_scan_next_station (find_station_stops 300 false example_distance)
           example_pattern).
  - repeat constructor; simpl; lia.
  - vm_compute. reflexivity.
Defined.

(** X3: on a pattern whose sequence numbers increase strictly, what the
    backward scan of stage 3 returns pairs every stop that has a station stop
    at or before it with the last such station stop, in the reverse of the
    order of the pattern, and leaves the other stops out. *)
Theorem backward_scan_previous_station (stops_near_stations : gmap Z StationAndDistance)
    (rs : RouteStory) (e' : ExtendedRouteStory) :
  sequence_increasing (stops rs) →
  stations_to_stop_story
    (ExtendedRouteStory_init rs (station_stops_of stops_near_stations rs)) = Ok e' →
  stop_and_station e'
  = omap (λ s, (λ n, (s, n))
               <$> previous_station (station_stops_of stops_near_stations rs) s)
      (reverse (stops rs)).
Proof.
  intros Hsorted. unfold stations_to_stop_story. simpl.
  destruct (reverse (station_stops_of stops_near_stations rs)) as [|n it] eqn:Hst; [done|].
  intros H. inv_bind H. subst e'. simpl.
  destruct (stations_to_stop_loop_spec n it (reverse (stops rs))) as [Hok Hbad].
  destruct (decide (Forall (offsets_ordered false)
              (scan_pairs (λ s n, bool_decide (stop_sequence s < stop_sequence n))
                 n it (reverse (stops rs))))) as [Hall|Hnall].
  - rewrite (Hok Hall) in Hx. injection Hx as <-.
    by apply (backward_pairs_previous_station stops_near_stations).
  - rewrite (Hbad Hnall) in Hx. done.
Qed.

Lemma backward_scan_previous_station_witness :
  ∃ e',
    stations_to_stop_story
      (ExtendedRouteStory_init example_pattern
         (station_stops_of (find_station_stops 300 false example_distance)
            example_pattern)) = Ok e'
    ∧ stop_and_station e' = [(example_C, example_S); (example_S, example_S)]
    ∧ stop_and_station e'
      = omap (λ s, (λ n, (s, n))
                   <$> previous_station
                         (station_stops_of (find_station_stops 300 false example_distance)
                            example_pattern) s)
          (reverse (stops example_pattern)).
Proof.
  eexists. split; [vm_compute; reflexivity|]. split; [reflexivity|].
  apply (backward_scan_previous_station (find_station_stops 300 false example_distance)
           example_pattern).
  - repeat constructor; simpl; lia.
  - vm_compute. reflexivity.
Defined.

(** X4: a pattern whose sequence numbers increase strictly and whose arrival
    offsets do not decrease with them passes every assertion of stage 3: with
    a station stop on the pattern, both scans return. *)
Theorem sorted_pattern_passes_assertions
    (stops_near_stations : gmap Z StationAndDistance) (rs : RouteStory) :
  sequence_increasing (stops rs) →
  offsets_monotone (stops rs) →
  station_stops_of stops_near_stations rs ≠ [] →
  let e := ExtendedRouteStory_init rs (station_stops_of stops_near_stations rs) in
  (∃ e', stops_to_stations_story e = Ok e')
  ∧ (∃ e', stations_to_stop_story e = Ok e').
Proof.
  intros Hsorted Hmono Hne e.
  assert (∀ m, m ∈ station_stops_of stops_near_stations rs → m ∈ stops rs) as Hsub.
  { intros m Hm. by apply list_elem_of_filter in Hm as [_ ?]. }
  split.
  - unfold stops_to_stations_story, e. simpl.
    destruct (station_stops_of stops_near_stations rs) as [|n it] eqn:Hst; [done|].
    destruct (stops_to_stations_loop_spec n it (stops rs)) as [Hok _].
    rewrite Hok; [simpl; by eexists|].
    rewrite (forward_pairs_next_station stops_near_stations rs n it) by done.
    apply Forall_forall. intros [s m] (s' & Hs' & Hf)%list_elem_of_omap.
    unfold next_station in Hf.
    destruct (head (filter _ (n :: it))) as [m'|] eqn:Hhead; [|done].
    injection Hf as <- <-. apply head_Some_elem_of in Hhead.
    apply list_elem_of_filter in Hhead as [Hle Hin].
    unfold offsets_ordered. simpl. apply Z.le_ge, Hmono; [done|by apply Hsub|done].
  - unfold stations_to_stop_story, e. simpl.
    destruct (reverse (station_stops_of stops_near_stations rs)) as [|n it] eqn:Hst.
    { apply (f_equal reverse) in Hst. by rewrite reverse_involutive in Hst. }
    destruct (stations_to_stop_loop_spec n it (reverse (stops rs))) as [Hok _].
    rewrite Hok; [simpl; by eexists|].
    rewrite (backward_pairs_previous_station stops_near_stations rs n it) by done.
    apply Forall_forall. intros [s m] (s' & Hs' & Hf)%list_elem_of_omap.
    unfold previous_station in Hf.
    destruct (last (filter _ (station_stops_of stops_near_stations rs))) as [m'|] eqn:Hlast;
      [|done].
    injection Hf as <- <-. apply last_Some_elem_of in Hlast.
    apply list_elem_of_filter in Hlast as [Hle Hin].
    unfold offsets_ordered. simpl. apply Hmono; [by apply Hsub| |done].
    by rewrite elem_of_reverse in Hs'.
Qed.

Lemma sorted_pattern_passes_assertions_witness :
  let e := ExtendedRouteStory_init example_pattern
             (station_stops_of (find_station_stops 300 false example_distance)
                example_pattern) in
  (∃ e', stops_to_stations_story e = Ok e')
  ∧ (∃ e', stations_to_stop_story e = Ok e').
Proof.
  apply (sorted_pattern_passes_assertions (find_station_stops 300 false example_distance)
           example_pattern).
  - repeat constructor; simpl; lia.
  - intros a b Ha Hb. vm_compute in Ha, Hb.
    repeat (apply elem_of_cons in Ha as [->|Ha]);
      repeat (apply elem_of_cons in Hb as [->|Hb]);
      try (by apply elem_of_nil in Ha); try (by apply elem_of_nil in Hb);
      simpl; lia.
  - vm_compute. discriminate.
Defined.

(** ** Stages 1 and 2, further *)

(** X5: raising the distance threshold, or including the trains, never
    removes a stop from the output of stage 1, and the output is always a part
    of the distance table. *)
Theorem find_station_stops_monotone (d1 d2 : Q) (include_trains : bool)
    (station_distance : gmap Z StationAndDistance) :
  (d1 <= d2)%Q →
  find_station_stops d1 include_trains station_distance
  ⊆ find_station_stops d2 include_trains station_distance
  ∧ find_station_stops d1 false station_distance
    ⊆ find_station_stops d1 true station_distance
  ∧ find_station_stops d2 include_trains station_distance ⊆ station_distance.
Proof.
  intros Hle. unfold find_station_stops. split_and!.
  - apply map_subseteq_spec. intros k v.
    destruct include_trains; simpl; rewrite ?map_lookup_filter_Some; simpl.
    + intros [? ?]. split; [done|]. by eapply Qlt_le_trans.
    + intros [[? ?] ?]. split_and!; [done| |done]. by eapply Qlt_le_trans.
  - simpl. apply map_filter_subseteq.
  - destruct include_trains; simpl.
    + apply map_filter_subseteq.
    + etrans; apply map_filter_subseteq.
Qed.

Lemma find_station_stops_monotone_witness :
  find_station_stops 300 false example_distance
  ⊆ find_station_stops 450 false example_distance
  ∧ find_station_stops 300 false example_distance
    ⊆ find_station_stops 300 true example_distance
  ∧ find_station_stops 450 false example_distance ⊆ example_distance.
Proof. apply (find_station_stops_monotone 300 450 false example_distance). done. Defined.

Lemma filter_fmap_comm {A B} (f : A → B) (P : B → Prop) `{∀ y, Decision (P y)}
    (l : list A) :
  filter P (f <$> l) = f <$> filter (λ x, P (f x)) l.
Proof.
  induction l as [|x l IH]; [done|]. csimpl. rewrite !filter_cons.
  case_decide; csimpl; by rewrite IH.
Qed.

(** X6: the dictionary of stage 2 binds an identifier to the fresh extended
    route story of the last route story, in the order of the input, that has
    this identifier and a stop near a station; an identifier that no such
    route story has is not bound. *)
Theorem stage2_lookup (stops_near_stations : gmap Z StationAndDistance)
    (route_stories : list RouteStory) (k : Z) :
  Dict.get k (route_story_train_station_stops stops_near_stations route_stories)
  = (λ rs, ExtendedRouteStory_init rs (station_stops_of stops_near_stations rs))
    <$> last (filter (λ rs, route_story_id rs = k
                            ∧ station_stops_of stops_near_stations rs ≠ [])
                route_stories).
Proof.
  unfold route_story_train_station_stops.
  set (f := λ rs, ExtendedRouteStory_init rs (station_stops_of stops_near_stations rs)).
  assert (((λ p : RouteStory * list RouteStoryStop, ExtendedRouteStory_init p.1 p.2)
           <$> filter (λ p, (0 < length p.2)%nat)
                 ((λ rs, (rs, station_stops_of stops_near_stations rs)) <$> route_stories))
          = f <$> filter (λ rs, station_stops_of stops_near_stations rs ≠ []) route_stories)
    as ->.
  { rewrite filter_fmap_comm, <- list_fmap_compose. f_equal.
    apply list_filter_iff. intros rs. simpl.
    destruct (station_stops_of stops_near_stations rs); simpl; split; (done || lia). }
  rewrite <- (list_filter_filter (λ rs, route_story_id rs = k)).
  generalize (filter (λ rs, station_stops_of stops_near_stations rs ≠ []) route_stories).
  intros l.
  apply (foldl_invariant
           (λ pre d, ∀ l0, pre = f <$> l0 →
              Dict.get k d = f <$> last (filter (λ rs, route_story_id rs = k) l0))
           (λ d e, Dict.set (route_story_id (route_story e)) e d) (f <$> l) []);
    [| |done].
  - intros l0 Hl0. symmetry in Hl0. apply fmap_nil_inv in Hl0. by subst.
  - intros pre e d IH He l0 Hl0.
    destruct l0 as [|rs l0 _] using rev_ind.
    { by destruct pre. }
    rewrite fmap_app in Hl0. apply app_inj_tail in Hl0 as [-> ->].
    simpl. rewrite get_set. case_decide as Hk.
    + rewrite filter_snoc_True by done. by rewrite last_snoc.
    + rewrite filter_snoc_False by done. by apply IH.
Qed.

(** ** Stages 4 to 6, further *)

Lemma for_each_Raise_inv {A S} (body : S → A → result S) (l : list A) (s : S) (x : fault) :
  for_each body l s = Raise x → ∃ a s1, a ∈ l ∧ body s1 a = Raise x.
Proof.
  revert s. induction l as [|a l IH]; intros s; simpl; [done|].
  destruct (body s a) as [s'|y] eqn:Hb; simpl.
  - intros (a' & s1 & Ha' & Hb')%IH. exists a', s1. split; [by right|done].
  - intros [= ->]. exists a, s. split; [by left|done].
Qed.

Lemma for_each_Ok_elem {A S} (body : S → A → result S) (l : list A) (s s' : S) :
  for_each body l s = Ok s' → ∀ a, a ∈ l → ∃ s1 s2, body s1 a = Ok s2.
Proof.
  revert s. induction l as [|a l IH]; intros s Hrun a' Ha'; [by apply elem_of_nil in Ha'|].
  simpl in Hrun. apply rbind_Ok in Hrun as (s2 & Hb & Hrun).
  apply elem_of_cons in Ha' as [->|Ha']; [by exists s, s2|]. by eapply IH.
Qed.

Lemma for_each_total {A S} (body : S → A → result S) (l : list A) (s : S) :
  (∀ s1 a, a ∈ l → ∃ s2, body s1 a = Ok s2) → ∃ s', for_each body l s = Ok s'.
Proof.
  intros Hb.
  destruct (for_each_total_invariant (λ _ _, True) body l s) as (s' & Hs' & _);
    [done| |by exists s'].
  intros pre a s1 _ Ha. destruct (Hb s1 a Ha) as [s2 Hs2]. by exists s2.
Qed.

Lemma count_days_exact (weekdays : list Z) (f : HasFrequency) (days : list Z) :
  let f' := foldl (count_day weekdays) f days in
  weekday_trips f'
  = weekday_trips f + Z.of_nat (length (filter (λ d, weekday d ∈ weekdays) days))
  ∧ weekend_trips f'
    = weekend_trips f + Z.of_nat (length (filter (λ d, weekday d ∉ weekdays) days)).
Proof.
  revert f. induction days as [|d days IH]; intros f; simpl; [lia|].
  destruct (IH (count_day weekdays f d)) as [-> ->].
  rewrite !filter_cons. unfold count_day. case_bool_decide as Hd.
  - rewrite decide_True, decide_False by tauto. simpl. lia.
  - rewrite decide_False, decide_True by tauto. simpl. lia.
Qed.

Lemma length_filter_repeat {A B} (P : B → Prop) `{∀ y, Decision (P y)}
    (l : list A) (days : list B) :
  length (filter P (l ≫= λ _, days)) = (length l * length (filter P days))%nat.
Proof.
  induction l as [|a l IH]; [done|]. csimpl. rewrite filter_app, length_app, IH. lia.
Qed.

Section stage456_behaviour.
Variable weekdays : list Z.
Variables start_date_ end_date_ : Z.
Variable trips : list Trip.
Variable trips_to_route_stories : gmap Z RouteStory.

(** X7: stage 4 raises [KeyError] when a trip it selects has no entry in the
    trip-to-route-story table.  Otherwise it returns, keeps the keys, and adds
    to the weekday and weekend counters of each route story the number of its
    selected trips times the number of weekdays, respectively of other days,
    in the analysis window. *)
Theorem route_story_frequency_counts (d : odict Z ExtendedRouteStory) :
  let selected := filter (λ trip, trip_selected start_date_ end_date_ trip = true) trips in
  let window := date_range start_date_ end_date_ in
  let run := route_story_frequency weekdays start_date_ end_date_ trips
               trips_to_route_stories d in
  (Exists (λ trip, trips_to_route_stories !! trip_id trip = None) selected →
   run = Raise KeyError)
  ∧ (Forall (λ trip, is_Some (trips_to_route_stories !! trip_id trip)) selected →
     ∃ d', run = Ok d'
       ∧ Dict.keys d' = Dict.keys d
       ∧ ∀ k e, Dict.get k d = Some e →
           ∃ e', Dict.get k d' = Some e'
             ∧ e' = with_ers_frequency e (ers_frequency e')
             ∧ let n := Z.of_nat (length (filter (mapped_to trips_to_route_stories k)
                                            selected)) in
               weekday_trips (ers_frequency e')
               = weekday_trips (ers_frequency e)
                 + n * Z.of_nat (length (filter (λ day, weekday day ∈ weekdays) window))
               ∧ weekend_trips (ers_frequency e')
                 = weekend_trips (ers_frequency e)
                   + n * Z.of_nat (length (filter (λ day, weekday day ∉ weekdays) window))).
Proof.
  intros selected window run. split.
  - intros (trip & Htrip & Hnone)%Exists_exists. unfold run, route_story_frequency.
    cbv zeta.
    match goal with |- ?r = _ => destruct r as [d'|x] eqn:Hrun end.
    + destruct (for_each_Ok_elem _ _ _ _ Hrun trip Htrip) as (s1 & s2 & Hb).
      rewrite Hnone in Hb. done.
    + apply for_each_Raise_inv in Hrun as (a & s1 & _ & Hb). f_equal.
      destruct (trips_to_route_stories !! trip_id a); simpl in Hb; [|congruence].
      by destruct (Dict.get _ s1).
  - intros Hall. rewrite Forall_forall in Hall.
    destruct (for_each_total
                (λ extended_route_stories trip,
                   let! entry := getitem (trips_to_route_stories !! trip_id trip) in
                   let route_story_id := route_story_id entry in
                   match Dict.get route_story_id extended_route_stories with
                   | Some extended_route_story =>
                       let f := foldl (count_day weekdays)
                                  (ers_frequency extended_route_story)
                                  (date_range start_date_ end_date_) in
                       Ok (Dict.set route_story_id
                             (with_ers_frequency extended_route_story f)
                             extended_route_stories)
                   | None => Ok extended_route_stories
                   end) selected d) as [d' Hd'].
    { intros s1 trip Htrip. destruct (Hall trip Htrip) as [entry ->]. simpl.
      destruct (Dict.get _ s1); by eexists. }
    exists d'. split; [exact Hd'|].
    apply route_story_frequency_spec in Hd' as [Hkeys Hget]. split; [done|].
    intros k e He. rewrite Hget, He.
    exists (with_ers_frequency e
              (foldl (count_day weekdays) (ers_frequency e)
                 (counted_days start_date_ end_date_ trips_to_route_stories k selected))).
    split; [done|]. split; [done|]. cbn [ers_frequency with_ers_frequency].
    destruct (count_days_exact weekdays (ers_frequency e)
                (counted_days start_date_ end_date_ trips_to_route_stories k selected))
      as [-> ->].
    unfold counted_days. rewrite !length_filter_repeat. fold selected window. lia.
Qed.

(** X8: stage 5 raises [KeyError] when any trip has no entry in the
    trip-to-route-story table.  Otherwise it returns, keeps the keys, and
    gives each route story the route of the last of its trips, in the order
    of the trips; a route story without trips is left as it is. *)
Theorem route_story_to_route_last_trip (d : odict Z ExtendedRouteStory) :
  let run := route_story_to_route trips trips_to_route_stories d in
  (Exists (λ trip, trips_to_route_stories !! trip_id trip = None) trips →
   run = Raise KeyError)
  ∧ (Forall (λ trip, is_Some (trips_to_route_stories !! trip_id trip)) trips →
     ∃ d', run = Ok d'
       ∧ Dict.keys d' = Dict.keys d
       ∧ ∀ k e, Dict.get k d = Some e →
           Dict.get k d'
           = Some match last (filter (mapped_to trips_to_route_stories k) trips) with
                  | Some trip => with_route e (trip_route trip)
                  | None => e
                  end).
Proof.
  intros run. split.
  - intros (trip & Htrip & Hnone)%Exists_exists. unfold run, route_story_to_route.
    match goal with |- ?r = _ => destruct r as [d'|x] eqn:Hrun end.
    + destruct (for_each_Ok_elem _ _ _ _ Hrun trip Htrip) as (s1 & s2 & Hb).
      rewrite Hnone in Hb. done.
    + apply for_each_Raise_inv in Hrun as (a & s1 & _ & Hb). f_equal.
      destruct (trips_to_route_stories !! trip_id a); simpl in Hb; [|congruence].
      by destruct (Dict.get _ s1).
  - intros Hall. rewrite Forall_forall in Hall.
    destruct (for_each_total
                (λ extended_route_stories trip,
                   let! entry := getitem (trips_to_route_stories !! trip_id trip) in
                   let route_story_id := route_story_id entry in
                   match Dict.get route_story_id extended_route_stories with
                   | Some extended_route_story =>
                       Ok (Dict.set route_story_id
                             (with_route extended_route_story (trip_route trip))
                             extended_route_stories)
                   | None => Ok extended_route_stories
                   end) trips d) as [d' Hd'].
    { intros s1 trip Htrip. destruct (Hall trip Htrip) as [entry ->]. simpl.
      destruct (Dict.get _ s1); by eexists. }
    exists d'. split; [exact Hd'|].
    apply route_story_to_route_spec in Hd' as [Hkeys Hget]. split; [done|].
    intros k e He. by rewrite Hget, He.
Qed.

End stage456_behaviour.

Lemma route_story_frequency_counts_witness :
  route_story_frequency example_weekdays 100 107 [example_trip 90 120] ∅
    [(7, example_story)] = Raise KeyError
  ∧ ∃ d' e',
      route_story_frequency example_weekdays 100 107 [example_trip 90 120]
        example_trips_to_route_stories [(7, example_story)] = Ok d'
      ∧ Dict.get 7 d' = Some e'
      ∧ weekday_trips (ers_frequency e') = 6
      ∧ weekend_trips (ers_frequency e') = 2.
Proof.
  split.
  - apply (route_story_frequency_counts example_weekdays 100 107 [example_trip 90 120] ∅
             [(7, example_story)]).
    vm_compute. apply Exists_cons_hd. reflexivity.
  - destruct (proj2 (route_story_frequency_counts example_weekdays 100 107
                       [example_trip 90 120] example_trips_to_route_stories
                       [(7, example_story)])) as (d' & Hd' & _ & Hget).
    { vm_compute. repeat constructor. by eexists. }
    destruct (Hget 7 example_story eq_refl) as (e' & He' & _ & Hwd & Hwe).
    exists d', e'. split_and!; [done..| |].
    + rewrite Hwd. vm_compute. reflexivity.
    + rewrite Hwe. vm_compute. reflexivity.
Defined.

Lemma route_story_to_route_last_trip_witness :
  route_story_to_route [example_trip 90 120] ∅ [(7, example_story)] = Raise KeyError
  ∧ ∃ d',
      route_story_to_route [example_trip 90 120] example_trips_to_route_stories
        [(7, example_story)] = Ok d'
      ∧ Dict.get 7 d' = Some (with_route example_story example_route).
Proof.
  split.
  - apply (route_story_to_route_last_trip [example_trip 90 120] ∅ [(7, example_story)]).
    apply Exists_cons_hd. reflexivity.
  - destruct (proj2 (route_story_to_route_last_trip [example_trip 90 120]
                       example_trips_to_route_stories [(7, example_story)]))
      as (d' & Hd' & _ & Hget).
    { repeat constructor. by eexists. }
    exists d'. split; [done|]. rewrite (Hget 7 example_story eq_refl).
    vm_compute. reflexivity.
Defined.

(** X9: when the station stop of every pair is a key of the near-station
    table, as stages 2 and 3 leave it, the first loop of stage 6 returns
    exactly when every route story has a route; a route story without one,
    that is one no trip belongs to, stops stage 6 with [AttributeError]. *)
Theorem route_stops_and_stations_needs_routes
    (stops_near_stations : gmap Z StationAndDistance)
    (d : odict Z ExtendedRouteStory) :
  (∀ e p, e ∈ Dict.values d → p ∈ stop_and_station e →
          is_Some (stops_near_stations !! stop_id p.2)) →
  (Exists (λ e, route e = None) (Dict.values d) →
   route_stops_and_stations stops_near_stations d = Raise AttributeError)
  ∧ (Forall (λ e, is_Some (route e)) (Dict.values d) →
     ∃ extended_routes,
       route_stops_and_stations_sum stops_near_stations d = Ok extended_routes).
Proof.
  intros Hnear. split.
  - intros (e & He & Hnone)%Exists_exists. unfold route_stops_and_stations.
    destruct (route_stops_and_stations_sum stops_near_stations d) as [routes|x] eqn:Hsum.
    + apply route_stops_and_stations_sum_spec in Hsum as (_ & Hall & _).
      rewrite Forall_forall in Hall. destruct (Hall e He) as [r Hr]. congruence.
    + simpl. f_equal. unfold route_stops_and_stations_sum in Hsum.
      apply for_each_Raise_inv in Hsum as (e1 & routes & He1 & Hb).
      destruct (route e1) as [r|]; simpl in Hb; [|congruence].
      destruct (Dict.setdefault (route_id r) (ExtendedRoute_init r) routes) as [er0 routes0].
      match type of Hb with
      | rbind ?m _ = _ => destruct m as [er|y] eqn:Hinner; simpl in Hb; [done|]
      end.
      apply for_each_Raise_inv in Hinner as (p & er1 & Hp & Hbp).
      destruct (Hnear e1 p He1 Hp) as [sd Hsd]. rewrite Hsd in Hbp. done.
  - intros Hall. rewrite Forall_forall in Hall. unfold route_stops_and_stations_sum.
    apply for_each_total. intros routes e He. destruct (Hall e He) as [r ->]. simpl.
    destruct (Dict.setdefault (route_id r) (ExtendedRoute_init r) routes) as [er0 routes0].
    match goal with
    | |- ∃ s2, rbind (for_each ?body ?l ?s) _ = _ =>
        destruct (for_each_total body l s) as [er Her]
    end.
    { intros er1 p Hp. destruct (Hnear e p He Hp) as [sd ->]. simpl. by eexists. }
    rewrite Her. simpl. by eexists.
Qed.

Lemma route_stops_and_stations_needs_routes_witness :
  let near := find_station_stops 300 false example_distance in
  route_stops_and_stations near [(7, example_story)] = Raise AttributeError
  ∧ ∃ extended_routes,
      route_stops_and_stations_sum near [(7, example_story_counted)] = Ok extended_routes.
Proof.
  intros near.
  assert (∀ d : odict Z ExtendedRouteStory,
            Dict.values d = [example_story] ∨ Dict.values d = [example_story_counted] →
            ∀ e p, e ∈ Dict.values d → p ∈ stop_and_station e →
                   is_Some (near !! stop_id p.2)) as Hnear.
  { intros d Hd e p He Hp.
    assert (p.2 = example_S) as ->.
    { destruct Hd as [Hd|Hd]; rewrite Hd in He; apply list_elem_of_singleton in He;
        subst e; vm_compute in Hp;
        repeat (apply elem_of_cons in Hp as [->|Hp]); try done;
        by apply elem_of_nil in Hp. }
    vm_compute. by eexists. }
  split.
  - apply (route_stops_and_stations_needs_routes near [(7, example_story)]).
    + apply Hnear. by left.
    + apply Exists_cons_hd. reflexivity.
  - apply (route_stops_and_stations_needs_routes near [(7, example_story_counted)]).
    + apply Hnear. by right.
    + repeat constructor. by eexists.
Defined.

(** ** Stage 7 and the exporter, further *)

(** Every extended route of stage 6 is filed under the identifier of its own
    route. *)
Lemma route_stops_and_stations_keys (stops_near_stations : gmap Z StationAndDistance)
    (d : odict Z ExtendedRouteStory) (extended_routes : odict Z ExtendedRoute) :
  route_stops_and_stations stops_near_stations d = Ok extended_routes →
  NoDup (Dict.keys extended_routes)
  ∧ Forall (λ kv, route_id (er_route kv.2) = kv.1
                  ∧ NoDup (Dict.keys (stops_to_station_to_travel_time kv.2)))
      extended_routes.
Proof.
  intros H. unfold route_stops_and_stations in H. inv_bind H. rename x into routes0.
  destruct (for_values_entries _ _ _ H) as (Hkeys & Hback & _).
  assert (∀ rid er, Dict.get rid routes0 = Some er → route_id (er_route er) = rid) as Hid.
  { revert Hx. unfold route_stops_and_stations_sum.
    apply (for_each_invariant (λ _ routes,
             ∀ rid er, Dict.get rid routes = Some er → route_id (er_route er) = rid));
      [done|].
    intros _ e routes routes' IH _ Hb. inv_bind Hb. rename x into r.
    unfold Dict.setdefault in Hb.
    destruct (Dict.get (route_id r) routes) as [er0|] eqn:Hg.
    - inv_bind Hb. subst routes'.
      apply (for_each_invariant (λ _ er', er_route er' = er_route er0)) in Hx0; [|done|].
      2: { intros _ p er1 er1' Hr _ Hbp. inv_bind Hbp. by subst er1'. }
      intros rid er. rewrite get_set. case_decide as Hrid; [|by apply IH].
      intros [= <-]. rewrite Hx0. subst rid. by apply IH.
    - inv_bind Hb. subst routes'.
      apply (for_each_invariant (λ _ er', er_route er' = r)) in Hx0; [|done|].
      2: { intros _ p er1 er1' Hr _ Hbp. inv_bind Hbp. by subst er1'. }
      intros rid er. rewrite get_set. case_decide as Hrid.
      + intros [= <-]. by rewrite Hx0.
      + rewrite get_set_ne by done. by apply IH. }
  apply route_stops_and_stations_sum_spec in Hx as (Hnd0 & _ & Hget0).
  split; [by rewrite Hkeys|].
  apply Forall_forall. intros [rid er] Hin. simpl.
  destruct (Hback rid er Hin) as (er0 & Hin0 & Hb).
  apply divide_route_spec in Hb as (_ & -> & ->).
  apply elem_get in Hin0; [|done]. split; [by apply Hid|].
  specialize (Hget0 rid). rewrite Hin0 in Hget0. by destruct Hget0 as (_ & _ & _ & ?).
Qed.

(** X10: after stages 6 and 7 an aggregate exists for a (stop, station) pair
    exactly when some extended route holds the pair; it carries the pair as
    its identifiers, and its [routes] are the routes of the extended routes
    that hold the pair, each once, in the order of [extended_routes], so no
    route identifier occurs twice in it. *)
Theorem aggregate_routes (stops_near_stations : gmap Z StationAndDistance)
    (d : odict Z ExtendedRouteStory) (extended_routes : odict Z ExtendedRoute)
    (key : Z * Z) :
  route_stops_and_stations stops_near_stations d = Ok extended_routes →
  match Dict.get key (aggregate_by_stop_sum extended_routes) with
  | Some s =>
      sas_stop_id s = key.1 ∧ sas_station_id s = key.2
      ∧ routes s = er_route <$> contributing key (Dict.values extended_routes)
      ∧ routes s ≠ []
      ∧ NoDup (route_id <$> routes s)
  | None => contributing key (Dict.values extended_routes) = []
  end.
Proof.
  intros (Hnd & Hall)%route_stops_and_stations_keys.
  destruct (aggregate_by_stop_sum_spec extended_routes) as [_ Hget].
  { apply Forall_forall. intros er (rid & Hin)%elem_of_values.
    rewrite Forall_forall in Hall. by destruct (Hall _ Hin). }
  specialize (Hget key).
  destruct (Dict.get key (aggregate_by_stop_sum extended_routes)) as [s|]; [|done].
  destruct Hget as (Hne & _ & _ & Hr & Hi1 & Hi2). split_and!; [done..| |].
  - rewrite Hr. by destruct (contributing key (Dict.values extended_routes)).
  - rewrite Hr, <- list_fmap_compose.
    assert ((route_id ∘ er_route) <$> Dict.values extended_routes
            = Dict.keys extended_routes) as Hids.
    { unfold Dict.values, Dict.keys. rewrite <- list_fmap_compose.
      apply Forall_fmap_ext_1. eapply Forall_impl; [exact Hall|]. by intros kv [? _]. }
    rewrite <- Hids in Hnd. eapply sublist_NoDup; [exact Hnd|].
    unfold contributing. apply fmap_sublist, sublist_filter.
Qed.

Lemma aggregate_routes_witness :
  let near := find_station_stops 300 false example_distance in
  ∃ extended_routes s,
    route_stops_and_stations near [(7, example_story_counted)] = Ok extended_routes
    ∧ Dict.get (1, 100) (aggregate_by_stop_sum extended_routes) = Some s
    ∧ routes s = [example_route]
    ∧ NoDup (route_id <$> routes s).
Proof.
  intros near. do 2 eexists. split; [vm_compute; reflexivity|].
  split; [vm_compute; reflexivity|]. split; [reflexivity|].
  pose proof (aggregate_routes near [(7, example_story_counted)] _ (1, 100)
                ltac:(vm_compute; reflexivity)) as H.
  vm_compute in H. vm_compute. tauto.
Defined.

(** X11: the exporter raises [KeyError] when the stop or the station of an
    aggregate is missing from the stops of the reader; otherwise it writes one
    row per aggregate, in the order of the aggregates, carrying the
    aggregate's identifiers and counters in decimal. *)
Theorem export_needs_stops (gtfs_stops : gmap Z Stop)
    (stop_and_stations : odict (Z * Z) StopAndStation) :
  let known s := is_Some (gtfs_stops !! sas_stop_id s)
                 ∧ is_Some (gtfs_stops !! sas_station_id s) in
  (Exists (λ s, ¬ known s) (Dict.values stop_and_stations) →
   export_stop_and_station gtfs_stops stop_and_stations = Raise KeyError)
  ∧ (Forall known (Dict.values stop_and_stations) →
     ∃ rows,
       export_stop_and_station gtfs_stops stop_and_stations = Ok rows
       ∧ Forall2 (λ s row,
             Csv.stop_id row = str (sas_stop_id s)
             ∧ Csv.station_id row = str (sas_station_id s)
             ∧ Csv.weekday_trips row = str (weekday_trips (sas_frequency s))
             ∧ Csv.weekend_trips row = str (weekend_trips (sas_frequency s)))
           (Dict.values stop_and_stations) rows).
Proof.
  intros known. unfold export_stop_and_station.
  induction (Dict.values stop_and_stations) as [|s l [IHbad IHok]]; cbn [traverse].
  { split; [by intros ?%Exists_nil|]. intros _. exists []. split; [done|constructor]. }
  assert (known s ∨ export_row gtfs_stops s = Raise KeyError) as [[[a Ha] [b Hb]]|Hraise].
  { unfold known, export_row.
    destruct (gtfs_stops !! sas_stop_id s) as [a|]; [|by right].
    destruct (gtfs_stops !! sas_station_id s) as [b|]; [|by right].
    left. split; by eexists. }
  - assert (∃ row, export_row gtfs_stops s = Ok row
                   ∧ Csv.stop_id row = str (sas_stop_id s)
                   ∧ Csv.station_id row = str (sas_station_id s)
                   ∧ Csv.weekday_trips row = str (weekday_trips (sas_frequency s))
                   ∧ Csv.weekend_trips row = str (weekend_trips (sas_frequency s)))
      as (row & -> & Hrow).
    { unfold export_row. rewrite Ha, Hb. simpl. eexists. split; [done|]. by simpl. }
    simpl. split.
    + intros [Hs|Hl]%Exists_cons.
      * destruct Hs. split; by eexists.
      * by rewrite (IHbad Hl).
    + intros [_ Hl]%Forall_cons. destruct (IHok Hl) as (rows & -> & Hrows).
      simpl. eexists. split; [done|]. by constructor.
  - rewrite Hraise. simpl. split; [done|].
    intros [[[a Ha] [b Hb]] _]%Forall_cons.
    unfold export_row in Hraise. rewrite Ha, Hb in Hraise. done.
Qed.

Lemma export_needs_stops_witness :
  export_stop_and_station ∅ [((1, 100), example_aggregate)] = Raise KeyError
  ∧ ∃ rows,
      export_stop_and_station example_stops [((1, 100), example_aggregate)] = Ok rows
      ∧ length rows = 1%nat.
Proof.
  split.
  - apply (export_needs_stops ∅ [((1, 100), example_aggregate)]).
    apply Exists_cons_hd. intros [[a Ha] _]. done.
  - destruct (proj2 (export_needs_stops example_stops [((1, 100), example_aggregate)]))
      as (rows & Hrows & Hall).
    { repeat constructor; by eexists. }
    exists rows. split; [done|]. by apply Forall2_length in Hall.
Defined.

(** ** The weighted average of stage 7 *)






(** ** The result filter, further *)

(** A stage of the filter that is switched on or off by a flag. *)
Lemma optional_keep_if {A} (on : bool) (p : A → result bool) (q : A → bool) (l : list A) :
  Forall (λ a, on = true → p a = Ok (q a)) l →
  (if on then keep_if p l else Ok l) = Ok (filter (λ a, negb on || q a = true) l).
Proof.
  intros Hall. destruct on; simpl.
  - apply keep_if_filter. eapply Forall_impl; [exact Hall|]. simpl. auto.
  - by rewrite filter_all by by apply Forall_true.
Qed.

(** X13: with nearest-only off and every column the filter reads holding an
    integer, the filter returns, in their order, exactly the rows that pass
    all of its tests: travel time within the limit unless the limit is -1,
    station in the set to include if that set is given and not empty,
    station not in the set to exclude if that set is given and not empty,
    weekday trips at least the minimum. *)
Theorem filter_keeps_passing_rows (int : string → option Z) (records : list Csv.t)
    (max_time_difference_from_station : Z)
    (stations_to_include stations_to_exclude : option (gset Z))
    (min_weekday_trips : Z) :
  Forall (λ r, is_Some (int (Csv.travel_time r))
               ∧ is_Some (int (Csv.station_id r))
               ∧ is_Some (int (Csv.weekday_trips r))) records →
  filter_station_access_results int records max_time_difference_from_station
    stations_to_include stations_to_exclude false min_weekday_trips
  = Ok (filter (λ r, row_kept int max_time_difference_from_station stations_to_include
                       stations_to_exclude min_weekday_trips r = true) records).
Proof.
  intros Hparse. unfold filter_station_access_results.
  assert (∀ l : list Csv.t, l `sublist_of` records →
            Forall (λ r, is_Some (int (Csv.travel_time r))
                         ∧ is_Some (int (Csv.station_id r))
                         ∧ is_Some (int (Csv.weekday_trips r))) l) as Hsub.
  { intros l Hl. rewrite Forall_forall in Hparse. apply Forall_forall. intros r Hr.
    apply Hparse. by eapply elem_of_sublist. }
  assert (∀ s z, int s = Some z → int_of int s = Ok (default 0 (int s))) as Hint.
  { intros s z Hs. unfold int_of. by rewrite Hs. }
  rewrite (optional_keep_if (bool_decide (max_time_difference_from_station ≠ -1)) _
             (λ r, bool_decide (default 0 (int (Csv.travel_time r))
                                <= max_time_difference_from_station))).
  2: { eapply Forall_impl; [exact Hparse|]. intros r ([t Ht] & _) _. simpl.
       by rewrite (Hint _ _ Ht). }
  simpl.
  rewrite (optional_keep_if (truthy stations_to_include) _
             (λ r, member (default 0 (int (Csv.station_id r))) stations_to_include)).
  2: { eapply Forall_impl; [apply Hsub, sublist_filter|].
       intros r (_ & [z Hz] & _) _. simpl. by rewrite (Hint _ _ Hz). }
  simpl.
  rewrite (optional_keep_if (truthy stations_to_exclude) _
             (λ r, negb (member (default 0 (int (Csv.station_id r))) stations_to_exclude))).
  2: { eapply Forall_impl; [apply Hsub; etrans; apply sublist_filter|].
       intros r (_ & [z Hz] & _) _. simpl. by rewrite (Hint _ _ Hz). }
  simpl.
  rewrite (keep_if_filter _
             (λ r, bool_decide (default 0 (int (Csv.weekday_trips r)) >= min_weekday_trips))).
  2: { eapply Forall_impl; [apply Hsub; etrans; [|etrans]; apply sublist_filter|].
       intros r (_ & _ & [z Hz]). simpl. by rewrite (Hint _ _ Hz). }
  f_equal. rewrite !list_filter_filter. apply list_filter_iff. intros r.
  unfold row_kept. rewrite !andb_true_iff.
  destruct (decide (max_time_difference_from_station = -1)) as [Hm|Hm].
  - rewrite (bool_decide_eq_false_2 (_ ≠ _)), (bool_decide_eq_true_2 (_ = -1)) by tauto.
    simpl. tauto.
  - rewrite (bool_decide_eq_true_2 (_ ≠ _)), (bool_decide_eq_false_2 (_ = -1)) by tauto.
    simpl. tauto.
Qed.

Lemma filter_keeps_passing_rows_witness :
  let r1 := example_row "1" "100" "10" "7" in
  let r2 := example_row "2" "100" "30" "9" in
  let r3 := example_row "3" "101" "5" "12" in
  let r4 := example_row "4" "102" "5" "2" in
  filter_station_access_results decimal [r1; r2; r3; r4] 20 None (Some {[101]}) false 5
  = Ok [r1].
Proof.
  intros r1 r2 r3 r4.
  rewrite (filter_keeps_passing_rows decimal [r1; r2; r3; r4] 20 None (Some {[101]}) 5).
  - vm_compute. reflexivity.
  - repeat constructor; vm_compute; by eexists.
Defined.

Lemma set_notin {K V} `{EqDecision K} (k : K) (v : V) (d : odict K V) :
  k ∉ Dict.keys d → Dict.set k v d = d ++ [(k, v)].
Proof.
  unfold Dict.keys. induction d as [|[k' v'] d IH]; csimpl; intros Hk; [done|].
  apply not_elem_of_cons in Hk as [Hne Hk]. rewrite decide_False by done.
  by rewrite IH.
Qed.

Lemma optional_keep_if_inv {A} (on : bool) (p : A → result bool) (l l' : list A) :
  (if on then keep_if p l else Ok l) = Ok l' →
  l' `sublist_of` l ∧ (on = true → Forall (λ a, p a = Ok true) l').
Proof.
  intros Hl. destruct on.
  - apply keep_if_Ok_inv in Hl as [? ?]. by split.
  - injection Hl as <-. by split.
Qed.

Section nearest_station_more.
Variable int : string → option Z.

(** Whatever the rows hold, the loop of nearest-only selection files every
    row it keeps under the row's own stop, and keeps rows of the input only. *)
Lemma nearest_station_loop_sound (records : list Csv.t) (d : odict string Csv.t) :
  nearest_station_loop int records = Ok d →
  NoDup (Dict.keys d)
  ∧ ∀ s r, (s, r) ∈ d → Csv.stop_id r = s ∧ r ∈ records.
Proof.
  unfold nearest_station_loop.
  apply (for_each_invariant (λ pre d,
           NoDup (Dict.keys d) ∧ ∀ s r, (s, r) ∈ d → Csv.stop_id r = s ∧ r ∈ pre)).
  { split; [constructor|]. by intros s r ?%elem_of_nil. }
  intros pre r d1 d2 [Hnd Hin] _ Hb. inv_bind Hb. subst d2.
  assert (∀ s r', (s, r') ∈ d1 → Csv.stop_id r' = s ∧ r' ∈ pre ++ [r]) as Hin'.
  { intros s r' Hr'. destruct (Hin s r' Hr'). split; [done|]. apply elem_of_app. by left. }
  destruct x; [|done]. split; [by apply NoDup_keys_set|].
  intros s r' [Hr'|[-> ->]]%elem_of_set; [by apply Hin'|].
  split; [done|]. apply elem_of_app. right. by left.
Qed.

Lemma nearest_station_sound (records out : list Csv.t) :
  nearest_station int records = Ok out →
  NoDup (Csv.stop_id <$> out) ∧ ∀ r, r ∈ out → r ∈ records.
Proof.
  unfold nearest_station. intros H. inv_bind H. subst out.
  apply nearest_station_loop_sound in Hx as [Hnd Hin]. split.
  - assert (Csv.stop_id <$> Dict.values x = Dict.keys x) as ->; [|done].
    unfold Dict.values, Dict.keys. rewrite <- list_fmap_compose.
    apply Forall_fmap_ext_1, Forall_forall. intros [s r] Hsr. simpl. by apply Hin.
  - intros r (s & Hsr)%elem_of_values. by apply (Hin s r).
Qed.

(** Rows of different stops are all kept, without a look at their travel
    times. *)
Lemma nearest_station_distinct_stops (records : list Csv.t) :
  NoDup (Csv.stop_id <$> records) → nearest_station int records = Ok records.
Proof.
  intros Hnd. unfold nearest_station, nearest_station_loop.
  assert (∀ d : odict string Csv.t,
            (∀ r, r ∈ records → Csv.stop_id r ∉ Dict.keys d) →
            for_each (λ stop_to_record r,
                let stop_id := Csv.stop_id r in
                let! closer :=
                  match Dict.get stop_id stop_to_record with
                  | None => Ok true
                  | Some r0 =>
                      let! a := int_of int (Csv.travel_time r) in
                      let! b := int_of int (Csv.travel_time r0) in
                      Ok (bool_decide (a < b))
                  end in
                Ok (if closer then Dict.set stop_id r stop_to_record else stop_to_record))
              records d
            = Ok (d ++ ((λ r, (Csv.stop_id r, r)) <$> records))) as Hgen.
  { induction records as [|r l IH]; intros d Hd; [by rewrite app_nil_r|].
    csimpl in Hnd. apply NoDup_cons in Hnd as [Hr Hnd].
    assert (Csv.stop_id r ∉ Dict.keys d) as Hfresh by (apply Hd; by left).
    cbn [for_each]. rewrite (proj2 (get_None _ _) Hfresh). simpl.
    rewrite set_notin by done. rewrite (IH Hnd).
    - by rewrite <- app_assoc.
    - intros r' Hr'. unfold Dict.keys. rewrite fmap_app, not_elem_of_app. split.
      + apply Hd. by right.
      + csimpl. rewrite list_elem_of_singleton. intros Heq. apply Hr.
        apply list_elem_of_fmap. by exists r'. }
  rewrite Hgen by (intros r _; apply not_elem_of_nil). simpl. f_equal.
  unfold Dict.values. rewrite <- list_fmap_compose. apply list_fmap_id.
Qed.

(** X14: every row the filter returns is a row of its input, whatever the
    switches; with nearest-only on, no two returned rows have the same
    stop. *)
Theorem filter_returns_input_rows (records out : list Csv.t)
    (max_time_difference_from_station : Z)
    (stations_to_include stations_to_exclude : option (gset Z))
    (only_nearest_station : bool) (min_weekday_trips : Z) :
  filter_station_access_results int records max_time_difference_from_station
    stations_to_include stations_to_exclude only_nearest_station min_weekday_trips
  = Ok out →
  (∀ r, r ∈ out → r ∈ records)
  ∧ (only_nearest_station = true → NoDup (Csv.stop_id <$> out)).
Proof.
  unfold filter_station_access_results. intros H. inv_bind H.
  rename x into r1, x0 into r2, x1 into r3, x2 into r4.
  apply optional_keep_if_inv in Hx as [H1 _]. apply optional_keep_if_inv in Hx0 as [H2 _].
  apply optional_keep_if_inv in Hx1 as [H3 _].
  apply keep_if_Ok_inv in H as [H5 _].
  assert (∀ r, r ∈ r3 → r ∈ records) as Hin3.
  { intros r Hr. eapply elem_of_sublist; [|exact H1].
    eapply elem_of_sublist; [|exact H2]. by eapply elem_of_sublist. }
  destruct only_nearest_station.
  - apply nearest_station_sound in Hx2 as [Hnd Hin4]. split.
    + intros r Hr. apply Hin3, Hin4. by eapply elem_of_sublist.
    + intros _. eapply sublist_NoDup; [exact Hnd|]. by apply fmap_sublist.
  - injection Hx2 as <-. split; [|done].
    intros r Hr. apply Hin3. by eapply elem_of_sublist.
Qed.

(** X15: filtering what the filter returned, with the same switches, returns
    it again unchanged. *)
Theorem filter_idempotent (records out : list Csv.t)
    (max_time_difference_from_station : Z)
    (stations_to_include stations_to_exclude : option (gset Z))
    (only_nearest_station : bool) (min_weekday_trips : Z) :
  filter_station_access_results int records max_time_difference_from_station
    stations_to_include stations_to_exclude only_nearest_station min_weekday_trips
  = Ok out →
  filter_station_access_results int out max_time_difference_from_station
    stations_to_include stations_to_exclude only_nearest_station min_weekday_trips
  = Ok out.
Proof.
  unfold filter_station_access_results. intros H. inv_bind H.
  rename x into r1, x0 into r2, x1 into r3, x2 into r4.
  apply keep_if_Ok_inv in H as [H5 Hall5].
  assert (r4 `sublist_of` r3 ∨ ∀ r, r ∈ r4 → r ∈ r3) as H4.
  { destruct only_nearest_station.
    - right. by apply nearest_station_sound in Hx2 as [_ ?].
    - left. injection Hx2 as <-. reflexivity. }
  assert (∀ r, r ∈ out → r ∈ r3) as Hin3.
  { intros r Hr. apply (elem_of_sublist _ _ _ Hr) in H5.
    destruct H4 as [H4|H4]; [exact (elem_of_sublist _ _ _ H5 H4)|by apply H4]. }
  apply optional_keep_if_inv in Hx as [H1 Hall1].
  apply optional_keep_if_inv in Hx0 as [H2 Hall2].
  apply optional_keep_if_inv in Hx1 as [H3 Hall3].
  assert (∀ (on : bool) (p : Csv.t → result bool) (l : list Csv.t),
            (on = true → Forall (λ a, p a = Ok true) l) →
            (∀ r, r ∈ out → r ∈ l) →
            (if on then keep_if p out else Ok out) = Ok out) as Hagain.
  { intros on p l Hl Hsub. destruct on; [|done]. apply keep_if_all.
    specialize (Hl eq_refl). rewrite Forall_forall in Hl. apply Forall_forall.
    intros r Hr. by apply Hl, Hsub. }
  rewrite (Hagain _ _ r1 Hall1); simpl.
  2: { intros r Hr. eapply elem_of_sublist; [|exact H2].
       eapply elem_of_sublist; [|exact H3]. by apply Hin3. }
  rewrite (Hagain _ _ r2 Hall2); simpl.
  2: { intros r Hr. eapply elem_of_sublist; [|exact H3]. by apply Hin3. }
  rewrite (Hagain _ _ r3 Hall3); simpl; [|done].
  assert ((if only_nearest_station then nearest_station int out else Ok out) = Ok out)
    as ->.
  { destruct only_nearest_station; [|done]. apply nearest_station_distinct_stops.
    apply nearest_station_sound in Hx2 as [Hnd _].
    eapply sublist_NoDup; [exact Hnd|]. by apply fmap_sublist. }
  simpl. by apply keep_if_all.
Qed.

End nearest_station_more.

Lemma filter_returns_input_rows_witness :
  let r1 := example_row "1" "100" "10" "7" in
  let r2 := example_row "2" "100" "30" "9" in
  let r3 := example_row "1" "101" "5" "12" in
  ∃ out,
    filter_station_access_results decimal [r1; r2; r3] 40 None None true 0 = Ok out
    ∧ out = [r3; r2]
    ∧ (∀ r, r ∈ out → r ∈ [r1; r2; r3])
    ∧ (true = true → NoDup (Csv.stop_id <$> out)).
Proof.
  intros r1 r2 r3. eexists. split; [vm_compute; reflexivity|]. split; [reflexivity|].
  apply (filter_returns_input_rows decimal [r1; r2; r3] _ 40 None None true 0).
  vm_compute. reflexivity.
Defined.

Lemma filter_idempotent_witness :
  let r1 := example_row "1" "100" "10" "7" in
  let r2 := example_row "2" "100" "30" "9" in
  let r3 := example_row "1" "101" "5" "12" in
  filter_station_access_results decimal [r3; r2] 40 None None true 0 = Ok [r3; r2].
Proof.
  intros r1 r2 r3.
  apply (filter_idempotent decimal [r1; r2; r3] [r3; r2] 40 None None true 0).
  vm_compute. reflexivity.
Defined.

(** ** The analysis window and a run without stops near stations *)

(** X16: [date_range] yields the days from [start_date] to [end_date], both
    included, in ascending order and nothing else: none when [end_date] is
    before [start_date], and eight when the constructor is given no
    [end_date]. *)
Theorem date_range_days (start_date end_date : Z) :
  (∀ (i : nat) (d : Z),
     date_range start_date end_date !! i = Some d
     ↔ d = start_date + Z.of_nat i ∧ d <= end_date)
  ∧ length (date_range start_date end_date) = Z.to_nat (end_date - start_date + 1)
  ∧ length (date_range start_date (default_end_date start_date None)) = 8%nat.
Proof.
  split_and!.
  - intros i d. rewrite date_range_seqZ, lookup_seqZ. lia.
  - apply length_date_range.
  - rewrite length_date_range. simpl. lia.
Qed.

Lemma station_stops_of_empty (rs : RouteStory) : station_stops_of ∅ rs = [].
Proof.
  unfold station_stops_of. apply filter_none, Forall_forall. intros s _.
  rewrite lookup_empty. by intros [? ?].
Qed.

Lemma stage2_empty (route_stories : list RouteStory) :
  route_story_train_station_stops ∅ route_stories = [].
Proof.
  unfold route_story_train_station_stops. rewrite filter_none; [done|].
  apply Forall_forall. intros p (rs & -> & _)%list_elem_of_fmap. simpl.
  rewrite station_stops_of_empty. simpl. lia.
Qed.

(** A loop over trips that only looks their route stories up in an empty
    dictionary. *)
Lemma for_each_trips_empty {V} (m : gmap Z RouteStory) (l : list Trip)
    (update : Trip → V → V) :
  let body := λ (d : odict Z V) trip,
    let! entry := getitem (m !! trip_id trip) in
    match Dict.get (route_story_id entry) d with
    | Some v => Ok (Dict.set (route_story_id entry) (update trip v) d)
    | None => Ok d
    end in
  (Forall (λ trip, is_Some (m !! trip_id trip)) l → for_each body l [] = Ok [])
  ∧ (Exists (λ trip, m !! trip_id trip = None) l → for_each body l [] = Raise KeyError).
Proof.
  intros body. induction l as [|trip l [IHok IHbad]]; cbn [for_each].
  { split; [done|]. by intros ?%Exists_nil. }
  unfold body at 1 3. destruct (m !! trip_id trip) as [entry|] eqn:Hm; simpl.
  - split.
    + intros [_ Hl]%Forall_cons. by apply IHok.
    + intros [Hn|Hl]%Exists_cons; [congruence|]. by apply IHbad.
  - split; [|done]. intros [[? ?] _]%Forall_cons. congruence.
Qed.

(** X17: when no stop is within the threshold of a station and every trip
    has an entry in the trip-to-route-story table, the run succeeds and writes
    no row; a trip without an entry still stops it with [KeyError]. *)
Theorem run_without_near_stops (weekdays : list Z) (start_date_ end_date_ : Z)
    (to_station : bool) (trips : list Trip) (trips_to_route_stories : gmap Z RouteStory)
    (gtfs_stops : gmap Z Stop) (station_stop_distance : Q)
    (station_distance : gmap Z StationAndDistance) (route_stories : list RouteStory) :
  find_station_stops station_stop_distance false station_distance = ∅ →
  let run := run_station_access weekdays start_date_ end_date_ to_station trips
               trips_to_route_stories gtfs_stops station_stop_distance station_distance
               route_stories in
  (Forall (λ trip, is_Some (trips_to_route_stories !! trip_id trip)) trips → run = Ok [])
  ∧ (Exists (λ trip, trips_to_route_stories !! trip_id trip = None) trips →
     run = Raise KeyError).
Proof.
  intros Hempty run. unfold run, run_station_access. rewrite Hempty, stage2_empty.
  assert (stage3 to_station [] = Ok []) as -> by by destruct to_station.
  cbn [rbind]. unfold route_story_frequency, route_story_to_route. cbv zeta.
  set (selected := filter (λ trip, trip_selected start_date_ end_date_ trip = true) trips).
  destruct (for_each_trips_empty trips_to_route_stories selected
              (λ _ e, with_ers_frequency e
                        (foldl (count_day weekdays) (ers_frequency e)
                           (date_range start_date_ end_date_)))) as [H4ok H4bad].
  destruct (for_each_trips_empty trips_to_route_stories trips
              (λ trip e, with_route e (trip_route trip))) as [H5ok H5bad].
  cbv zeta in H4ok, H4bad, H5ok, H5bad. split.
  - intros Hall.
    match goal with
    | |- rbind ?a _ = _ =>
        assert (a = Ok []) as -> by by apply H4ok, Forall_filter_weaken
    end.
    cbn [rbind].
    match goal with
    | |- rbind ?a _ = _ => assert (a = Ok []) as -> by by apply H5ok
    end.
    reflexivity.
  - intros Hex.
    destruct (decide (Forall (λ trip, is_Some (trips_to_route_stories !! trip_id trip))
                        selected)) as [Hsel|Hsel].
    + match goal with
      | |- rbind ?a _ = _ => assert (a = Ok []) as -> by by apply H4ok
      end.
      cbn [rbind].
      match goal with
      | |- rbind ?a _ = _ => assert (a = Raise KeyError) as -> by by apply H5bad
      end.
      reflexivity.
    + match goal with
      | |- rbind ?a _ = _ => assert (a = Raise KeyError) as ->; [|reflexivity]
      end.
      apply H4bad. apply not_Forall_Exists in Hsel; [|apply _].
      eapply Exists_impl; [exact Hsel|]. intros trip Hn. simpl in Hn.
      destruct (trips_to_route_stories !! trip_id trip); [|done]. destruct Hn. by eexists.
Qed.

Lemma run_without_near_stops_witness :
  run_station_access example_weekdays 100 107 true [example_trip 90 120]
    example_trips_to_route_stories example_stops 40 example_distance [example_pattern]
  = Ok []
  ∧ run_station_access example_weekdays 100 107 true [example_trip 90 120]
      ∅ example_stops 40 example_distance [example_pattern]
    = Raise KeyError.
Proof.
  split.
  - apply (run_without_near_stops example_weekdays 100 107 true [example_trip 90 120]
             example_trips_to_route_stories example_stops 40 example_distance
             [example_pattern]).
    + vm_compute. reflexivity.
    + repeat constructor. by eexists.
  - apply (run_without_near_stops example_weekdays 100 107 true [example_trip 90 120]
             ∅ example_stops 40 example_distance [example_pattern]).
    + vm_compute. reflexivity.
    + apply Exists_cons_hd. reflexivity.
Defined.

(** ** From the run to the result filter *)

(** Counters only grow from zero: after stages 4 and 5 none is negative. *)
Lemma stories_nonneg (weekdays : list Z) (start_date_ end_date_ : Z) (to_station : bool)
    (trips : list Trip) (trips_to_route_stories : gmap Z RouteStory)
    (stops_near_stations : gmap Z StationAndDistance) (route_stories : list RouteStory)
    (d3 d4 d5 : odict Z ExtendedRouteStory) :
  stage3 to_station (route_story_train_station_stops stops_near_stations route_stories)
  = Ok d3 →
  route_story_frequency weekdays start_date_ end_date_ trips trips_to_route_stories d3
  = Ok d4 →
  route_story_to_route trips trips_to_route_stories d4 = Ok d5 →
  Forall (λ e, 0 <= weekday_trips (ers_frequency e) ∧ 0 <= weekend_trips (ers_frequency e))
    (Dict.values d5).
Proof.
  intros H3 H4 H5. rewrite stage3_for_values in H3.
  destruct (for_values_entries _ _ _ H3) as (Hk3 & Hback3 & _).
  assert (NoDup (Dict.keys d3)) as Hnd3 by (rewrite Hk3; apply stage2_NoDup).
  apply route_story_frequency_spec in H4 as [Hk4 Hg4].
  apply route_story_to_route_spec in H5 as [Hk5 Hg5].
  apply Forall_forall. intros e5 (k & Hin)%elem_of_values.
  apply elem_get in Hin; [|by rewrite Hk5, Hk4].
  rewrite Hg5, Hg4 in Hin.
  destruct (Dict.get k d3) as [e3|] eqn:Hd3; [|done]. simpl in Hin.
  apply get_Some_elem in Hd3. destruct (Hback3 k e3 Hd3) as (e2 & Hin2 & Hb).
  apply stage3_story_preserves in Hb as [Hf3 _].
  pose proof (stage2_fresh stops_near_stations route_stories) as H2.
  rewrite Forall_forall in H2. destruct (H2 e2) as [Hf2 _].
  { apply elem_of_values. by exists k. }
  rewrite Hf2 in Hf3.
  match type of Hin with
  | context [foldl ?f (ers_frequency e3) ?days] =>
      pose proof (count_days_spec weekdays (ers_frequency e3) days) as (Hwd & Hwe & _)
  end.
  rewrite Hf3 in Hwd, Hwe. simpl in Hwd, Hwe. rewrite Hf3 in Hin.
  destruct (last _); injection Hin as <-; simpl; by split.
Qed.

Lemma Zsum_fmap_nonneg {A} (f : A → Z) (P : A → Prop) `{∀ x, Decision (P x)} (l : list A) :
  Forall (λ a, 0 <= f a) l → 0 <= Zsum (f <$> filter P l).
Proof.
  intros Hl. apply Zsum_nonneg, Forall_fmap, Forall_filter_weaken.
  eapply Forall_impl; [exact Hl|]. done.
Qed.

(** Sums of counters that are not negative are not negative: stages 6
    and 7. *)
Lemma aggregates_nonneg (stops_near_stations : gmap Z StationAndDistance)
    (d5 : odict Z ExtendedRouteStory) (extended_routes : odict Z ExtendedRoute)
    (stop_and_stations : odict (Z * Z) StopAndStation) :
  Forall (λ e, 0 <= weekday_trips (ers_frequency e) ∧ 0 <= weekend_trips (ers_frequency e))
    (Dict.values d5) →
  route_stops_and_stations stops_near_stations d5 = Ok extended_routes →
  aggregate_by_stop extended_routes = Ok stop_and_stations →
  Forall (λ s, 0 <= weekday_trips (sas_frequency s) ∧ 0 <= weekend_trips (sas_frequency s))
    (Dict.values stop_and_stations).
Proof.
  intros Hd5 H6 H7. unfold route_stops_and_stations in H6. inv_bind H6.
  rename x into routes0.
  apply route_stops_and_stations_sum_spec in Hx as (Hnd0 & _ & Hget0).
  destruct (for_values_entries _ _ _ H6) as (Hkeys & Hback & _).
  assert (Forall (λ er, 0 <= weekday_trips (er_frequency er)
                        ∧ 0 <= weekend_trips (er_frequency er)
                        ∧ NoDup (Dict.keys (stops_to_station_to_travel_time er)))
            (Dict.values extended_routes)) as Hers.
  { apply Forall_forall. intros er (rid & Hin)%elem_of_values.
    destruct (Hback rid er Hin) as (er0 & Hin0 & Hb).
    apply divide_route_spec in Hb as (-> & _ & ->).
    apply elem_get in Hin0; [|done]. specialize (Hget0 rid). rewrite Hin0 in Hget0.
    destruct Hget0 as (_ & -> & -> & Hnd). split_and!; [| |done].
    - apply Zsum_fmap_nonneg. eapply Forall_impl; [exact Hd5|]. by intros e [? ?].
    - apply Zsum_fmap_nonneg. eapply Forall_impl; [exact Hd5|]. by intros e [? ?]. }
  destruct (aggregate_by_stop_sum_spec extended_routes) as [Hnd7 Hget7].
  { eapply Forall_impl; [exact Hers|]. by intros er (_ & _ & ?). }
  unfold aggregate_by_stop, aggregate_by_stop_divide in H7.
  destruct (for_values_entries _ _ _ H7) as (_ & Hback7 & _).
  apply Forall_forall. intros s (key & Hin)%elem_of_values.
  destruct (Hback7 key s Hin) as (s0 & Hin0 & Hb). inv_bind Hb. subst s. simpl.
  apply elem_get in Hin0; [|done]. specialize (Hget7 key). rewrite Hin0 in Hget7.
  destruct Hget7 as (_ & -> & -> & _). split.
  - apply Zsum_fmap_nonneg. eapply Forall_impl; [exact Hers|]. by intros e (? & ? & ?).
  - apply Zsum_fmap_nonneg. eapply Forall_impl; [exact Hers|]. by intros e (? & ? & ?).
Qed.

(** X18: whatever a successful run writes passes the result filter at its
    neutral setting unchanged: the [weekday_trips] and [weekend_trips] of
    every row are the decimal numerals of integers that are not negative, so
    with the time limit at -1, no stations to include or to exclude,
    nearest-only off and a minimum of 0 weekday trips the filter returns the
    rows as they are. [int] is any reading of integers that undoes [str] on
    the numbers from 0 on. *)
Theorem run_rows_pass_neutral_filter (int : string → option Z) (weekdays : list Z)
    (start_date_ end_date_ : Z) (to_station : bool) (trips : list Trip)
    (trips_to_route_stories : gmap Z RouteStory) (gtfs_stops : gmap Z Stop)
    (station_stop_distance : Q) (station_distance : gmap Z StationAndDistance)
    (route_stories : list RouteStory) (rows : list Csv.t) :
  (∀ z, 0 <= z → int (str z) = Some z) →
  run_station_access weekdays start_date_ end_date_ to_station trips trips_to_route_stories
    gtfs_stops station_stop_distance station_distance route_stories
  = Ok rows →
  Forall (λ r, ∃ wd we, 0 <= wd ∧ 0 <= we
                        ∧ Csv.weekday_trips r = str wd ∧ Csv.weekend_trips r = str we) rows
  ∧ filter_station_access_results int rows (-1) None None false 0 = Ok rows.
Proof.
  intros Hint Hrun. unfold run_station_access in Hrun. cbv zeta in Hrun.
  inv_bind Hrun. rename x into d3, x0 into d4, x1 into d5, x2 into extended_routes,
    x3 into stop_and_stations.
  pose proof (stories_nonneg _ _ _ _ _ _ _ _ _ _ _ Hx Hx0 Hx1) as Hd5.
  pose proof (aggregates_nonneg _ _ _ _ Hd5 Hx2 Hx3) as Hsas.
  assert (Forall (λ r, ∃ wd we, 0 <= wd ∧ 0 <= we
                        ∧ Csv.weekday_trips r = str wd ∧ Csv.weekend_trips r = str we) rows)
    as Hrows.
  { apply traverse_Ok_inv in Hrun. revert Hsas.
    induction Hrun as [|s row l rows' Hrow _ IH]; intros Hsas; [constructor|].
    apply Forall_cons in Hsas as [[Hwd Hwe] Hsas]. constructor; [|by apply IH].
    unfold export_row in Hrow. inv_bind Hrow. subst row. simpl.
    by exists (weekday_trips (sas_frequency s)), (weekend_trips (sas_frequency s)). }
  split; [done|]. unfold filter_station_access_results. simpl. apply keep_if_all.
  eapply Forall_impl; [exact Hrows|]. intros r (wd & we & Hwd & _ & -> & _).
  unfold int_of. rewrite (Hint _ Hwd). simpl. by rewrite bool_decide_eq_true_2 by lia.
Qed.

(** The reading of decimal numerals undoes [str] on what is not negative. *)
Lemma decimal_str (n : Z) : 0 <= n → decimal (str n) = Some n.
Proof.
  intros Hn. destruct (str_nonneg n Hn) as (d & Hd & -> & <-).
  unfold decimal, NilZero.int_of_string.
  destruct (NilEmpty.string_of_uint d) as [|a s] eqn:Hs; [by destruct d|].
  assert (Ascii.eqb a "-" = false) as ->.
  { destruct d; simpl in Hs; try done; by injection Hs as <- _. }
  unfold NilZero.uint_of_string. by rewrite <- Hs, NilEmpty.usu.
Qed.

Lemma run_rows_pass_neutral_filter_witness :
  ∃ rows,
    run_station_access example_weekdays 100 107 true [example_trip 90 120]
      example_trips_to_route_stories example_stops 300 example_distance [example_pattern]
    = Ok rows
    ∧ length rows = 3%nat
    ∧ Forall (λ r, ∃ wd we, 0 <= wd ∧ 0 <= we
                      ∧ Csv.weekday_trips r = str wd ∧ Csv.weekend_trips r = str we) rows
    ∧ filter_station_access_results decimal rows (-1) None None false 0 = Ok rows.
Proof.
  eexists. split; [vm_compute; reflexivity|]. split; [reflexivity|].
  apply (run_rows_pass_neutral_filter decimal example_weekdays 100 107 true
           [example_trip 90 120] example_trips_to_route_stories example_stops 300
           example_distance [example_pattern]).
  - apply decimal_str.
  - vm_compute. reflexivity.
Defined.

(** ** The travel times of stage 6 *)






